(** * Camera HAL control core: message queue, capture driver, control thread

    A shallow embedding of

      - [MessageQueue.h]   : the FIFO command queue with reply slots,
      - the [CameraDriver] : buffer pool and V4L2 session handling,
      - [ControlThread.cpp]: the session state machine and its event loop,

    together with the properties of these components.

    Conventions.  C [int] values are [Z]; where the source increments a
    counter the 32-bit wrap-around is written out with [int32].  An array
    indexed by an [int] is a list read and written through [array_get] and
    [array_set], which return [None] outside the array: in the source such an
    access is undefined, and every function that may perform one returns an
    [option].  A [CameraBuffer *] of the driver is a [BufferPtr]: the address
    of a slot of the buffer pool, or of a struct that the caller owns;
    reading through the address of a slot of an array that has been freed
    is undefined as well.  Calls that leave the process (ioctls on the
    capture device, calls into the preview, picture and video threads, the
    face detector, the callbacks) are recorded in a log, newest first: the
    [DevCall]s of the driver and the [Call]s of the control thread.  Their return values are
    given by the classes [Device] and [Collaborators], as functions of the
    log so far and of the call being made. *)

From stdpp Require Import base numbers option list strings gmap.

Local Open Scope Z_scope.

(** ** Status codes ([utils/Errors.h]) *)

Definition status_t := Z.

Definition NO_ERROR : status_t := 0.
Definition UNKNOWN_ERROR : status_t := -2147483648.
Definition BAD_VALUE : status_t := -22.          (* -EINVAL *)
Definition INVALID_OPERATION : status_t := -38.  (* -ENOSYS *)
Definition DEAD_OBJECT : status_t := -32.        (* -EPIPE *)
Definition WOULD_BLOCK : status_t := -11.        (* -EWOULDBLOCK *)

(** ** Machine integers and arrays *)

(** The value of a 32-bit two's complement [int] holding [z]. *)
Definition int32 (z : Z) : Z := (z + 2147483648) `mod` 4294967296 - 2147483648.

Definition in_int32 (z : Z) : Prop := -2147483648 <= z <= 2147483647.

(** [a[i]] for an [int] index [i]. *)
Definition array_get {A} (a : list A) (i : Z) : option A :=
  if decide (0 <= i) then a !! Z.to_nat i else None.

(** [a[i] = x] for an [int] index [i]. *)
Definition array_set {A} (a : list A) (i : Z) (x : A) : option (list A) :=
  if decide (0 <= i < Z.of_nat (length a)) then Some (<[Z.to_nat i := x]> a) else None.

(** ** MessageQueue.h *)

Module MessageQueue.
Section Queue.
(** The template parameters: the message type and the integer value of the
    [id] field of a message. *)
Context {MessageType : Type}.
Variable msg_id : MessageType -> Z.

(** [mList] has its front at the head of the list.  [mReplyStatus] is the
    array of [mNumReply] reply slots, empty when replies are not enabled. *)
Record t := mk {
  mList : list MessageType;
  mNumReply : Z;
  mReplyStatus : list status_t
}.

Definition set_mList (q : t) (l : list MessageType) : t :=
  mk l (mNumReply q) (mReplyStatus q).

Definition set_mReplyStatus (q : t) (r : list status_t) : t :=
  mk (mList q) (mNumReply q) r.

(** Constructor.  The slots of [new status_t[numReply]] start with
    indeterminate contents, given here by [garbage]. *)
Definition create (numReply : Z) (garbage : list status_t) : t :=
  mk [] numReply (if decide (0 < numReply) then garbage else []).

Definition size (q : t) : bool := negb (Nat.eqb (length (mList q)) 0).
Definition isEmpty (q : t) : bool := negb (size q).

(** [reply]: store the status in the slot (and signal the waiter). *)
Definition reply (replyId : Z) (status : status_t) (q : t) : option t :=
  r ← array_set (mReplyStatus q) replyId status;
  Some (set_mReplyStatus q r).

(** What the caller of [send] does after the message has been pushed. *)
Inductive posted :=
| Returns (status : status_t)   (* [send] returns at once *)
| Waits (replyId : Z).          (* [send] enters the wait loop on this slot *)

(** The first half of [send], up to the release of the queue mutex. *)
Definition send_post (msg : MessageType) (replyId : Z) (q : t) : option (posted * t) :=
  if decide (replyId ≠ -1 ∧ mNumReply q = 0) then Some (Returns BAD_VALUE, q)
  else
    let q1 := set_mList q (msg :: mList q) in
    q2 ← (if decide (replyId ≠ -1) then reply replyId WOULD_BLOCK q1 else Some q1);
    Some (if decide (0 <= replyId) then Waits replyId else Returns NO_ERROR, q2).

(** The wait loop of [send]: the sender stays blocked while the slot holds
    [WOULD_BLOCK] and returns the slot's status otherwise. *)
Inductive waited :=
| Blocked
| Woken (status : status_t).

Definition send_wait (replyId : Z) (q : t) : option waited :=
  s ← array_get (mReplyStatus q) replyId;
  Some (if decide (s = WOULD_BLOCK) then Blocked else Woken s).

(** The scan of [remove]: erase every message whose id is [id], pushing the
    erased ones onto [vect], front of the queue first. *)
Fixpoint erase_matching (id : Z) (l : list MessageType) : list MessageType * list MessageType :=
  match l with
  | [] => ([], [])
  | msg :: rest =>
      let '(kept, erased) := erase_matching id rest in
      if decide (msg_id msg = id) then (kept, msg :: erased) else (msg :: kept, erased)
  end.

Definition remove (id : Z) (vect : option (list MessageType)) (q : t)
  : option (status_t * option (list MessageType) * t) :=
  if isEmpty q then Some (NO_ERROR, vect, q)
  else
    let '(kept, erased) := erase_matching id (mList q) in
    let vect1 := (λ v, v ++ erased) <$> vect in
    let q1 := set_mList q kept in
    q2 ← (if decide (0 < mNumReply q) then reply id INVALID_OPERATION q1 else Some q1);
    Some (NO_ERROR, vect1, q2).

(** [*(--mList.end())] together with [mList.erase(--mList.end())]. *)
Fixpoint pop_back (l : list MessageType) : option (MessageType * list MessageType) :=
  match l with
  | [] => None
  | [x] => Some (x, [])
  | x :: rest => '(y, rest1) ← pop_back rest; Some (y, x :: rest1)
  end.

(** [receive]: [None] while the queue is empty (the consumer waits). *)
Definition receive (q : t) : option (MessageType * t) :=
  '(msg, rest) ← pop_back (mList q);
  Some (msg, set_mList q rest).

(** A sequence of [send] calls, in program order.  Each element is the
    message with its reply id. *)
Fixpoint post_all (sends : list (MessageType * Z)) (q : t) : option t :=
  match sends with
  | [] => Some q
  | (msg, replyId) :: rest => '(_, q1) ← send_post msg replyId q; post_all rest q1
  end.

(** The messages of [sends] that [send] pushes on a queue with [numReply]
    reply slots (a send asking for a reply on a queue without replies is
    refused). *)
Definition pushed (numReply : Z) (sends : list (MessageType * Z)) : list MessageType :=
  (filter (λ s : MessageType * Z, ¬ (s.2 ≠ -1 ∧ numReply = 0)) sends).*1.

(** [n] successive [receive] calls. *)
Fixpoint drain (n : nat) (q : t) : option (list MessageType * t) :=
  match n with
  | O => Some ([], q)
  | S n' => '(msg, q1) ← receive q; '(msgs, q2) ← drain n' q1; Some (msg :: msgs, q2)
  end.

End Queue.
Arguments t : clear implicits.
End MessageQueue.


(** ** The capture device and the helpers the driver calls *)

(** The capture modes of [CameraDriver::Mode]. *)
Inductive Mode := MODE_NONE | MODE_PREVIEW | MODE_CAPTURE | MODE_VIDEO.

Global Instance Mode_eq_dec : EqDecision Mode.
Proof. solve_decision. Defined.

(** The calls the driver makes outside the process: system calls on the
    device node, the V4L2 requests, and the memory callbacks. *)
Inductive DevCall :=
| SYS_stat
| SYS_S_ISCHR
| SYS_open
| SYS_close (fd : Z)
| VIDIOC_QUERYCAP
| VIDIOC_S_PARM (capturemode : Mode)
| VIDIOC_G_FMT
| VIDIOC_S_FMT (w h : Z)
| VIDIOC_ENUM_FRAMEINTERVALS (w h : Z)
| VIDIOC_REQBUFS (count : Z)
| VIDIOC_QUERYBUF (index : Z)
| VIDIOC_QBUF (index : Z)
| VIDIOC_DQBUF
| VIDIOC_STREAMON
| VIDIOC_STREAMOFF
| CB_allocateMemory (index size : Z)
| CB_releaseMemory (index : Z)
| SYS_systemTime.

Global Instance DevCall_eq_dec : EqDecision DevCall.
Proof. solve_decision. Defined.

(** What the device answers.  Both functions take the calls made so far,
    newest first, and the call being made: [dev_ret] is the value the call
    returns, [dev_out] the value it stores through its argument
    (capabilities for QUERYCAP, the buffer length for QUERYBUF, the buffer
    index for DQBUF, the address for [allocateMemory], the time for
    [systemTime]).  [NUM_DEFAULT_BUFFERS] is the constant of the driver's
    header and [paddingWidth] the helper of the colour converter, applied to
    the driver's pixel format. *)
Class Device := {
  dev_ret : list DevCall -> DevCall -> Z;
  dev_out : list DevCall -> DevCall -> Z;
  NUM_DEFAULT_BUFFERS : Z;
  paddingWidth : Z -> Z -> Z
}.

Definition V4L2_CAP_VIDEO_CAPTURE : Z := 1.
Definition V4L2_CAP_STREAMING : Z := 67108864.
Definition ENODEV : Z := 19.
Definition EFAULT : Z := 14.

(** ** The camera driver *)

Module CameraDriver.

(** [buff] is the address of the frame memory, [None] while the buffer has
    none. *)
Record CameraBuffer := mkCameraBuffer {
  mID : Z;
  mDriverPrivate : Z;
  buff : option Z
}.

(** A [CameraBuffer *], as the driver takes and hands out.  [Slot a i] is
    the address of the [camBuff] of entry [i] of the pool array that the
    [a]-th [new DriverBuffer[]] of the driver returned: what [dequeueBuffer]
    stores in [*buff] and what [startDevice] passes.  [Copy b] is the
    address of a [CameraBuffer] outside the pool that holds [b], such as the
    structs the control thread keeps. *)
Inductive BufferPtr :=
| Slot (array : nat) (index : Z)
| Copy (b : CameraBuffer).

Record v4l2_buffer := mkVBuff {
  vb_index : Z;
  vb_length : Z;
  vb_userptr : Z
}.

Record DriverBuffer := mkDriverBuffer {
  camBuff : CameraBuffer;
  vBuff : v4l2_buffer
}.

(** [bufs] is [None] for the null pointer. *)
Record BufferPool := mkPool {
  numBuffers : Z;
  numBuffersQueued : Z;
  bufs : option (list DriverBuffer)
}.

(** The part of [mConfig] that the functions below read or write. *)
Record FrameInfo := mkFrameInfo {
  width : Z;
  height : Z;
  padding : Z;
  maxWidth : Z;
  maxHeight : Z
}.

Record Config := mkConfig {
  preview : FrameInfo;
  recording : FrameInfo;
  zoom : Z
}.

(** [mCameraSensor] is the file descriptor of the entry of this camera in the
    static sensor table, [None] when the table has no such entry.  [trace]
    is the list of calls made on the device so far, newest first.
    [allocations] is not a member of the class: it counts the pool arrays
    that [new DriverBuffer[]] has returned so far, and so names the array
    that [bufs] points to, which tells a pointer into the live array from a
    pointer into an array that [delete []] has freed. *)
Record t := mk {
  mMode : Mode;
  mSessionId : Z;
  mBufferPool : BufferPool;
  mConfig : Config;
  mCameraSensor : option Z;
  trace : list DevCall;
  allocations : nat
}.

Definition set_mMode (d : t) (m : Mode) : t :=
  mk m (mSessionId d) (mBufferPool d) (mConfig d) (mCameraSensor d) (trace d) (allocations d).
Definition set_mSessionId (d : t) (s : Z) : t :=
  mk (mMode d) s (mBufferPool d) (mConfig d) (mCameraSensor d) (trace d) (allocations d).
Definition set_mBufferPool (d : t) (p : BufferPool) : t :=
  mk (mMode d) (mSessionId d) p (mConfig d) (mCameraSensor d) (trace d) (allocations d).
Definition set_mConfig (d : t) (c : Config) : t :=
  mk (mMode d) (mSessionId d) (mBufferPool d) c (mCameraSensor d) (trace d) (allocations d).
Definition set_fd (d : t) (fd : Z) : t :=
  mk (mMode d) (mSessionId d) (mBufferPool d) (mConfig d) (Some fd) (trace d) (allocations d).

(** [mBufferPool.bufs = new DriverBuffer[...]]: [bufs] points to a new
    array, which holds [a]. *)
Definition new_array (d : t) (a : list DriverBuffer) : t :=
  mk (mMode d) (mSessionId d)
     (mkPool (numBuffers (mBufferPool d)) (numBuffersQueued (mBufferPool d)) (Some a))
     (mConfig d) (mCameraSensor d) (trace d) (S (allocations d)).

(** [memset(&mBufferPool, 0, sizeof(mBufferPool))]. *)
Definition empty_pool : BufferPool := mkPool 0 0 None.

(** A default-constructed [DriverBuffer]. *)
Definition blank_buffer : DriverBuffer := mkDriverBuffer (mkCameraBuffer 0 0 None) (mkVBuff 0 0 0).


Section Driver.
Context `{!Device}.

(** Make a call on the device: the answer and the driver with the call
    recorded. *)
Definition call (c : DevCall) (d : t) : Z * Z * t :=
  (dev_ret (trace d) c, dev_out (trace d) c,
   mk (mMode d) (mSessionId d) (mBufferPool d) (mConfig d) (mCameraSensor d) (c :: trace d)
      (allocations d)).

Definition ioctl (c : DevCall) (d : t) : Z * t :=
  let '(ret, _, d1) := call c d in (ret, d1).

Definition v4l2_capture_open (d : t) : Z * t :=
  let '(st, d1) := ioctl SYS_stat d in
  if decide (st = -1) then (-1, d1)
  else
    let '(chr, d2) := ioctl SYS_S_ISCHR d1 in
    if decide (chr = 0) then (-1, d2)
    else
      let '(fd, d3) := ioctl SYS_open d2 in
      if decide (fd <= 0) then (-1, d3) else (fd, d3).

Definition v4l2_capture_close (fd : Z) (d : t) : status_t * t :=
  if decide (fd < 0) then (INVALID_OPERATION, d)
  else
    let '(ret, d1) := ioctl (SYS_close fd) d in
    if decide (ret < 0) then (UNKNOWN_ERROR, d1) else (NO_ERROR, d1).

Definition v4l2_capture_querycap (d : t) : Z * t :=
  let '(ret, capabilities, d1) := call VIDIOC_QUERYCAP d in
  if decide (ret < 0) then (ret, d1)
  else if decide (Z.land capabilities V4L2_CAP_VIDEO_CAPTURE = 0) then (-1, d1)
  else if decide (Z.land capabilities V4L2_CAP_STREAMING = 0) then (-1, d1)
  else (ret, d1).

Definition openDevice (d : t) : Z * t :=
  match mCameraSensor d with
  | None => (- ENODEV, d)
  | Some fd0 =>
      if decide (0 <= fd0) then (fd0, d)
      else
        let '(fd, d1) := v4l2_capture_open d in
        if decide (fd < 0) then (- EFAULT, d1)
        else
          let '(ret, d2) := v4l2_capture_querycap d1 in
          if decide (ret < 0) then
            let '(_, d3) := v4l2_capture_close fd d2 in (- EFAULT, d3)
          else (fd, set_fd d2 fd)
  end.

Definition closeDevice (d : t) : t :=
  match mCameraSensor d with
  | None => d
  | Some fd =>
      if decide (fd < 0) then d
      else let '(_, d1) := v4l2_capture_close fd d in set_fd d1 (-1)
  end.

Definition set_capture_mode (deviceMode : Mode) (d : t) : option (Z * t) :=
  _ ← mCameraSensor d;
  let '(ret, d1) := ioctl (VIDIOC_S_PARM deviceMode) d in
  Some (if decide (ret < 0) then -1 else 0, d1).

Definition v4l2_capture_s_format (w h : Z) (d : t) : Z * t :=
  let '(ret, d1) := ioctl VIDIOC_G_FMT d in
  if decide (ret < 0) then (-1, d1)
  else
    let '(ret2, d2) := ioctl (VIDIOC_S_FMT w h) d1 in
    if decide (ret2 < 0) then (-1, d2) else (0, d2).

(** The frame rate itself is a [float] that only [mConfig.fps] receives; the
    request and its return value are kept. *)
Definition v4l2_capture_g_framerate (w h : Z) (d : t) : Z * t :=
  let '(ret, d1) := ioctl (VIDIOC_ENUM_FRAMEINTERVALS w h) d in
  if decide (ret < 0) then (ret, d1) else (0, d1).

(** [&mBufferPool.bufs[index]]: undefined without an array or outside it. *)
Definition pool_get (index : Z) (d : t) : option DriverBuffer :=
  a ← bufs (mBufferPool d); array_get a index.

Definition pool_set (index : Z) (b : DriverBuffer) (d : t) : option t :=
  a ← bufs (mBufferPool d);
  a1 ← array_set a index b;
  Some (set_mBufferPool d (mkPool (numBuffers (mBufferPool d)) (numBuffersQueued (mBufferPool d)) (Some a1))).

(** Reading through a [CameraBuffer *]: undefined for a slot of an array
    that has been freed, and for a slot outside the live array. *)
Definition deref (p : BufferPtr) (d : t) : option CameraBuffer :=
  match p with
  | Copy b => Some b
  | Slot a i => if decide (a = allocations d) then camBuff <$> pool_get i d else None
  end.

Definition allocateBuffer (index : Z) (d : t) : option (status_t * t) :=
  b ← pool_get index d;
  let '(ret, length, d1) := call (VIDIOC_QUERYBUF index) d in
  if decide (ret < 0) then
    pool_set index (mkDriverBuffer (camBuff b) (mkVBuff index (vb_length (vBuff b)) (vb_userptr (vBuff b)))) d1
    ≫= λ d2, Some (UNKNOWN_ERROR, d2)
  else
    let '(_, data, d2) := call (CB_allocateMemory index length) d1 in
    d3 ← pool_set index
            (mkDriverBuffer (mkCameraBuffer index (mDriverPrivate (camBuff b)) (Some data))
                            (mkVBuff index length data)) d2;
    Some (NO_ERROR, d3).

Definition freeBuffer (index : Z) (d : t) : option t :=
  _ ← pool_get index d;
  let '(_, d1) := ioctl (CB_releaseMemory index) d in Some d1.

(** [for (int i = from; i < mBufferPool.numBuffers; i++) freeBuffer(i);]
    with [fuel] iterations left. *)
Fixpoint freeBuffer_loop (fuel : nat) (i : Z) (d : t) : option t :=
  match fuel with
  | O => Some d
  | S fuel' =>
      if decide (i < numBuffers (mBufferPool d)) then
        d1 ← freeBuffer i d; freeBuffer_loop fuel' (i + 1) d1
      else Some d
  end.

Definition free_all (d : t) : option t :=
  freeBuffer_loop (Z.to_nat (numBuffers (mBufferPool d))) 0 d.

(** The loop of [allocateBuffers]: [Some (status, d)] with [status] the
    status of the first [allocateBuffer] that failed, [NO_ERROR] if none. *)
Fixpoint allocateBuffer_loop (fuel : nat) (i : Z) (d : t) : option (status_t * t) :=
  match fuel with
  | O => Some (NO_ERROR, d)
  | S fuel' =>
      '(status, d1) ← allocateBuffer i d;
      if decide (status ≠ NO_ERROR) then Some (status, d1)
      else
        let p := mBufferPool d1 in
        allocateBuffer_loop fuel' (i + 1)
          (set_mBufferPool d1 (mkPool (int32 (numBuffers p + 1)) (numBuffersQueued p) (bufs p)))
  end.

Definition allocateBuffers (numBuffers_ : Z) (d : t) : option (status_t * t) :=
  match bufs (mBufferPool d) with
  | Some _ => Some (UNKNOWN_ERROR, d)
  | None =>
      _ ← mCameraSensor d;
      let '(ret, d1) := ioctl (VIDIOC_REQBUFS numBuffers_) d in
      if decide (ret < 0) then Some (UNKNOWN_ERROR, d1)
      else if decide (numBuffers_ < 0) then None
      else
        let d2 := new_array d1 (replicate (Z.to_nat numBuffers_) blank_buffer) in
        '(status, d3) ← allocateBuffer_loop (Z.to_nat numBuffers_) 0 d2;
        if decide (status = NO_ERROR) then Some (NO_ERROR, d3)
        else
          d4 ← free_all d3;
          Some (status, set_mBufferPool d4 empty_pool)
  end.

Definition freeBuffers (d : t) : option (status_t * t) :=
  match bufs (mBufferPool d) with
  | None => Some (NO_ERROR, d)
  | Some _ =>
      _ ← mCameraSensor d;
      d1 ← free_all d;
      let '(_, d2) := ioctl (VIDIOC_REQBUFS 0) d1 in
      Some (NO_ERROR, set_mBufferPool d2 empty_pool)
  end.

(** [queueBuffer] reads through [buff]: the tag when [init] is false, and
    the id. *)
Definition queueBuffer (buff : BufferPtr) (init : bool) (d : t) : option (status_t * t) :=
  cb ← deref buff d;
  if decide (init = false ∧ mDriverPrivate cb ≠ mSessionId d) then Some (DEAD_OBJECT, d)
  else
    _ ← mCameraSensor d;
    b ← pool_get (mID cb) d;
    let '(ret, d1) := ioctl (VIDIOC_QBUF (vb_index (vBuff b))) d in
    if decide (ret < 0) then Some (UNKNOWN_ERROR, d1)
    else
      let p := mBufferPool d1 in
      Some (NO_ERROR,
            set_mBufferPool d1 (mkPool (numBuffers p) (int32 (numBuffersQueued p + 1)) (bufs p))).

(** [dequeueBuffer]: the status, the pointer stored in [*buff], which is
    the address of the slot of the pool that now carries the id and the tag
    of the session, and, when the caller passes a [timestamp] pointer, the
    time stamp. *)
Definition dequeueBuffer (timestamp : bool) (d : t)
  : option (status_t * option (BufferPtr * option Z) * t) :=
  _ ← mCameraSensor d;
  let '(ret, index, d1) := call VIDIOC_DQBUF d in
  if decide (ret < 0) then Some (UNKNOWN_ERROR, None, d1)
  else
    b ← pool_get index d1;
    let camBuff1 := mkCameraBuffer index (mSessionId d1) (buff (camBuff b)) in
    d2 ← pool_set index (mkDriverBuffer camBuff1 (vBuff b)) d1;
    let '(ts, d3) :=
      if timestamp then let '(_, now, d3) := call SYS_systemTime d2 in (Some now, d3)
      else (None, d2) in
    let p := mBufferPool d3 in
    Some (NO_ERROR, Some (Slot (allocations d) index, ts),
          set_mBufferPool d3 (mkPool (numBuffers p) (int32 (numBuffersQueued p - 1)) (bufs p))).

Definition deconfigureDevice (d : t) : option (Z * t) :=
  '(status, d1) ← freeBuffers d;
  Some (if decide (status ≠ NO_ERROR) then -1 else 0, d1).

Definition configureDevice (deviceMode : Mode) (w h numBuffers_ : Z) (d : t) : option (Z * t) :=
  if decide (w <= 0 ∨ h <= 0) then Some (-1, d)
  else
    _ ← mCameraSensor d;
    '(ret, d1) ← set_capture_mode deviceMode d;
    if decide (ret < 0) then Some (ret, d1)
    else
      let '(ret2, d2) := v4l2_capture_s_format w h d1 in
      if decide (ret2 < 0) then Some (ret2, d2)
      else
        let '(_, d3) := v4l2_capture_g_framerate w h d2 in
        '(status, d4) ← allocateBuffers numBuffers_ d3;
        Some (if decide (status ≠ NO_ERROR) then -1 else 0, d4).

(** The loop of [startDevice]: [true] when every buffer was queued. *)
Fixpoint startDevice_loop (fuel : nat) (i : Z) (d : t) : option (bool * t) :=
  match fuel with
  | O => Some (true, d)
  | S fuel' =>
      if decide (i < numBuffers (mBufferPool d)) then
        '(status, d1) ← queueBuffer (Slot (allocations d) i) true d;
        if decide (status ≠ NO_ERROR) then Some (false, d1)
        else startDevice_loop fuel' (i + 1) d1
      else Some (true, d)
  end.

Definition startDevice (d : t) : option (Z * t) :=
  _ ← mCameraSensor d;
  '(ok, d1) ← startDevice_loop (Z.to_nat (numBuffers (mBufferPool d))) 0 d;
  if (ok : bool) then
    let '(ret, d2) := ioctl VIDIOC_STREAMON d1 in
    Some (if decide (ret < 0) then ret else 0, d2)
  else Some (-1, d1).

Definition stopDevice (d : t) : option t :=
  _ ← mCameraSensor d;
  let '(_, d1) := ioctl VIDIOC_STREAMOFF d in Some d1.

(** [set_zoom] does nothing yet and returns [NO_ERROR]. *)
Definition set_zoom (zoom_ : Z) (d : t) : Z * t := (NO_ERROR, d).

(** The body shared, line for line, by [startPreview], [startRecording] and
    [startCapture]; [resend_zoom] tells whether the function calls
    [set_zoom] between configuring and starting the device. *)
Definition start_device_in (deviceMode : Mode) (resend_zoom : bool) (d : t) : option (status_t * t) :=
  let '(ret, d1) := openDevice d in
  if decide (ret < 0) then Some (UNKNOWN_ERROR, d1)
  else
    '(ret2, d2) ← configureDevice deviceMode (padding (preview (mConfig d1)))
                     (height (preview (mConfig d1))) NUM_DEFAULT_BUFFERS d1;
    if decide (ret2 < 0) then Some (UNKNOWN_ERROR, closeDevice d2)
    else
      d3 ← (if resend_zoom then _ ← mCameraSensor d2; Some (set_zoom (zoom (mConfig d2)) d2).2
            else Some d2);
      '(ret3, d4) ← startDevice d3;
      if decide (ret3 < 0) then
        '(_, d5) ← deconfigureDevice d4;
        Some (UNKNOWN_ERROR, closeDevice d5)
      else Some (NO_ERROR, d4).

Definition startPreview : t -> option (status_t * t) := start_device_in MODE_PREVIEW true.
Definition startRecording : t -> option (status_t * t) := start_device_in MODE_VIDEO false.
Definition startCapture : t -> option (status_t * t) := start_device_in MODE_CAPTURE true.

(** The body shared by [stopPreview], [stopRecording] and [stopCapture]. *)
Definition stop_device (d : t) : option (status_t * t) :=
  d1 ← stopDevice d;
  '(_, d2) ← deconfigureDevice d1;
  Some (NO_ERROR, closeDevice d2).

Definition stopPreview : t -> option (status_t * t) := stop_device.
Definition stopRecording : t -> option (status_t * t) := stop_device.
Definition stopCapture : t -> option (status_t * t) := stop_device.

Definition start (mode : Mode) (d : t) : option (status_t * t) :=
  '(status, d1) ←
    match mode with
    | MODE_PREVIEW => startPreview d
    | MODE_VIDEO => startRecording d
    | MODE_CAPTURE => startCapture d
    | MODE_NONE => Some (NO_ERROR, d)
    end;
  if decide (status = NO_ERROR) then
    Some (status, set_mSessionId (set_mMode d1 mode) (int32 (mSessionId d1 + 1)))
  else Some (status, d1).

Definition stop (d : t) : option (status_t * t) :=
  '(status, d1) ←
    match mMode d with
    | MODE_PREVIEW => stopPreview d
    | MODE_VIDEO => stopRecording d
    | MODE_CAPTURE => stopCapture d
    | MODE_NONE => Some (NO_ERROR, d)
    end;
  if decide (status = NO_ERROR) then Some (status, set_mMode d1 MODE_NONE)
  else Some (status, d1).

(** [getPreviewFrame], [getRecordingFrame], [getSnapshot]. *)
Definition getPreviewFrame (d : t) : option (status_t * option (BufferPtr * option Z) * t) :=
  if decide (mMode d = MODE_NONE) then Some (INVALID_OPERATION, None, d)
  else dequeueBuffer false d.

Definition getRecordingFrame (d : t) : option (status_t * option (BufferPtr * option Z) * t) :=
  if decide (mMode d = MODE_NONE) then Some (INVALID_OPERATION, None, d)
  else dequeueBuffer true d.

Definition getSnapshot (d : t) : option (status_t * option (BufferPtr * option Z) * t) :=
  if decide (mMode d = MODE_NONE) then Some (INVALID_OPERATION, None, d)
  else dequeueBuffer false d.

(** [putPreviewFrame], [putRecordingFrame], [putSnapshot]: [queueBuffer(buff)],
    the [init] argument left to its default, [false]. *)
Definition putPreviewFrame (buff : BufferPtr) (d : t) : option (status_t * t) :=
  if decide (mMode d = MODE_NONE) then Some (INVALID_OPERATION, d)
  else queueBuffer buff false d.

Definition putRecordingFrame (buff : BufferPtr) (d : t) : option (status_t * t) :=
  if decide (mMode d = MODE_NONE) then Some (INVALID_OPERATION, d)
  else queueBuffer buff false d.

Definition putSnapshot (buff : BufferPtr) (d : t) : option (status_t * t) :=
  if decide (mMode d = MODE_NONE) then Some (INVALID_OPERATION, d)
  else queueBuffer buff false d.

Definition putThumbnail (buff : BufferPtr) (d : t) : status_t := INVALID_OPERATION.

Definition dataAvailable (d : t) : bool := bool_decide (0 < numBuffersQueued (mBufferPool d)).

Definition isBufferValid (buffer : BufferPtr) (d : t) : option bool :=
  b ← deref buffer d;
  Some (bool_decide (mDriverPrivate b = mSessionId d)).

(** [ControlThread.cpp] is written against the revision of the driver whose
    get functions take a [CameraBuffer *] and fill the caller's struct:
    the function of this file followed by the copy out of the pool slot. *)
Definition copy_out (r : option (status_t * option (BufferPtr * option Z) * t))
  : option (status_t * option (CameraBuffer * option Z) * t) :=
  '(status, got, d) ← r;
  match got with
  | None => Some (status, None, d)
  | Some (p, ts) => b ← deref p d; Some (status, Some (b, ts), d)
  end.

Definition setZoom (zoom_ : Z) (d : t) : option (status_t * t) :=
  if decide (zoom_ = zoom (mConfig d)) then Some (NO_ERROR, d)
  else if decide (mMode d = MODE_CAPTURE) then Some (NO_ERROR, d)
  else
    _ ← mCameraSensor d;
    let '(ret, d1) := set_zoom zoom_ d in
    if decide (ret < 0) then Some (UNKNOWN_ERROR, d1)
    else Some (NO_ERROR,
               set_mConfig d1 (mkConfig (preview (mConfig d1)) (recording (mConfig d1)) zoom_)).

Definition setPreviewFrameSize (width_ height_ : Z) (d : t) : status_t * t :=
  let f := preview (mConfig d) in
  let w := if decide (maxWidth f < width_ ∨ width_ <= 0) then maxWidth f else width_ in
  let h := if decide (maxHeight f < height_ ∨ height_ <= 0) then maxHeight f else height_ in
  (NO_ERROR,
   set_mConfig d (mkConfig (mkFrameInfo w h (paddingWidth w h) (maxWidth f) (maxHeight f))
                           (recording (mConfig d)) (zoom (mConfig d)))).

Definition getVideoSize (d : t) : Z * Z :=
  (width (recording (mConfig d)), height (recording (mConfig d))).

Definition setVideoFrameSize (width_ height_ : Z) (d : t) : status_t * t :=
  let f := recording (mConfig d) in
  if decide (width f = width_ ∧ height f = height_) then (NO_ERROR, d)
  else if decide (mMode d = MODE_VIDEO) then (INVALID_OPERATION, d)
  else
    let w := if decide (maxWidth f < width_ ∨ width_ <= 0) then maxWidth f else width_ in
    let h := if decide (maxHeight f < height_ ∨ height_ <= 0) then maxHeight f else height_ in
    (NO_ERROR,
     set_mConfig d (mkConfig (preview (mConfig d))
                             (mkFrameInfo w h (paddingWidth w h) (maxWidth f) (maxHeight f))
                             (zoom (mConfig d)))).

(** Modelled from the spec: [getNumBuffers] is not in the driver's source;
    the pool holds a number of buffers fixed at configuration time, which
    [configureDevice] receives from the start functions as
    [NUM_DEFAULT_BUFFERS]. *)
Definition getNumBuffers (d : t) : Z := NUM_DEFAULT_BUFFERS.

(** *** The buffers the device holds *)

(** The indices of the buffers that the device holds after the calls of
    [tr] (newest first): a queue request that the device accepts hands it
    the buffer, a dequeue request that it completes takes back the buffer
    whose index it reports, and an accepted request for buffers starts a new
    set. *)
Fixpoint held (tr : list DevCall) : list Z :=
  match tr with
  | [] => []
  | c :: older =>
      match c with
      | VIDIOC_QBUF i => if decide (dev_ret older c < 0) then held older else i :: held older
      | VIDIOC_DQBUF =>
          if decide (dev_ret older c < 0) then held older
          else filter (λ j, j ≠ dev_out older c) (held older)
      | VIDIOC_REQBUFS _ => if decide (dev_ret older c < 0) then held older else []
      | _ => held older
      end
  end.

(** The buffers of a pool of [n] that the device does not hold: they are
    with the consumers of the frames (or not yet handed out). *)
Definition not_held (n : Z) (tr : list DevCall) : list Z :=
  filter (λ i, i ∉ held tr) (seqZ 0 n).

(** The contract of the queue of a V4L2 device: it accepts a buffer only if
    it does not hold it already, and it completes a dequeue only with a
    buffer it holds. *)
Definition queue_contract : Prop :=
  ∀ tr,
    (∀ i, 0 <= dev_ret tr (VIDIOC_QBUF i) -> i ∉ held tr) ∧
    (0 <= dev_ret tr VIDIOC_DQBUF -> dev_out tr VIDIOC_DQBUF ∈ held tr).

(** The counter of the pool agrees with the device.  While the pool has its
    array, the array has [numBuffers] entries whose V4L2 descriptors carry
    their own index, and [numBuffersQueued] counts the buffers the device
    holds, which are distinct buffers of the pool.  Without the array both
    numbers are 0 (the device may still hold buffers: [freeBuffers] drops
    the pool also when the device refuses to release them). *)
Definition pool_tracks_device (d : t) : Prop :=
  let p := mBufferPool d in
  NoDup (held (trace d)) ∧
  in_int32 (numBuffers p) ∧
  match bufs p with
  | None => numBuffers p = 0 ∧ numBuffersQueued p = 0
  | Some a =>
      numBuffers p = Z.of_nat (length a) ∧
      (∀ (i : nat) b, a !! i = Some b -> vb_index (vBuff b) = Z.of_nat i) ∧
      numBuffersQueued p = Z.of_nat (length (held (trace d))) ∧
      (∀ i, i ∈ held (trace d) -> 0 <= i < numBuffers p)
  end.

(** The four operations on the pool, and a sequence of them. *)
Inductive PoolOp :=
| OpAllocateBuffers (numBuffers_ : Z)
| OpFreeBuffers
| OpQueueBuffer (buff : BufferPtr) (init : bool)
| OpDequeueBuffer (timestamp : bool).

Definition pool_step (op : PoolOp) (d : t) : option t :=
  match op with
  | OpAllocateBuffers n => snd <$> allocateBuffers n d
  | OpFreeBuffers => snd <$> freeBuffers d
  | OpQueueBuffer buff init => snd <$> queueBuffer buff init d
  | OpDequeueBuffer timestamp => snd <$> dequeueBuffer timestamp d
  end.

Fixpoint pool_run (ops : list PoolOp) (d : t) : option t :=
  match ops with
  | [] => Some d
  | op :: rest => d1 ← pool_step op d; pool_run rest d1
  end.

(** An [int] argument of an operation holds an [int]. *)
Definition PoolOp_wf (op : PoolOp) : Prop :=
  match op with
  | OpAllocateBuffers n => in_int32 n
  | _ => True
  end.

End Driver.

(** The modes the driver can be asked to set, and what it answers.  The
    driver supports one value of each. *)
Inductive Effect :=
| EFFECT_NONE | EFFECT_MONO | EFFECT_NEGATIVE | EFFECT_SOLARIZE | EFFECT_SEPIA
| EFFECT_POSTERIZE | EFFECT_WHITEBOARD | EFFECT_BLACKBOARD | EFFECT_AQUA.

Inductive FlashMode :=
| FLASH_MODE_AUTO | FLASH_MODE_OFF | FLASH_MODE_ON | FLASH_MODE_TORCH | FLASH_MODE_RED_EYE.

Inductive SceneMode :=
| SCENE_MODE_AUTO | SCENE_MODE_ACTION | SCENE_MODE_PORTRAIT | SCENE_MODE_LANDSCAPE
| SCENE_MODE_NIGHT | SCENE_MODE_THEATRE | SCENE_MODE_BEACH | SCENE_MODE_SNOW
| SCENE_MODE_SUNSET | SCENE_MODE_STEADYPHOTO | SCENE_MODE_FIREWORKS | SCENE_MODE_SPORTS
| SCENE_MODE_PARTY | SCENE_MODE_CANDLELIGHT | SCENE_MODE_BARCODE.

Inductive FocusMode :=
| FOCUS_MODE_INFINITY | FOCUS_MODE_MACRO | FOCUS_MODE_AUTO | FOCUS_MODE_FIXED
| FOCUS_MODE_EDOF | FOCUS_MODE_CONTINUOUS_VIDEO | FOCUS_MODE_CONTINUOUS_PICTURE.

Inductive WhiteBalanceMode :=
| WHITE_BALANCE_AUTO | WHITE_BALANCE_INCANDESCENT | WHITE_BALANCE_FLUORESCENT
| WHITE_BALANCE_DAYLIGHT | WHITE_BALANCE_CLOUDY_DAYLIGHT | WHITE_BALANCE_TWILIGHT
| WHITE_BALANCE_SHADE.

Global Instance Effect_eq_dec : EqDecision Effect.
Proof. solve_decision. Defined.
Global Instance FlashMode_eq_dec : EqDecision FlashMode.
Proof. solve_decision. Defined.
Global Instance SceneMode_eq_dec : EqDecision SceneMode.
Proof. solve_decision. Defined.
Global Instance FocusMode_eq_dec : EqDecision FocusMode.
Proof. solve_decision. Defined.
Global Instance WhiteBalanceMode_eq_dec : EqDecision WhiteBalanceMode.
Proof. solve_decision. Defined.

Definition setEffect (effect : Effect) : status_t :=
  match effect with EFFECT_NONE => NO_ERROR | _ => BAD_VALUE end.

Definition setFlashMode (flashMode : FlashMode) : status_t :=
  match flashMode with FLASH_MODE_OFF => NO_ERROR | _ => BAD_VALUE end.

Definition setSceneMode (sceneMode : SceneMode) : status_t :=
  match sceneMode with SCENE_MODE_AUTO => NO_ERROR | _ => BAD_VALUE end.

(** [windows] is [None] for a null pointer. *)
Definition setFocusMode {W} (focusMode : FocusMode) (windows : option (list W)) (numWindows : Z) : status_t :=
  match focusMode with
  | FOCUS_MODE_FIXED =>
      if decide (is_Some windows ∨ numWindows ≠ 0) then INVALID_OPERATION else NO_ERROR
  | _ => BAD_VALUE
  end.

Definition setWhiteBalanceMode (wbMode : WhiteBalanceMode) : status_t :=
  match wbMode with WHITE_BALANCE_AUTO => NO_ERROR | _ => BAD_VALUE end.

Definition setAeLock (lock : bool) : status_t := INVALID_OPERATION.
Definition setAwbLock (lock : bool) : status_t := INVALID_OPERATION.
Definition setMeteringAreas {W} (windows : list W) (numWindows : Z) : status_t := INVALID_OPERATION.
Definition autoFocus : status_t := INVALID_OPERATION.
Definition cancelAutoFocus : status_t := INVALID_OPERATION.

End CameraDriver.

(** A [CameraBuffer] where a pointer is expected stands for its address. *)
Coercion CameraDriver.Copy : CameraDriver.CameraBuffer >-> CameraDriver.BufferPtr.

(** ** C strings and camera parameters *)

(** The first [n] characters of [s]. *)
Fixpoint strtake (n : nat) (s : string) : string :=
  match n, s with
  | S n', String c s' => String c (strtake n' s')
  | _, _ => EmptyString
  end.

(** [strncmp(a, b, n) == 0]. *)
Definition strncmp_eq (a b : string) (n : nat) : bool :=
  bool_decide (strtake n a = strtake n b).

(** [strstr(haystack, needle) != NULL]. *)
Fixpoint strstr (haystack needle : string) : bool :=
  String.prefix needle haystack ||
  match haystack with
  | EmptyString => false
  | String _ rest => strstr rest needle
  end.

(** [strchr(s, c)]: the suffix of [s] from the first [c] on, [None] for the
    null pointer. *)
Fixpoint strchr (s : string) (c : Ascii.ascii) : option string :=
  match s with
  | EmptyString => None
  | String a rest => if decide (a = c) then Some s else strchr rest c
  end.

(** The character that opens a window in a list of areas. *)
Definition paren : Ascii.ascii := Ascii.Ascii false false false true false true false false.

(** [strchr(s + 1, c)] for a string [s] that is not empty. *)
Definition strchr_next (s : string) (c : Ascii.ascii) : option string :=
  match s with
  | EmptyString => None
  | String _ rest => strchr rest c
  end.

(** [android::CameraParameters]: a map from keys to values.  The constants
    are the ones of that class. *)
Abbreviation CameraParameters := (gmap string string).

Definition KEY_PREVIEW_SIZE := "preview-size"%string.
Definition KEY_PREVIEW_FORMAT := "preview-format"%string.
Definition KEY_PREVIEW_FPS_RANGE := "preview-fps-range"%string.
Definition KEY_VIDEO_SIZE := "video-size"%string.
Definition KEY_PICTURE_SIZE := "picture-size"%string.
Definition KEY_SUPPORTED_VIDEO_SIZES := "video-size-values"%string.
Definition KEY_RECORDING_HINT := "recording-hint"%string.
Definition KEY_ZOOM := "zoom"%string.
Definition KEY_MAX_ZOOM := "max-zoom"%string.
Definition KEY_EFFECT := "effect"%string.
Definition KEY_FLASH_MODE := "flash-mode"%string.
Definition KEY_SUPPORTED_FLASH_MODES := "flash-mode-values"%string.
Definition KEY_SCENE_MODE := "scene-mode"%string.
Definition KEY_FOCUS_MODE := "focus-mode"%string.
Definition KEY_SUPPORTED_FOCUS_MODES := "focus-mode-values"%string.
Definition KEY_FOCUS_AREAS := "focus-areas"%string.
Definition KEY_MAX_NUM_FOCUS_AREAS := "max-num-focus-areas"%string.
Definition KEY_METERING_AREAS := "metering-areas"%string.
Definition KEY_MAX_NUM_METERING_AREAS := "max-num-metering-areas"%string.
Definition KEY_WHITE_BALANCE := "whitebalance"%string.
Definition KEY_AUTO_EXPOSURE_LOCK := "auto-exposure-lock"%string.
Definition KEY_AUTO_WHITEBALANCE_LOCK := "auto-whitebalance-lock"%string.

Definition TRUE := "true"%string.
Definition FALSE := "false"%string.

(** A focus or metering window. *)
Record CameraWindow := mkWindow {
  x_left : Z;
  x_right : Z;
  y_top : Z;
  y_bottom : Z;
  weight : Z
}.

(** The library functions and header constants the control thread relies
    on.  [strtol], [parse_pair], [format_pair], [sscanf_window],
    [parse_sizes], [unflatten] and [flatten] are the string conversions of
    the C library and of [CameraParameters]; [sscanf_window s w] is
    [sscanf(s, "(%d,%d,%d,%d,%d)", ...)] over a window holding [w]: the
    number of fields converted and the window afterwards.  [V4L2Format] maps
    a preview format name to a pixel format ([-1] if unknown).
    [aspect_gt a b c d] and [aspect_le a b c d] are the [float] tests
    [fabsf(1.0*a/b - 1.0*c/d) > ASPECT_TOLERANCE] and [... <= ASPECT_TOLERANCE].
    [indeterminate_window] is the content of a window the program has not
    written yet. *)
Class Host := {
  strtol : string -> Z;
  parse_pair : string -> option (Z * Z);
  format_pair : Z -> Z -> string;
  parse_sizes : option string -> list (Z * Z);
  sscanf_window : string -> CameraWindow -> Z * CameraWindow;
  unflatten : string -> CameraParameters;
  flatten : CameraParameters -> string;
  V4L2Format : option string -> Z;
  aspect_gt : Z -> Z -> Z -> Z -> bool;
  aspect_le : Z -> Z -> Z -> Z -> bool;
  indeterminate_window : CameraWindow;
  MAX_PARAM_VALUE_LENGTH : nat
}.

Section Parameters.
Context `{!Host}.

Definition get (p : CameraParameters) (key : string) : option string := p !! key.

Definition getInt (p : CameraParameters) (key : string) : Z :=
  match get p key with
  | None => -1
  | Some v => strtol v
  end.

(** [getPreviewSize], [getVideoSize], [getPictureSize], [getPreviewFpsRange]:
    both values are [-1] when the key is absent or its value does not parse. *)
Definition get_pair (p : CameraParameters) (key : string) : Z * Z :=
  match get p key ≫= parse_pair with
  | None => (-1, -1)
  | Some wh => wh
  end.

Definition getPreviewSize (p : CameraParameters) : Z * Z := get_pair p KEY_PREVIEW_SIZE.
Definition getVideoSize (p : CameraParameters) : Z * Z := get_pair p KEY_VIDEO_SIZE.
Definition getPictureSize (p : CameraParameters) : Z * Z := get_pair p KEY_PICTURE_SIZE.
Definition getPreviewFpsRange (p : CameraParameters) : Z * Z := get_pair p KEY_PREVIEW_FPS_RANGE.

Definition setPreviewSize (p : CameraParameters) (w h : Z) : CameraParameters :=
  <[KEY_PREVIEW_SIZE := format_pair w h]> p.
Definition setVideoSize (p : CameraParameters) (w h : Z) : CameraParameters :=
  <[KEY_VIDEO_SIZE := format_pair w h]> p.

End Parameters.

(** ** The control thread *)

Module ControlThread.

Inductive State :=
| STATE_STOPPED | STATE_PREVIEW_STILL | STATE_PREVIEW_VIDEO | STATE_RECORDING | STATE_CAPTURE.

Global Instance State_eq_dec : EqDecision State.
Proof. solve_decision. Defined.

Inductive MessageId :=
| MESSAGE_ID_EXIT
| MESSAGE_ID_START_PREVIEW
| MESSAGE_ID_STOP_PREVIEW
| MESSAGE_ID_START_RECORDING
| MESSAGE_ID_STOP_RECORDING
| MESSAGE_ID_RELEASE_PREVIEW_FRAME
| MESSAGE_ID_TAKE_PICTURE
| MESSAGE_ID_CANCEL_PICTURE
| MESSAGE_ID_AUTO_FOCUS
| MESSAGE_ID_CANCEL_AUTO_FOCUS
| MESSAGE_ID_RELEASE_RECORDING_FRAME
| MESSAGE_ID_PREVIEW_DONE
| MESSAGE_ID_PICTURE_DONE
| MESSAGE_ID_REDEYE_REMOVAL_DONE
| MESSAGE_ID_AUTO_FOCUS_DONE
| MESSAGE_ID_SET_PARAMETERS
| MESSAGE_ID_GET_PARAMETERS
| MESSAGE_ID_COMMAND.

Global Instance MessageId_eq_dec : EqDecision MessageId.
Proof. solve_decision. Defined.

(** The integer value of a message id.  The enumeration is declared in the
    header of the control thread; the values below number the ids in the
    order of the dispatch of [waitForAndExecuteMessage], and
    [MESSAGE_ID_MAX] follows the last one. *)
Definition MessageId_value (id : MessageId) : Z :=
  match id with
  | MESSAGE_ID_EXIT => 0
  | MESSAGE_ID_START_PREVIEW => 1
  | MESSAGE_ID_STOP_PREVIEW => 2
  | MESSAGE_ID_START_RECORDING => 3
  | MESSAGE_ID_STOP_RECORDING => 4
  | MESSAGE_ID_RELEASE_PREVIEW_FRAME => 5
  | MESSAGE_ID_TAKE_PICTURE => 6
  | MESSAGE_ID_CANCEL_PICTURE => 7
  | MESSAGE_ID_AUTO_FOCUS => 8
  | MESSAGE_ID_CANCEL_AUTO_FOCUS => 9
  | MESSAGE_ID_RELEASE_RECORDING_FRAME => 10
  | MESSAGE_ID_PREVIEW_DONE => 11
  | MESSAGE_ID_PICTURE_DONE => 12
  | MESSAGE_ID_REDEYE_REMOVAL_DONE => 13
  | MESSAGE_ID_AUTO_FOCUS_DONE => 14
  | MESSAGE_ID_SET_PARAMETERS => 15
  | MESSAGE_ID_GET_PARAMETERS => 16
  | MESSAGE_ID_COMMAND => 17
  end.

Definition MESSAGE_ID_MAX : Z := 18.

(** A message: its id together with the member of the data union that the
    sender fills in for that id. *)
Inductive Message :=
| MsgExit
| MsgStartPreview
| MsgStopPreview
| MsgStartRecording
| MsgStopRecording
| MsgReleasePreviewFrame (buff : CameraDriver.CameraBuffer)
| MsgTakePicture
| MsgCancelPicture
| MsgAutoFocus
| MsgCancelAutoFocus
| MsgReleaseRecordingFrame (buff : Z)
| MsgPreviewDone (buff : CameraDriver.CameraBuffer)
| MsgPictureDone (snapshotBuf postviewBuf : CameraDriver.CameraBuffer)
| MsgRedEyeRemovalDone (snapshotBuf postviewBuf : CameraDriver.CameraBuffer)
| MsgAutoFocusDone
| MsgSetParameters (params : string)
| MsgGetParameters (params : bool)
| MsgCommand (cmd_id arg1 arg2 : Z).

Definition Message_id (msg : Message) : MessageId :=
  match msg with
  | MsgExit => MESSAGE_ID_EXIT
  | MsgStartPreview => MESSAGE_ID_START_PREVIEW
  | MsgStopPreview => MESSAGE_ID_STOP_PREVIEW
  | MsgStartRecording => MESSAGE_ID_START_RECORDING
  | MsgStopRecording => MESSAGE_ID_STOP_RECORDING
  | MsgReleasePreviewFrame _ => MESSAGE_ID_RELEASE_PREVIEW_FRAME
  | MsgTakePicture => MESSAGE_ID_TAKE_PICTURE
  | MsgCancelPicture => MESSAGE_ID_CANCEL_PICTURE
  | MsgAutoFocus => MESSAGE_ID_AUTO_FOCUS
  | MsgCancelAutoFocus => MESSAGE_ID_CANCEL_AUTO_FOCUS
  | MsgReleaseRecordingFrame _ => MESSAGE_ID_RELEASE_RECORDING_FRAME
  | MsgPreviewDone _ => MESSAGE_ID_PREVIEW_DONE
  | MsgPictureDone _ _ => MESSAGE_ID_PICTURE_DONE
  | MsgRedEyeRemovalDone _ _ => MESSAGE_ID_REDEYE_REMOVAL_DONE
  | MsgAutoFocusDone => MESSAGE_ID_AUTO_FOCUS_DONE
  | MsgSetParameters _ => MESSAGE_ID_SET_PARAMETERS
  | MsgGetParameters _ => MESSAGE_ID_GET_PARAMETERS
  | MsgCommand _ _ _ => MESSAGE_ID_COMMAND
  end.

Definition msg_value (msg : Message) : Z := MessageId_value (Message_id msg).

Record CoupledBuffer := mkCoupled {
  previewBuff : CameraDriver.CameraBuffer;
  recordingBuff : CameraDriver.CameraBuffer;
  previewBuffReturned : bool;
  recordingBuffReturned : bool;
  videoSnapshotBuff : bool;
  videoSnapshotBuffReturned : bool
}.

(** An entry after [memset(mCoupledBuffers, 0, ...)]. *)
Definition zero_CoupledBuffer : CoupledBuffer :=
  mkCoupled (CameraDriver.mkCameraBuffer 0 0 None) (CameraDriver.mkCameraBuffer 0 0 None)
            false false false false.

(** The calls the control thread makes into the other threads, the
    callbacks and the face detector, and the settings it asks the driver to
    apply. *)
Inductive Call :=
| PreviewThread_setPreviewConfig (w h format : Z)
| PreviewThread_flushBuffers
| PreviewThread_preview (buff : CameraDriver.CameraBuffer)
| PictureThread_flushBuffers
| PictureThread_setConfig (w h format : Z)
| PictureThread_encode (snapshotBuf : CameraDriver.CameraBuffer)
                       (postviewBuf : option CameraDriver.CameraBuffer)
| VideoThread_flushBuffers
| VideoThread_video (buff : CameraDriver.CameraBuffer) (timestamp : option Z)
| Callbacks_enableMsgType (msgType : Z)
| Callbacks_disableMsgType (msgType : Z)
| Callbacks_shutterSound
| FaceDetector_start
| FaceDetector_stop (wait : bool)
| FaceDetector_sendFrame (buff : CameraDriver.CameraBuffer) (w h : Z)
| Driver_getSnapshotPixelFormat
| Driver_setZoom (zoom : Z)
| Driver_setEffect (effect : CameraDriver.Effect)
| Driver_setFlashMode (flashMode : CameraDriver.FlashMode)
| Driver_setSceneMode (sceneMode : CameraDriver.SceneMode)
| Driver_setFocusMode (focusMode : CameraDriver.FocusMode) (windows : list CameraWindow)
| Driver_setWhiteBalanceMode (wbMode : CameraDriver.WhiteBalanceMode)
| Driver_setAeLock (lock : bool)
| Driver_setAwbLock (lock : bool)
| Driver_setMeteringAreas (windows : list CameraWindow).

(** What these calls return, as a function of the calls made so far (newest
    first) and of the call being made. *)
Class Collaborators := {
  call_ret : list Call -> Call -> Z
}.

Definition CAMERA_MSG_PREVIEW_METADATA : Z := 1024.
Definition CAMERA_CMD_START_FACE_DETECTION : Z := 6.
Definition CAMERA_CMD_STOP_FACE_DETECTION : Z := 7.

(** [mCoupledBuffers] is [None] for the null pointer, [m_pFaceDetector] is
    [true] when the pointer is not null.  [calls] is the list of calls made
    so far, newest first, and [getParameters_out] the caller's variable that
    the handler of a get-parameters message writes through the pointer it
    received. *)
Record t := mk {
  mDriver : CameraDriver.t;
  mMessageQueue : MessageQueue.t Message;
  mState : State;
  mThreadRunning : bool;
  mCoupledBuffers : option (list CoupledBuffer);
  mNumBuffers : Z;
  m_pFaceDetector : bool;
  mFaceDetectionActive : bool;
  mLastRecordingBuffIndex : Z;
  mParameters : CameraParameters;
  calls : list Call;
  getParameters_out : option string
}.

Definition set_mDriver (ct : t) (d : CameraDriver.t) : t :=
  mk d (mMessageQueue ct) (mState ct) (mThreadRunning ct) (mCoupledBuffers ct) (mNumBuffers ct)
     (m_pFaceDetector ct) (mFaceDetectionActive ct) (mLastRecordingBuffIndex ct) (mParameters ct)
     (calls ct) (getParameters_out ct).
Definition set_mMessageQueue (ct : t) (q : MessageQueue.t Message) : t :=
  mk (mDriver ct) q (mState ct) (mThreadRunning ct) (mCoupledBuffers ct) (mNumBuffers ct)
     (m_pFaceDetector ct) (mFaceDetectionActive ct) (mLastRecordingBuffIndex ct) (mParameters ct)
     (calls ct) (getParameters_out ct).
Definition set_mState (ct : t) (s : State) : t :=
  mk (mDriver ct) (mMessageQueue ct) s (mThreadRunning ct) (mCoupledBuffers ct) (mNumBuffers ct)
     (m_pFaceDetector ct) (mFaceDetectionActive ct) (mLastRecordingBuffIndex ct) (mParameters ct)
     (calls ct) (getParameters_out ct).
Definition set_mThreadRunning (ct : t) (b : bool) : t :=
  mk (mDriver ct) (mMessageQueue ct) (mState ct) b (mCoupledBuffers ct) (mNumBuffers ct)
     (m_pFaceDetector ct) (mFaceDetectionActive ct) (mLastRecordingBuffIndex ct) (mParameters ct)
     (calls ct) (getParameters_out ct).
Definition set_mCoupledBuffers (ct : t) (c : option (list CoupledBuffer)) : t :=
  mk (mDriver ct) (mMessageQueue ct) (mState ct) (mThreadRunning ct) c (mNumBuffers ct)
     (m_pFaceDetector ct) (mFaceDetectionActive ct) (mLastRecordingBuffIndex ct) (mParameters ct)
     (calls ct) (getParameters_out ct).
Definition set_mNumBuffers (ct : t) (n : Z) : t :=
  mk (mDriver ct) (mMessageQueue ct) (mState ct) (mThreadRunning ct) (mCoupledBuffers ct) n
     (m_pFaceDetector ct) (mFaceDetectionActive ct) (mLastRecordingBuffIndex ct) (mParameters ct)
     (calls ct) (getParameters_out ct).
Definition set_mFaceDetectionActive (ct : t) (b : bool) : t :=
  mk (mDriver ct) (mMessageQueue ct) (mState ct) (mThreadRunning ct) (mCoupledBuffers ct) (mNumBuffers ct)
     (m_pFaceDetector ct) b (mLastRecordingBuffIndex ct) (mParameters ct)
     (calls ct) (getParameters_out ct).
Definition set_mLastRecordingBuffIndex (ct : t) (i : Z) : t :=
  mk (mDriver ct) (mMessageQueue ct) (mState ct) (mThreadRunning ct) (mCoupledBuffers ct) (mNumBuffers ct)
     (m_pFaceDetector ct) (mFaceDetectionActive ct) i (mParameters ct)
     (calls ct) (getParameters_out ct).
Definition set_mParameters (ct : t) (p : CameraParameters) : t :=
  mk (mDriver ct) (mMessageQueue ct) (mState ct) (mThreadRunning ct) (mCoupledBuffers ct) (mNumBuffers ct)
     (m_pFaceDetector ct) (mFaceDetectionActive ct) (mLastRecordingBuffIndex ct) p
     (calls ct) (getParameters_out ct).
Definition set_getParameters_out (ct : t) (o : option string) : t :=
  mk (mDriver ct) (mMessageQueue ct) (mState ct) (mThreadRunning ct) (mCoupledBuffers ct) (mNumBuffers ct)
     (m_pFaceDetector ct) (mFaceDetectionActive ct) (mLastRecordingBuffIndex ct) (mParameters ct)
     (calls ct) o.

Section Thread.
Context `{!Device, !Host, !Collaborators}.

(** Make a call into a collaborator: its return value and the thread with
    the call recorded. *)
Definition invoke (c : Call) (ct : t) : Z * t :=
  (call_ret (calls ct) c,
   mk (mDriver ct) (mMessageQueue ct) (mState ct) (mThreadRunning ct) (mCoupledBuffers ct) (mNumBuffers ct)
      (m_pFaceDetector ct) (mFaceDetectionActive ct) (mLastRecordingBuffIndex ct) (mParameters ct)
      (c :: calls ct) (getParameters_out ct)).

(** [mMessageQueue.send(&msg, replyId)] up to the point where the sender
    either returns or starts waiting; [replyId] is [None] for the default
    argument, [-1]. *)
Definition send (msg : Message) (replyId : option MessageId) (ct : t)
  : option (MessageQueue.posted * t) :=
  '(r, q) ← MessageQueue.send_post msg (from_option MessageId_value (-1) replyId) (mMessageQueue ct);
  Some (r, set_mMessageQueue ct q).

Definition reply (replyId : MessageId) (status : status_t) (ct : t) : option t :=
  q ← MessageQueue.reply (MessageId_value replyId) status (mMessageQueue ct);
  Some (set_mMessageQueue ct q).

(** *** The caller-facing functions *)

Definition startPreview (ct : t) : option (MessageQueue.posted * t) :=
  send MsgStartPreview (Some MESSAGE_ID_START_PREVIEW) ct.

Definition stopPreview (ct : t) : option (MessageQueue.posted * t) :=
  if decide (mState ct = STATE_STOPPED) then Some (MessageQueue.Returns NO_ERROR, ct)
  else send MsgStopPreview (Some MESSAGE_ID_STOP_PREVIEW) ct.

Definition startRecording (ct : t) : option (MessageQueue.posted * t) :=
  send MsgStartRecording (Some MESSAGE_ID_START_RECORDING) ct.

Definition stopRecording (ct : t) : option (MessageQueue.posted * t) :=
  send MsgStopRecording (Some MESSAGE_ID_STOP_RECORDING) ct.



Definition autoFocus (ct : t) : option (MessageQueue.posted * t) := send MsgAutoFocus None ct.
Definition cancelAutoFocus (ct : t) : option (MessageQueue.posted * t) := send MsgCancelAutoFocus None ct.



Definition releasePreviewFrame (buff : CameraDriver.CameraBuffer) (ct : t)
  : option (MessageQueue.posted * t) :=
  send (MsgReleasePreviewFrame buff) None ct.

Definition pictureDone (snapshotBuf postviewBuf : CameraDriver.CameraBuffer) (ct : t)
  : option (MessageQueue.posted * t) :=
  send (MsgPictureDone snapshotBuf postviewBuf) None ct.





(** *** State changes shared by the handlers *)

Definition handleMessageExit (ct : t) : option (status_t * t) :=
  Some (NO_ERROR, set_mThreadRunning ct false).

Definition isParameterSet (param : string) (ct : t) : bool :=
  match get (mParameters ct) param with
  | Some strParam => strncmp_eq strParam TRUE (String.length TRUE)
  | None => false
  end.

Definition enableMsgType (msgType : Z) (ct : t) : t := (invoke (Callbacks_enableMsgType msgType) ct).2.
Definition disableMsgType (msgType : Z) (ct : t) : t := (invoke (Callbacks_disableMsgType msgType) ct).2.

Definition startFaceDetection (ct : t) : status_t * t :=
  if decide (mState ct = STATE_STOPPED ∨ mFaceDetectionActive ct = true) then (INVALID_OPERATION, ct)
  else if m_pFaceDetector ct then
    let ct1 := (invoke FaceDetector_start ct).2 in
    let ct2 := set_mFaceDetectionActive ct1 true in
    (NO_ERROR, enableMsgType CAMERA_MSG_PREVIEW_METADATA ct2)
  else (INVALID_OPERATION, ct).

(** [wait] defaults to [false] where a caller leaves it out. *)
Definition stopFaceDetection (wait : bool) (ct : t) : status_t * t :=
  if negb (mFaceDetectionActive ct) then (NO_ERROR, ct)
  else
    let ct1 := set_mFaceDetectionActive ct false in
    let ct2 := disableMsgType CAMERA_MSG_PREVIEW_METADATA ct1 in
    if m_pFaceDetector ct2 then (NO_ERROR, (invoke (FaceDetector_stop wait) ct2).2)
    else (INVALID_OPERATION, ct2).

(** [mDriver->setPreviewFrameFormat] and [mDriver->setVideoFrameFormat] are
    the setters that the driver's source names [setPreviewFrameSize] and
    [setVideoFrameSize]. *)
Definition startPreviewCore (videoMode : bool) (ct : t) : option (status_t * t) :=
  if decide (mState ct ≠ STATE_STOPPED) then Some (INVALID_OPERATION, ct)
  else
    let state := if videoMode then STATE_PREVIEW_VIDEO else STATE_PREVIEW_STILL in
    let mode := if videoMode then MODE_VIDEO else MODE_PREVIEW in
    let format := V4L2Format (get (mParameters ct) KEY_PREVIEW_FORMAT) in
    if decide (format = -1) then Some (BAD_VALUE, ct)
    else
      let '(w, h) := getPreviewSize (mParameters ct) in
      let ct1 := set_mDriver ct (CameraDriver.setPreviewFrameSize w h (mDriver ct)).2 in
      let ct2 := (invoke (PreviewThread_setPreviewConfig w h format) ct1).2 in
      let ct3 :=
        if videoMode then
          let '(vw, vh) := getVideoSize (mParameters ct2) in
          set_mDriver ct2 (CameraDriver.setVideoFrameSize vw vh (mDriver ct2)).2
        else ct2 in
      let n := CameraDriver.getNumBuffers (mDriver ct3) in
      if decide (n < 0) then None
      else
        let ct4 := set_mCoupledBuffers (set_mNumBuffers ct3 n)
                     (Some (replicate (Z.to_nat n) zero_CoupledBuffer)) in
        '(status, d) ← CameraDriver.start mode (mDriver ct4);
        let ct5 := set_mDriver ct4 d in
        Some (status, if decide (status = NO_ERROR) then set_mState ct5 state else ct5).

Definition stopPreviewCore (ct : t) : option (status_t * t) :=
  let ct1 := (invoke PreviewThread_flushBuffers ct).2 in
  '(status, d) ← CameraDriver.stop (mDriver ct1);
  let ct2 := set_mDriver ct1 d in
  let ct3 := if decide (status = NO_ERROR) then set_mState ct2 STATE_STOPPED else ct2 in
  Some (status, set_mCoupledBuffers ct3 None).

Definition stopCapture (ct : t) : option (status_t * t) :=
  if decide (mState ct ≠ STATE_CAPTURE) then Some (INVALID_OPERATION, ct)
  else
    let '(status, ct1) := invoke PictureThread_flushBuffers ct in
    if decide (status ≠ NO_ERROR) then Some (status, ct1)
    else
      '(status2, d) ← CameraDriver.stop (mDriver ct1);
      let ct2 := set_mDriver ct1 d in
      if decide (status2 ≠ NO_ERROR) then Some (status2, ct2)
      else Some (status2, set_mState ct2 STATE_STOPPED).

Definition restartPreview (videoMode : bool) (ct : t) : option (status_t * t) :=
  let faceActive := mFaceDetectionActive ct in
  let ct1 := (stopFaceDetection true ct).2 in
  '(status, ct2) ← stopPreviewCore ct1;
  '(status2, ct3) ← (if decide (status = NO_ERROR) then startPreviewCore videoMode ct2
                     else Some (status, ct2));
  Some (status2, if faceActive then (startFaceDetection ct3).2 else ct3).

(** *** The handlers of the session commands *)

Definition handleMessageStartPreview (ct : t) : option (status_t * t) :=
  '(stopped, ct1) ←
    (if decide (mState ct = STATE_CAPTURE) then stopCapture ct else Some (NO_ERROR, ct));
  if decide (stopped ≠ NO_ERROR) then Some (stopped, ct1)
  else
    '(status, ct2) ←
      (if decide (mState ct1 = STATE_STOPPED) then
         let ct1' := (stopFaceDetection false ct1).2 in
         startPreviewCore (isParameterSet KEY_RECORDING_HINT ct1') ct1'
       else Some (INVALID_OPERATION, ct1));
    ct3 ← reply MESSAGE_ID_START_PREVIEW status ct2;
    Some (status, ct3).

Definition handleMessageStopPreview (ct : t) : option (status_t * t) :=
  '(status, ct1) ←
    (if decide (mState ct ≠ STATE_CAPTURE) then
       let ct0 := (stopFaceDetection true ct).2 in
       if decide (mState ct0 ≠ STATE_STOPPED) then stopPreviewCore ct0
       else Some (INVALID_OPERATION, ct0)
     else Some (NO_ERROR, ct));
  ct2 ← reply MESSAGE_ID_STOP_PREVIEW status ct1;
  Some (status, ct2).

Definition handleMessageStartRecording (ct : t) : option (status_t * t) :=
  '(status, ct1) ←
    (if decide (mState ct = STATE_PREVIEW_VIDEO) then Some (NO_ERROR, set_mState ct STATE_RECORDING)
     else if decide (mState ct = STATE_PREVIEW_STILL) then
       '(status, d) ← CameraDriver.stop (mDriver ct);
       if decide (status = NO_ERROR) then
         '(status2, d2) ← CameraDriver.start MODE_VIDEO d;
         let ct1 := set_mDriver ct d2 in
         Some (status2, if decide (status2 = NO_ERROR) then set_mState ct1 STATE_RECORDING else ct1)
       else Some (status, set_mDriver ct d)
     else Some (INVALID_OPERATION, ct));
  ct2 ← reply MESSAGE_ID_START_RECORDING status ct1;
  Some (status, ct2).

Definition handleMessageStopRecording (ct : t) : option (status_t * t) :=
  let '(status, ct1) :=
    if decide (mState ct = STATE_RECORDING) then
      let '(status, ct1) := invoke VideoThread_flushBuffers ct in
      (status, set_mState ct1 STATE_PREVIEW_VIDEO)
    else (INVALID_OPERATION, ct) in
  ct2 ← reply MESSAGE_ID_STOP_RECORDING status ct1;
  Some (status, ct2).

(** *** Coupled preview and recording buffers *)

(** [mCoupledBuffers[i]]. *)
Definition coupled_get (i : Z) (ct : t) : option CoupledBuffer :=
  a ← mCoupledBuffers ct; array_get a i.

Definition coupled_set (i : Z) (c : CoupledBuffer) (ct : t) : option t :=
  a ← mCoupledBuffers ct;
  a1 ← array_set a i c;
  Some (set_mCoupledBuffers ct (Some a1)).

Definition queueCoupledBuffers (coupledId : Z) (ct : t) : option (status_t * t) :=
  buff ← coupled_get coupledId ct;
  if negb (previewBuffReturned buff) || negb (recordingBuffReturned buff)
     || (videoSnapshotBuff buff && negb (videoSnapshotBuffReturned buff))
  then Some (NO_ERROR, ct)
  else
    '(status, d) ← CameraDriver.putRecordingFrame (recordingBuff buff) (mDriver ct);
    if decide (status = NO_ERROR) then
      '(status2, d2) ← CameraDriver.putPreviewFrame (previewBuff buff) d;
      Some (status2, set_mDriver ct d2)
    else Some (status, set_mDriver ct d).

(** The search loop of [findRecordingBuffer], from index [i]. *)
Fixpoint findRecordingBuffer_loop (fuel : nat) (i : Z) (findMe : Z) (ct : t)
  : option (option CameraDriver.CameraBuffer) :=
  match fuel with
  | O => Some None
  | S fuel' =>
      if decide (i < mNumBuffers ct) then
        c ← coupled_get i ct;
        if decide (CameraDriver.buff (recordingBuff c) = Some findMe) then Some (Some (recordingBuff c))
        else findRecordingBuffer_loop fuel' (i + 1) findMe ct
      else Some None
  end.

Definition findRecordingBuffer (findMe : Z) (ct : t) : option (option CameraDriver.CameraBuffer) :=
  match mCoupledBuffers ct with
  | Some _ => findRecordingBuffer_loop (Z.to_nat (mNumBuffers ct)) 0 findMe ct
  | None => Some None
  end.

Definition handleMessageReleaseRecordingFrame (buff : Z) (ct : t) : option (status_t * t) :=
  if decide (mState ct = STATE_RECORDING) then
    found ← findRecordingBuffer buff ct;
    match found with
    | None => Some (DEAD_OBJECT, ct)
    | Some recBuff =>
        let curBuff := CameraDriver.mID recBuff in
        if decide (is_Some (mCoupledBuffers ct) ∧ curBuff < mNumBuffers ct) then
          c ← coupled_get curBuff ct;
          ct1 ← coupled_set curBuff
                  (mkCoupled (previewBuff c) (recordingBuff c) (previewBuffReturned c) true
                             (videoSnapshotBuff c) (videoSnapshotBuffReturned c)) ct;
          queueCoupledBuffers curBuff ct1
        else Some (NO_ERROR, ct)
    end
  else Some (NO_ERROR, ct).

Definition handleMessageReleasePreviewFrame (buff : CameraDriver.CameraBuffer) (ct : t)
  : option (status_t * t) :=
  if decide (mState ct = STATE_PREVIEW_STILL) then
    '(status, d) ← CameraDriver.putPreviewFrame buff (mDriver ct);
    Some (status, set_mDriver ct d)
  else if decide (mState ct = STATE_PREVIEW_VIDEO ∨ mState ct = STATE_RECORDING) then
    let curBuff := CameraDriver.mID buff in
    if decide (is_Some (mCoupledBuffers ct) ∧ curBuff < mNumBuffers ct) then
      c ← coupled_get curBuff ct;
      ct1 ← coupled_set curBuff
              (mkCoupled (previewBuff c) (recordingBuff c) true (recordingBuffReturned c)
                         (videoSnapshotBuff c) (videoSnapshotBuffReturned c)) ct;
      queueCoupledBuffers curBuff ct1
    else Some (NO_ERROR, ct)
  else Some (NO_ERROR, ct).

Definition handleMessagePictureDone (snapshotBuf postviewBuf : CameraDriver.CameraBuffer) (ct : t)
  : option (status_t * t) :=
  if decide (mState ct = STATE_RECORDING) then
    let curBuff := CameraDriver.mID snapshotBuf in
    if decide (is_Some (mCoupledBuffers ct) ∧ curBuff < mNumBuffers ct) then
      c ← coupled_get curBuff ct;
      ct1 ← coupled_set curBuff
              (mkCoupled (previewBuff c) (recordingBuff c) (previewBuffReturned c)
                         (recordingBuffReturned c) (videoSnapshotBuff c) true) ct;
      '(status, ct2) ← queueCoupledBuffers curBuff ct1;
      c2 ← coupled_get curBuff ct2;
      ct3 ← coupled_set curBuff
              (mkCoupled (previewBuff c2) (recordingBuff c2) (previewBuffReturned c2)
                         (recordingBuffReturned c2) false false) ct2;
      Some (status, ct3)
    else Some (NO_ERROR, ct)
  else if decide (mState ct = STATE_CAPTURE) then
    '(status, d) ← CameraDriver.putSnapshot snapshotBuf (mDriver ct);
    let status2 := CameraDriver.putThumbnail postviewBuf d in
    let ct1 := set_mDriver ct d in
    if decide (status = DEAD_OBJECT ∨ status2 = DEAD_OBJECT) then Some (status, ct1)
    else if decide (status ≠ NO_ERROR ∨ status2 ≠ NO_ERROR) then
      Some (if decide (status ≠ NO_ERROR) then status else status2, ct1)
    else Some (status, ct1)
  else Some (NO_ERROR, ct).

(** *** Frames from the driver *)

Definition dequeuePreview (ct : t) : option (status_t * t) :=
  '(status, got, d) ← CameraDriver.copy_out (CameraDriver.getPreviewFrame (mDriver ct));
  let ct1 := set_mDriver ct d in
  match got with
  | Some (buff, _) =>
      ct2 ← (if decide (mState ct1 = STATE_PREVIEW_VIDEO ∨ mState ct1 = STATE_RECORDING) then
               c ← coupled_get (CameraDriver.mID buff) ct1;
               coupled_set (CameraDriver.mID buff)
                 (mkCoupled buff (recordingBuff c) false (recordingBuffReturned c)
                            (videoSnapshotBuff c) (videoSnapshotBuffReturned c)) ct1
             else Some ct1);
      Some (invoke (PreviewThread_preview buff) ct2)
  | None => Some (status, ct1)
  end.

Definition dequeueRecording (ct : t) : option (status_t * t) :=
  '(status, got, d) ← CameraDriver.copy_out (CameraDriver.getRecordingFrame (mDriver ct));
  let ct1 := set_mDriver ct d in
  match got with
  | Some (buff, timestamp) =>
      c ← coupled_get (CameraDriver.mID buff) ct1;
      ct2 ← coupled_set (CameraDriver.mID buff)
              (mkCoupled (previewBuff c) buff (previewBuffReturned c) false
                         (videoSnapshotBuff c) (videoSnapshotBuffReturned c)) ct1;
      let ct3 := set_mLastRecordingBuffIndex ct2 (CameraDriver.mID buff) in
      if decide (mState ct3 = STATE_RECORDING) then
        Some (status, (invoke (VideoThread_video buff timestamp) ct3).2)
      else
        ct4 ← coupled_set (CameraDriver.mID buff)
                (mkCoupled (previewBuff c) buff (previewBuffReturned c) true
                           (videoSnapshotBuff c) (videoSnapshotBuffReturned c)) ct3;
        Some (status, ct4)
  | None => Some (status, ct1)
  end.

(** *** Pictures, focus and face detection *)

Definition KEY_GPS_LATITUDE := "gps-latitude"%string.
Definition KEY_GPS_LONGITUDE := "gps-longitude"%string.
Definition KEY_GPS_ALTITUDE := "gps-altitude"%string.
Definition KEY_GPS_TIMESTAMP := "gps-timestamp"%string.

(** [gatherExifInfo] fills the EXIF attributes of the picture thread's
    configuration; the driver getters it calls all return [NO_ERROR].  It
    passes the four GPS values to [atof] and [atol] without a null check. *)
Definition gatherExifInfo (params : CameraParameters) : option status_t :=
  _ ← get params KEY_GPS_LATITUDE;
  _ ← get params KEY_GPS_LONGITUDE;
  _ ← get params KEY_GPS_ALTITUDE;
  _ ← get params KEY_GPS_TIMESTAMP;
  Some NO_ERROR.

Definition handleMessageTakePicture (ct : t) : option (status_t * t) :=
  let origState := mState ct in
  if decide (origState ≠ STATE_PREVIEW_STILL ∧ origState ≠ STATE_RECORDING) then
    Some (INVALID_OPERATION, ct)
  else
    let ct1 := (stopFaceDetection false ct).2 in
    '(stopped, ct2) ←
      (if decide (origState = STATE_PREVIEW_STILL) then stopPreviewCore ct1 else Some (NO_ERROR, ct1));
    if decide (stopped ≠ NO_ERROR) then Some (stopped, ct2)
    else
      let ct3 := if decide (origState = STATE_PREVIEW_STILL) then set_mState ct2 STATE_CAPTURE else ct2 in
      let '(width, height) := getPictureSize (mParameters ct3) in
      let '(format, ct4) := invoke Driver_getSnapshotPixelFormat ct3 in
      let '(width, height) :=
        if decide (origState = STATE_RECORDING) then CameraDriver.getVideoSize (mDriver ct4)
        else (width, height) in
      _ ← gatherExifInfo (if decide (origState = STATE_RECORDING)
                          then <[KEY_PICTURE_SIZE := format_pair width height]> (mParameters ct4)
                          else mParameters ct4);
      let ct5 := (invoke (PictureThread_setConfig width height format) ct4).2 in
      if decide (origState = STATE_PREVIEW_STILL) then
        (* setSnapshotFrameFormat writes the snapshot part of mConfig only *)
        '(status, d) ← CameraDriver.start MODE_CAPTURE (mDriver ct5);
        let ct6 := set_mDriver ct5 d in
        if decide (status ≠ NO_ERROR) then Some (status, ct6)
        else
          '(status2, got, d2) ← CameraDriver.copy_out (CameraDriver.getSnapshot (mDriver ct6));
          let ct7 := set_mDriver ct6 d2 in
          match got with
          | None => Some (status2, ct7)
          | Some (snapshotBuffer, _) =>
              let ct8 := (invoke Callbacks_shutterSound ct7).2 in
              Some (invoke (PictureThread_encode snapshotBuffer
                              (Some (CameraDriver.mkCameraBuffer 0 0 None))) ct8)
          end
      else
        c ← coupled_get (mLastRecordingBuffIndex ct5) ct5;
        ct6 ← coupled_set (mLastRecordingBuffIndex ct5)
                (mkCoupled (previewBuff c) (recordingBuff c) (previewBuffReturned c)
                           (recordingBuffReturned c) true (videoSnapshotBuffReturned c)) ct5;
        Some (invoke (PictureThread_encode (recordingBuff c) None) ct6).

Definition handleMessageCancelPicture (ct : t) : option (status_t * t) := Some (NO_ERROR, ct).

Definition handleMessageAutoFocus (ct : t) : option (status_t * t) :=
  let ct1 := if mFaceDetectionActive ct then disableMsgType CAMERA_MSG_PREVIEW_METADATA ct else ct in
  Some (CameraDriver.autoFocus, ct1).

Definition handleMessageCancelAutoFocus (ct : t) : option (status_t * t) :=
  let status := CameraDriver.cancelAutoFocus in
  let ct1 := if mFaceDetectionActive ct then enableMsgType CAMERA_MSG_PREVIEW_METADATA ct else ct in
  Some (status, ct1).

Definition handleMessagePreviewDone (buff : CameraDriver.CameraBuffer) (ct : t) : option (status_t * t) :=
  valid ← CameraDriver.isBufferValid buff (mDriver ct);
  if negb valid then Some (DEAD_OBJECT, ct)
  else if m_pFaceDetector ct && mFaceDetectionActive ct then
    let '(width, height) := getPreviewSize (mParameters ct) in
    let '(sent, ct1) := invoke (FaceDetector_sendFrame buff width height) ct in
    if decide (sent < 0) then
      '(_, ct2) ← releasePreviewFrame buff ct1; Some (NO_ERROR, ct2)
    else Some (NO_ERROR, ct1)
  else
    '(_, ct1) ← releasePreviewFrame buff ct; Some (NO_ERROR, ct1).

Definition handleMessageRedEyeRemovalDone (snapshotBuf postviewBuf : CameraDriver.CameraBuffer) (ct : t)
  : option (status_t * t) :=
  Some (invoke (PictureThread_encode snapshotBuf (Some postviewBuf)) ct).

Definition handleMessageAutoFocusDone (ct : t) : option (status_t * t) :=
  Some (NO_ERROR,
        if mFaceDetectionActive ct then enableMsgType CAMERA_MSG_PREVIEW_METADATA ct else ct).

Definition handleMessageCommand (cmd_id : Z) (ct : t) : option (status_t * t) :=
  if decide (cmd_id = CAMERA_CMD_START_FACE_DETECTION) then Some (startFaceDetection ct)
  else if decide (cmd_id = CAMERA_CMD_STOP_FACE_DETECTION) then Some (stopFaceDetection false ct)
  else Some (BAD_VALUE, ct).

(** *** Parameters *)

Definition verifyCameraWindow (win : CameraWindow) : bool :=
  if decide (x_right win <= x_left win ∨ y_bottom win <= y_top win) then false
  else if decide (y_top win < -1000 ∨ 1000 < y_top win) then false
  else if decide (y_bottom win < -1000 ∨ 1000 < y_bottom win) then false
  else if decide (x_right win < -1000 ∨ 1000 < x_right win) then false
  else if decide (x_left win < -1000 ∨ 1000 < x_left win) then false
  else if decide (weight win < 1 ∨ 1000 < weight win) then false
  else true.

(** The test that lets the window 0,0,0,0,0 of the camera application pass. *)
Definition all_zero (win : CameraWindow) : bool :=
  bool_decide (x_left win = 0 ∧ y_top win = 0 ∧ x_right win = 0 ∧ y_bottom win = 0 ∧ weight win = 0).

(** The window loop of [validateParameters] together with the test that
    follows it.  [argTail] is [None] for the null pointer; every iteration
    moves it to a proper suffix, so [fuel], the length of the string at the
    start plus one, is never used up. *)
Fixpoint validate_windows (fuel : nat) (argTail : option string) (winCount maxWindows : Z)
    (win : CameraWindow) : option status_t :=
  match argTail with
  | None => Some NO_ERROR
  | Some s =>
      if decide (winCount < maxWindows) then
        match fuel with
        | O => None
        | S fuel' =>
            let '(i, win1) := sscanf_window s win in
            let next := strchr_next s paren in
            if all_zero win1 then validate_windows fuel' next winCount maxWindows win1
            else if decide (i ≠ 5) then Some BAD_VALUE
            else if negb (verifyCameraWindow win1) then Some BAD_VALUE
            else validate_windows fuel' next winCount maxWindows win1
        end
      else Some BAD_VALUE
  end.

Definition validate_areas (params : CameraParameters) (keyMax keyAreas : string) : option status_t :=
  let maxWindows := getInt params keyMax in
  if decide (0 < maxWindows) then
    match get params keyAreas with
    | Some p =>
        if decide (0 < String.length p)%nat then
          validate_windows (S (String.length p)) (Some p) 0 maxWindows indeterminate_window
        else Some NO_ERROR
    | None => Some NO_ERROR
    end
  else Some NO_ERROR.

Definition validateParameters (params : CameraParameters) : option status_t :=
  let '(previewWidth, previewHeight) := getPreviewSize params in
  if decide (previewWidth <= 0 ∨ previewHeight <= 0) then Some BAD_VALUE
  else
    let '(minFPS, maxFPS) := getPreviewFpsRange params in
    if decide (maxFPS < minFPS) then Some BAD_VALUE
    else
      (* the video and picture tests read the preview size again *)
      if decide (getInt params KEY_MAX_ZOOM < getInt params KEY_ZOOM) then Some BAD_VALUE
      else
        flashMode ← get params KEY_FLASH_MODE;
        flashModes ← get params KEY_SUPPORTED_FLASH_MODES;
        if negb (strstr flashModes flashMode) then Some BAD_VALUE
        else
          focusMode ← get params KEY_FOCUS_MODE;
          focusModes ← get params KEY_SUPPORTED_FOCUS_MODES;
          if negb (strstr focusModes focusMode) then Some BAD_VALUE
          else
            focus ← validate_areas params KEY_MAX_NUM_FOCUS_AREAS KEY_FOCUS_AREAS;
            if decide (focus ≠ NO_ERROR) then Some focus
            else validate_areas params KEY_MAX_NUM_METERING_AREAS KEY_METERING_AREAS.

(** Record a setting that the control thread asks the driver to apply. *)
Definition ask (c : Call) (ct : t) : t :=
  mk (mDriver ct) (mMessageQueue ct) (mState ct) (mThreadRunning ct) (mCoupledBuffers ct) (mNumBuffers ct)
     (m_pFaceDetector ct) (mFaceDetectionActive ct) (mLastRecordingBuffIndex ct) (mParameters ct)
     (c :: calls ct) (getParameters_out ct).

(** [strncmp(newValue, constant, strlen(constant)) == 0]. *)
Definition starts_with (value constant : string) : bool :=
  strncmp_eq value constant (String.length constant).

(** The test at the head of most [processParam] functions: both values are
    present and differ within [MAX_PARAM_VALUE_LENGTH] characters. *)
Definition changed (oldParams newParams : CameraParameters) (key : string) : option string :=
  match get newParams key, get oldParams key with
  | Some newValue, Some oldValue =>
      if negb (strncmp_eq newValue oldValue MAX_PARAM_VALUE_LENGTH) then Some newValue else None
  | _, _ => None
  end.

Definition processParamAWBLock (oldParams newParams : CameraParameters) (ct : t) : status_t * t :=
  match changed oldParams newParams KEY_AUTO_WHITEBALANCE_LOCK with
  | Some newValue =>
      if starts_with newValue TRUE then (NO_ERROR, ask (Driver_setAwbLock true) ct)
      else if starts_with newValue FALSE then (NO_ERROR, ask (Driver_setAwbLock false) ct)
      else (INVALID_OPERATION, ct)
  | None => (NO_ERROR, ct)
  end.

Definition processParamAELock (oldParams newParams : CameraParameters) (ct : t) : status_t * t :=
  match changed oldParams newParams KEY_AUTO_EXPOSURE_LOCK with
  | Some newValue =>
      if starts_with newValue TRUE then (NO_ERROR, ask (Driver_setAeLock true) ct)
      else if starts_with newValue FALSE then (NO_ERROR, ask (Driver_setAeLock false) ct)
      else (INVALID_OPERATION, ct)
  | None => (NO_ERROR, ct)
  end.

Definition flash_of (newValue : string) : option CameraDriver.FlashMode :=
  if starts_with newValue "auto" then Some CameraDriver.FLASH_MODE_AUTO
  else if starts_with newValue "off" then Some CameraDriver.FLASH_MODE_OFF
  else if starts_with newValue "on" then Some CameraDriver.FLASH_MODE_ON
  else if starts_with newValue "torch" then Some CameraDriver.FLASH_MODE_TORCH
  else if strncmp_eq newValue "torch" (String.length "red-eye") then Some CameraDriver.FLASH_MODE_RED_EYE
  else None.

Definition processParamFlash (oldParams newParams : CameraParameters) (ct : t) : status_t * t :=
  match changed oldParams newParams KEY_FLASH_MODE with
  | Some newValue =>
      match flash_of newValue with
      | Some flashMode => (NO_ERROR, ask (Driver_setFlashMode flashMode) ct)
      | None => (BAD_VALUE, ct)
      end
  | None => (NO_ERROR, ct)
  end.

Definition effect_of (newEffect : string) : option CameraDriver.Effect :=
  if starts_with newEffect "none" then Some CameraDriver.EFFECT_NONE
  else if starts_with newEffect "mono" then Some CameraDriver.EFFECT_MONO
  else if starts_with newEffect "negative" then Some CameraDriver.EFFECT_NEGATIVE
  else if starts_with newEffect "solarize" then Some CameraDriver.EFFECT_SOLARIZE
  else if starts_with newEffect "sepia" then Some CameraDriver.EFFECT_SEPIA
  else if starts_with newEffect "posterize" then Some CameraDriver.EFFECT_POSTERIZE
  else if starts_with newEffect "whiteboard" then Some CameraDriver.EFFECT_WHITEBOARD
  else if starts_with newEffect "blackboard" then Some CameraDriver.EFFECT_BLACKBOARD
  else if starts_with newEffect "aqua" then Some CameraDriver.EFFECT_AQUA
  else None.

Definition processParamEffect (oldParams newParams : CameraParameters) (ct : t) : status_t * t :=
  match changed oldParams newParams KEY_EFFECT with
  | Some newEffect =>
      match effect_of newEffect with
      | Some effect => (CameraDriver.setEffect effect, ask (Driver_setEffect effect) ct)
      | None => (BAD_VALUE, ct)
      end
  | None => (NO_ERROR, ct)
  end.

Definition scene_of (newScene : string) : option CameraDriver.SceneMode :=
  if starts_with newScene "auto" then Some CameraDriver.SCENE_MODE_AUTO
  else if starts_with newScene "action" then Some CameraDriver.SCENE_MODE_ACTION
  else if starts_with newScene "portrait" then Some CameraDriver.SCENE_MODE_PORTRAIT
  else if starts_with newScene "landscape" then Some CameraDriver.SCENE_MODE_LANDSCAPE
  else if starts_with newScene "night" then Some CameraDriver.SCENE_MODE_NIGHT
  else if strncmp_eq newScene "night-portrait" (String.length "portrait")
       then Some CameraDriver.SCENE_MODE_PORTRAIT
  else if starts_with newScene "theatre" then Some CameraDriver.SCENE_MODE_THEATRE
  else if starts_with newScene "beach" then Some CameraDriver.SCENE_MODE_BEACH
  else if starts_with newScene "snow" then Some CameraDriver.SCENE_MODE_SNOW
  else if starts_with newScene "sunset" then Some CameraDriver.SCENE_MODE_SUNSET
  else if starts_with newScene "steadyphoto" then Some CameraDriver.SCENE_MODE_STEADYPHOTO
  else if starts_with newScene "fireworks" then Some CameraDriver.SCENE_MODE_FIREWORKS
  else if starts_with newScene "sports" then Some CameraDriver.SCENE_MODE_SPORTS
  else if starts_with newScene "party" then Some CameraDriver.SCENE_MODE_PARTY
  else if starts_with newScene "candlelight" then Some CameraDriver.SCENE_MODE_CANDLELIGHT
  else if starts_with newScene "barcode" then Some CameraDriver.SCENE_MODE_BARCODE
  else None.

Definition processParamSceneMode (oldParams newParams : CameraParameters) (ct : t) : status_t * t :=
  match changed oldParams newParams KEY_SCENE_MODE with
  | Some newScene =>
      match scene_of newScene with
      | Some scene => (NO_ERROR, ask (Driver_setSceneMode scene) ct)
      | None => (BAD_VALUE, ct)
      end
  | None => (NO_ERROR, ct)
  end.

Definition wb_of (newWb : string) : option CameraDriver.WhiteBalanceMode :=
  if starts_with newWb "auto" then Some CameraDriver.WHITE_BALANCE_AUTO
  else if starts_with newWb "incandescent" then Some CameraDriver.WHITE_BALANCE_INCANDESCENT
  else if starts_with newWb "warm-fluorescent" then Some CameraDriver.WHITE_BALANCE_FLUORESCENT
  else if starts_with newWb "daylight" then Some CameraDriver.WHITE_BALANCE_DAYLIGHT
  else if starts_with newWb "cloudy-daylight" then Some CameraDriver.WHITE_BALANCE_CLOUDY_DAYLIGHT
  else if starts_with newWb "twilight" then Some CameraDriver.WHITE_BALANCE_TWILIGHT
  else if starts_with newWb "shade" then Some CameraDriver.WHITE_BALANCE_SHADE
  else None.

Definition processParamWhiteBalance (oldParams newParams : CameraParameters) (ct : t) : status_t * t :=
  match changed oldParams newParams KEY_WHITE_BALANCE with
  | Some newWb =>
      match wb_of newWb with
      | Some wbMode => (NO_ERROR, ask (Driver_setWhiteBalanceMode wbMode) ct)
      | None => (BAD_VALUE, ct)
      end
  | None => (NO_ERROR, ct)
  end.

Definition focus_of (newFocus : string) : option CameraDriver.FocusMode :=
  if starts_with newFocus "infinity" then Some CameraDriver.FOCUS_MODE_INFINITY
  else if starts_with newFocus "macro" then Some CameraDriver.FOCUS_MODE_MACRO
  else if starts_with newFocus "auto" then Some CameraDriver.FOCUS_MODE_AUTO
  else if starts_with newFocus "fixed" then Some CameraDriver.FOCUS_MODE_FIXED
  else if starts_with newFocus "edof" then Some CameraDriver.FOCUS_MODE_EDOF
  else if starts_with newFocus "continuous-video" then Some CameraDriver.FOCUS_MODE_CONTINUOUS_VIDEO
  else if starts_with newFocus "continuous-picture" then Some CameraDriver.FOCUS_MODE_CONTINUOUS_PICTURE
  else None.

(** The value of a 32-bit [size_t] holding [z]. *)
Definition size_t (z : Z) : Z := z `mod` 4294967296.

(** The window loop shared by [processParamFocusMode] and
    [processParamSetMeteringAreas]: [acc] holds the windows accepted so far
    and [slot] the content of the array element that [sscanf] writes next. *)
Fixpoint scan_windows (fuel : nat) (argTail : option string) (maxWindows : Z)
    (acc : list CameraWindow) (slot : CameraWindow) : option (list CameraWindow) :=
  match argTail with
  | None => Some acc
  | Some s =>
      if decide (Z.of_nat (length acc) < maxWindows) then
        match fuel with
        | O => None
        | S fuel' =>
            let '(i, win) := sscanf_window s slot in
            if decide (i ≠ 5) then Some acc
            else
              let next := strchr_next s paren in
              if verifyCameraWindow win
              then scan_windows fuel' next maxWindows (acc ++ [win]) indeterminate_window
              else scan_windows fuel' next maxWindows acc win
        end
      else Some acc
  end.

(** The windows read from the value of [keyAreas]; [new CameraWindow[n]]
    cannot succeed for the [size_t] value of a negative [int]. *)
Definition read_windows (newParams : CameraParameters) (keyMax keyAreas : string)
  : option (list CameraWindow) :=
  let maxWindows := size_t (getInt newParams keyMax) in
  match get newParams keyAreas with
  | Some p =>
      if decide (0 < maxWindows ∧ (0 < String.length p)%nat) then
        if decide (getInt newParams keyMax < 0) then None
        else scan_windows (S (String.length p)) (Some p) maxWindows [] indeterminate_window
      else Some []
  | None => Some []
  end.

Definition FOCUS_AREAS_OFFSET : Z := 1000.
Definition FOCUS_AREAS_SIZE : Z := 2000.
Definition WINDOWS_TOTAL_WEIGHT : Z := 16.

(** The [size_t] accumulations of [preSetCameraWindows]. *)
Definition sum_weights (windows : list CameraWindow) : Z :=
  foldl (λ acc w, size_t (acc + size_t (weight w))) 0 windows.

Definition preSetCameraWindows (windows : list CameraWindow) (ct : t) : list CameraWindow :=
  match windows with
  | [] => []
  | _ =>
      let '(width, height) := getPreviewSize (mParameters ct) in
      let windowsWeight := if decide (sum_weights windows = 0) then 1 else sum_weights windows in
      let scale (v extent : Z) : Z :=
        Z.quot (int32 (int32 (v + FOCUS_AREAS_OFFSET) * int32 (extent - 1))) FOCUS_AREAS_SIZE in
      let scaled :=
        (λ w, mkWindow (scale (x_left w) width) (scale (x_right w) width)
                       (scale (y_top w) height) (scale (y_bottom w) height)
                       (int32 (size_t (int32 (weight w * WINDOWS_TOTAL_WEIGHT)) `div` windowsWeight)))
          <$> windows in
      let weight_sum := sum_weights scaled in
      match reverse scaled with
      | [] => []
      | l :: before =>
          reverse before ++
          [mkWindow (x_left l) (x_right l) (y_top l) (y_bottom l)
                    (int32 (weight l + WINDOWS_TOTAL_WEIGHT - weight_sum))]
      end
  end.

Definition processParamFocusMode (oldParams newParams : CameraParameters) (ct : t)
  : option (status_t * t) :=
  match get newParams KEY_FOCUS_MODE with
  | None => Some (BAD_VALUE, ct)
  | Some newFocus =>
      match focus_of newFocus with
      | None => Some (BAD_VALUE, ct)
      | Some focus =>
          focusWindows ←
            (if decide (focus = CameraDriver.FOCUS_MODE_AUTO
                        ∨ focus = CameraDriver.FOCUS_MODE_CONTINUOUS_VIDEO
                        ∨ focus = CameraDriver.FOCUS_MODE_MACRO) then
               if mFaceDetectionActive ct then Some []
               else read_windows newParams KEY_MAX_NUM_FOCUS_AREAS KEY_FOCUS_AREAS
             else Some []);
          match focusWindows with
          | [] =>
              Some (CameraDriver.setFocusMode focus (@None (list CameraWindow)) 0,
                    ask (Driver_setFocusMode focus []) ct)
          | _ =>
              let windows := preSetCameraWindows focusWindows ct in
              Some (CameraDriver.setFocusMode focus (Some windows) (Z.of_nat (length focusWindows)),
                    ask (Driver_setFocusMode focus windows) ct)
          end
      end
  end.

Definition processParamSetMeteringAreas (oldParams newParams : CameraParameters) (ct : t)
  : option (status_t * t) :=
  meteringWindows ← read_windows newParams KEY_MAX_NUM_METERING_AREAS KEY_METERING_AREAS;
  match meteringWindows with
  | [] => Some (NO_ERROR, ct)
  | _ =>
      let windows := preSetCameraWindows meteringWindows ct in
      Some (CameraDriver.setMeteringAreas windows (Z.of_nat (length meteringWindows)),
            ask (Driver_setMeteringAreas windows) ct)
  end.

Definition processDynamicParameters (oldParams newParams : CameraParameters) (ct : t)
  : option (status_t * t) :=
  let oldZoom := getInt oldParams KEY_ZOOM in
  let newZoom := getInt newParams KEY_ZOOM in
  ct0 ← (if decide (oldZoom ≠ newZoom) then
           '(_, d) ← CameraDriver.setZoom newZoom (mDriver ct);
           Some (ask (Driver_setZoom newZoom) (set_mDriver ct d))
         else Some ct);
  let '(status, ct1) := processParamEffect oldParams newParams ct0 in
  let '(status, ct2) :=
    if decide (status = NO_ERROR) then processParamFlash oldParams newParams ct1 else (status, ct1) in
  let '(status, ct3) :=
    if decide (status = NO_ERROR) then processParamSceneMode oldParams newParams ct2 else (status, ct2) in
  '(status, ct4) ←
    (if decide (status = NO_ERROR) then processParamFocusMode oldParams newParams ct3
     else Some (status, ct3));
  let '(status, ct5) :=
    if decide (status = NO_ERROR ∨ mFaceDetectionActive ct4 = false)
    then processParamWhiteBalance oldParams newParams ct4 else (status, ct4) in
  let '(status, ct6) :=
    if decide (status = NO_ERROR) then processParamAELock oldParams newParams ct5 else (status, ct5) in
  let '(status, ct7) :=
    if decide (status = NO_ERROR) then processParamAWBLock oldParams newParams ct6 else (status, ct6) in
  if decide (mFaceDetectionActive ct7 = false ∧ status = NO_ERROR)
  then processParamSetMeteringAreas oldParams newParams ct7
  else Some (status, ct7).

(** The search of [processStaticParameters] for a supported video size with
    the aspect ratio of the preview and at least its size. *)
Fixpoint matching_video_size (sizes : list (Z * Z)) (previewWidth previewHeight : Z)
  : option (Z * Z) :=
  match sizes with
  | [] => None
  | (w, h) :: rest =>
      if aspect_le w h previewWidth previewHeight then
        if decide (w < previewWidth ∨ h < previewHeight)
        then matching_video_size rest previewWidth previewHeight
        else Some (w, h)
      else matching_video_size rest previewWidth previewHeight
  end.

(** [processStaticParameters]: the status, the new parameters (the function
    may force their video size) and the thread. *)
Definition processStaticParameters (oldParams newParams : CameraParameters) (ct : t)
  : option (status_t * CameraParameters * t) :=
  let videoMode := isParameterSet KEY_RECORDING_HINT ct in
  let '(newWidth, newHeight) := getPreviewSize newParams in
  let '(oldWidth, oldHeight) := getPreviewSize oldParams in
  let newFormat := V4L2Format (get newParams KEY_PREVIEW_FORMAT) in
  let oldFormat := V4L2Format (get oldParams KEY_PREVIEW_FORMAT) in
  let previewChanged :=
    bool_decide (newWidth ≠ oldWidth ∨ newHeight ≠ oldHeight ∨ oldFormat ≠ newFormat) in
  let '(previewWidth, previewHeight) :=
    if previewChanged then (newWidth, newHeight) else (oldWidth, oldHeight) in
  let '(newVideoWidth, newVideoHeight) := getVideoSize newParams in
  let '(oldVideoWidth, oldVideoHeight) := getVideoSize oldParams in
  let videoChanged := bool_decide (newVideoWidth ≠ oldVideoWidth ∨ newVideoHeight ≠ oldVideoHeight) in
  let newParams1 :=
    if videoChanged then newParams
    else if aspect_gt oldVideoWidth oldVideoHeight previewWidth previewHeight then
      match matching_video_size (parse_sizes (get newParams KEY_SUPPORTED_VIDEO_SIZES))
                                previewWidth previewHeight with
      | Some (w, h) => setVideoSize newParams w h
      | None => newParams
      end
    else newParams in
  if previewChanged || videoChanged then
    match mState ct with
    | STATE_PREVIEW_VIDEO | STATE_PREVIEW_STILL =>
        '(status, ct1) ← restartPreview videoMode ct; Some (status, newParams1, ct1)
    | _ => Some (NO_ERROR, newParams1, ct)
    end
  else Some (NO_ERROR, newParams1, ct).

Definition handleMessageSetParameters (params : string) (ct : t) : option (status_t * t) :=
  let oldParams := mParameters ct in
  let newParams0 := unflatten params in
  let newParams :=
    if decide (mState ct = STATE_PREVIEW_VIDEO ∨ mState ct = STATE_RECORDING) then
      let '(pWidth, pHeight) := getPreviewSize newParams0 in
      let '(vWidth, vHeight) := getVideoSize newParams0 in
      if decide (vWidth < pWidth ∨ vHeight < pHeight) then setPreviewSize newParams0 vWidth vHeight
      else newParams0
    else newParams0 in
  '(status, ct1) ←
    (valid ← validateParameters newParams;
     if decide (valid ≠ NO_ERROR) then Some (valid, ct)
     else
       let ct1 := set_mParameters ct newParams in
       '(static, newParams1, ct2) ← processStaticParameters oldParams newParams ct1;
       if decide (static ≠ NO_ERROR) then Some (static, ct2)
       else
         '(dynamic, ct3) ← processDynamicParameters oldParams newParams1 ct2;
         if decide (dynamic ≠ NO_ERROR) then Some (dynamic, ct3)
         else Some (dynamic, set_mParameters ct3 newParams1));
  ct2 ← reply MESSAGE_ID_SET_PARAMETERS status ct1;
  Some (status, ct2).

(** [getZoomRatios] sets the two zoom keys; [getFocusDistances] does
    nothing yet. *)
Definition handleMessageGetParameters (params : bool) (ct : t) : option (status_t * t) :=
  let '(status, ct1) :=
    if params then
      let p := <["zoom-ratios"%string := "100"%string]>
                 (<[KEY_MAX_ZOOM := "0"%string]> (mParameters ct)) in
      (NO_ERROR, set_getParameters_out (set_mParameters ct p) (Some (flatten p)))
    else (BAD_VALUE, ct) in
  ct2 ← reply MESSAGE_ID_GET_PARAMETERS status ct1;
  Some (status, ct2).

(** *** The event loop *)

(** What [waitForAndExecuteMessage] does: it waits in [receive] while the
    queue is empty, and otherwise handles the oldest message. *)
Inductive executed :=
| WaitsInReceive
| Handled (msg : Message) (status : status_t) (ct : t).

Definition dispatch (msg : Message) (ct : t) : option (status_t * t) :=
  match msg with
  | MsgExit => handleMessageExit ct
  | MsgStartPreview => handleMessageStartPreview ct
  | MsgStopPreview => handleMessageStopPreview ct
  | MsgStartRecording => handleMessageStartRecording ct
  | MsgStopRecording => handleMessageStopRecording ct
  | MsgReleasePreviewFrame buff => handleMessageReleasePreviewFrame buff ct
  | MsgTakePicture => handleMessageTakePicture ct
  | MsgCancelPicture => handleMessageCancelPicture ct
  | MsgAutoFocus => handleMessageAutoFocus ct
  | MsgCancelAutoFocus => handleMessageCancelAutoFocus ct
  | MsgReleaseRecordingFrame buff => handleMessageReleaseRecordingFrame buff ct
  | MsgPreviewDone buff => handleMessagePreviewDone buff ct
  | MsgPictureDone snapshotBuf postviewBuf => handleMessagePictureDone snapshotBuf postviewBuf ct
  | MsgRedEyeRemovalDone snapshotBuf postviewBuf =>
      handleMessageRedEyeRemovalDone snapshotBuf postviewBuf ct
  | MsgAutoFocusDone => handleMessageAutoFocusDone ct
  | MsgSetParameters params => handleMessageSetParameters params ct
  | MsgGetParameters params => handleMessageGetParameters params ct
  | MsgCommand cmd_id _ _ => handleMessageCommand cmd_id ct
  end.

Definition waitForAndExecuteMessage (ct : t) : option executed :=
  match MessageQueue.receive (mMessageQueue ct) with
  | None => Some WaitsInReceive
  | Some (msg, q) =>
      '(status, ct1) ← dispatch msg (set_mMessageQueue ct q);
      Some (Handled msg status ct1)
  end.

(** One pass through the body of the [while (mThreadRunning)] loop of
    [threadLoop]. *)
Inductive iteration :=
| Executes (e : executed)                 (* [waitForAndExecuteMessage] was called *)
| Dequeues (status : status_t) (ct : t)   (* frames were taken from the driver *)
| Nothing (ct : t).                       (* the [default] branch of the switch *)

Definition threadLoop_body (ct : t) : option iteration :=
  match mState ct with
  | STATE_STOPPED => Executes <$> waitForAndExecuteMessage ct
  | STATE_PREVIEW_STILL =>
      if negb (MessageQueue.isEmpty (mMessageQueue ct)) then Executes <$> waitForAndExecuteMessage ct
      else if CameraDriver.dataAvailable (mDriver ct) then
        '(status, ct1) ← dequeuePreview ct; Some (Dequeues status ct1)
      else Executes <$> waitForAndExecuteMessage ct
  | STATE_PREVIEW_VIDEO | STATE_RECORDING =>
      if negb (MessageQueue.isEmpty (mMessageQueue ct)) then Executes <$> waitForAndExecuteMessage ct
      else if CameraDriver.dataAvailable (mDriver ct) then
        '(status, ct1) ← dequeueRecording ct;
        if decide (status = NO_ERROR) then
          '(status2, ct2) ← dequeuePreview ct1; Some (Dequeues status2 ct2)
        else Some (Dequeues status ct1)
      else Executes <$> waitForAndExecuteMessage ct
  | STATE_CAPTURE => Some (Nothing ct)
  end.

(** *** The caller-facing functions and their commands *)



(** The content of the reply slot of [id]. *)
Definition reply_slot (id : MessageId) (ct : t) : option status_t :=
  array_get (MessageQueue.mReplyStatus (mMessageQueue ct)) (MessageId_value id).

(** *** The order of the dynamic parameters *)





(** *** Sequences of messages *)



End Thread.

(** The consumers of a coupled buffer giving it back: the preview thread,
    the video thread (which names the buffer by the address [data] of its
    memory), and the picture thread after a video snapshot. *)
Inductive Release := PreviewReleased | RecordingReleased | SnapshotReleased.

Global Instance Release_eq_dec : EqDecision Release.
Proof. solve_decision. Defined.






End ControlThread.

(** * Notions used by the properties *)

(** The mode and the descriptor of the device are the same in [d] and
    [d1]. *)
Definition same_device (d d1 : CameraDriver.t) : Prop :=
  CameraDriver.mMode d1 = CameraDriver.mMode d ∧
  CameraDriver.mCameraSensor d1 = CameraDriver.mCameraSensor d.

(** Between [d] and [d1] no pool array has come back: if the pool of [d1]
    has an array that the pool of [d] had not, that array has been
    allocated in between. *)
Definition no_array_revived (d d1 : CameraDriver.t) : Prop :=
  (CameraDriver.allocations d <= CameraDriver.allocations d1)%nat ∧
  (CameraDriver.allocations d1 = CameraDriver.allocations d ->
   CameraDriver.bufs (CameraDriver.mBufferPool d) = None ->
   CameraDriver.bufs (CameraDriver.mBufferPool d1) = None).

(** The driver holds no open descriptor of the device. *)
Definition device_closed (d : CameraDriver.t) : Prop :=
  ∀ fd, CameraDriver.mCameraSensor d = Some fd -> fd < 0.

(** The sum of the weights of [windows]. *)
Definition total_weight (windows : list CameraWindow) : Z :=
  foldr (λ w acc, weight w + acc) 0 windows.

(** The corners of [w] lie in a frame of [width] by [height] pixels, the
    first one not after the second. *)
Definition in_frame (width height : Z) (w : CameraWindow) : Prop :=
  0 <= x_left w ∧ x_left w <= x_right w ∧ x_right w <= width - 1 ∧
  0 <= y_top w ∧ y_top w <= y_bottom w ∧ y_bottom w <= height - 1.

(** The parameters that [handleMessageSetParameters] validates: the ones
    of the message, with the preview size brought down to the video size
    where the handler does so. *)
Definition requested_parameters `{!Host} (params : string) (ct : ControlThread.t)
  : CameraParameters :=
  let newParams := unflatten params in
  if decide (ControlThread.mState ct = ControlThread.STATE_PREVIEW_VIDEO
             ∨ ControlThread.mState ct = ControlThread.STATE_RECORDING) then
    let '(pWidth, pHeight) := getPreviewSize newParams in
    let '(vWidth, vHeight) := getVideoSize newParams in
    if decide (vWidth < pWidth ∨ vHeight < pHeight) then setPreviewSize newParams vWidth vHeight
    else newParams
  else newParams.

(** While the thread shows the preview or records, it has its array of
    coupled buffers, with [mNumBuffers] entries. *)
Definition coupled_buffers_ready (ct : ControlThread.t) : Prop :=
  ControlThread.mState ct ≠ ControlThread.STATE_STOPPED ->
  ControlThread.mState ct ≠ ControlThread.STATE_CAPTURE ->
  ∃ a, ControlThread.mCoupledBuffers ct = Some a ∧
       Z.of_nat (length a) = ControlThread.mNumBuffers ct.

(** The driver of a stopped thread is in no mode. *)
Definition idle_when_stopped (ct : ControlThread.t) : Prop :=
  ControlThread.mState ct = ControlThread.STATE_STOPPED ->
  CameraDriver.mMode (ControlThread.mDriver ct) = MODE_NONE.

(** Both hold of [ct1] if they hold of [ct]. *)
Definition invariants_kept (ct ct1 : ControlThread.t) : Prop :=
  (coupled_buffers_ready ct -> coupled_buffers_ready ct1) ∧
  (idle_when_stopped ct -> idle_when_stopped ct1).

(** [ct1] is in the state of [ct], with the same coupled buffers and
    parameters and with the driver in the same mode. *)
Definition same_session (ct ct1 : ControlThread.t) : Prop :=
  ControlThread.mState ct1 = ControlThread.mState ct ∧
  ControlThread.mCoupledBuffers ct1 = ControlThread.mCoupledBuffers ct ∧
  ControlThread.mNumBuffers ct1 = ControlThread.mNumBuffers ct ∧
  ControlThread.mParameters ct1 = ControlThread.mParameters ct ∧
  CameraDriver.mMode (ControlThread.mDriver ct1) = CameraDriver.mMode (ControlThread.mDriver ct).

(** The thread after one pass through the loop of [threadLoop]; a pass that
    waits in [receive] changes nothing. *)
Definition thread_after (ct : ControlThread.t) (it : ControlThread.iteration) : ControlThread.t :=
  match it with
  | ControlThread.Executes ControlThread.WaitsInReceive => ct
  | ControlThread.Executes (ControlThread.Handled _ _ ct1) => ct1
  | ControlThread.Dequeues _ ct1 => ct1
  | ControlThread.Nothing ct1 => ct1
  end.

(** * Concrete devices and states

    Two devices and the states used to run the definitions above on
    concrete inputs. *)

Module Scenario.
Import CameraDriver.

(** A device that answers every request with success: the device node
    opens as descriptor 3, and a dequeue always reports buffer 0. *)
Definition eager_ret (tr : list DevCall) (c : DevCall) : Z :=
  match c with
  | SYS_S_ISCHR => 1
  | SYS_open => 3
  | _ => 0
  end.

Definition answers_out (c : DevCall) : Z :=
  match c with
  | VIDIOC_QUERYCAP => Z.lor V4L2_CAP_VIDEO_CAPTURE V4L2_CAP_STREAMING
  | VIDIOC_QUERYBUF _ => 614400
  | CB_allocateMemory index _ => 4096 * (index + 1)
  | _ => 0
  end.


(** A device that keeps a queue: [queue_of tr] lists the buffers it holds
    after the calls of [tr], the newest at the head.  It refuses a buffer it
    holds already and a dequeue while it holds none, and it hands back the
    buffer it has held longest. *)
Fixpoint queue_of (tr : list DevCall) : list Z :=
  match tr with
  | [] => []
  | c :: older =>
      match c with
      | VIDIOC_QBUF i => if decide (i ∈ queue_of older) then queue_of older else i :: queue_of older
      | VIDIOC_DQBUF =>
          match last (queue_of older) with
          | Some i => filter (λ j, j ≠ i) (queue_of older)
          | None => queue_of older
          end
      | VIDIOC_REQBUFS _ => []
      | _ => queue_of older
      end
  end.

Definition queueing_ret (tr : list DevCall) (c : DevCall) : Z :=
  match c with
  | VIDIOC_QBUF i => if decide (i ∈ queue_of tr) then -1 else 0
  | VIDIOC_DQBUF => match last (queue_of tr) with Some _ => 0 | None => -1 end
  | _ => eager_ret tr c
  end.

Definition queueing_out (tr : list DevCall) (c : DevCall) : Z :=
  match c with
  | VIDIOC_DQBUF => default 0 (last (queue_of tr))
  | _ => answers_out c
  end.

Definition queueing_device : Device :=
  {| dev_ret := queueing_ret;
     dev_out := queueing_out;
     NUM_DEFAULT_BUFFERS := 4;
     paddingWidth := λ w _, w |}.

(** The driver after its constructor: VGA frames, the device closed. *)
Definition vga : FrameInfo := mkFrameInfo 640 480 640 1920 1080.

Definition constructed : t :=
  mk MODE_NONE 0 empty_pool (mkConfig vga vga 0) (Some (-1)) [] 0.

(** The constructed driver with the device open, as [configureDevice]
    finds it. *)
Definition opened : t :=
  mk MODE_NONE 0 empty_pool (mkConfig vga vga 0) (Some 3) [] 0.

(** The first two buffers of the pool, as [startDevice] passes them for
    the initial fill. *)
Definition buffer0 : BufferPtr := Slot 1 0.
Definition buffer1 : BufferPtr := Slot 1 1.

(** A session on the queueing device: the driver started in preview mode,
    one frame dequeued, the driver stopped, and started again. *)
Definition streaming : t :=
  Eval vm_compute in default constructed (snd <$> @start queueing_device MODE_PREVIEW constructed).

(** The frame dequeued: the pointer that [dequeueBuffer] hands out, and
    the [CameraBuffer] it points to. *)
Definition handed_out : BufferPtr := Slot 1 0.

Definition dequeued : CameraBuffer := mkCameraBuffer 0 1 (Some 4096).

Definition after_dequeue : t :=
  Eval vm_compute in default constructed (snd <$> @dequeueBuffer queueing_device false streaming).

Definition stopped : t :=
  Eval vm_compute in default constructed (snd <$> @stop queueing_device after_dequeue).


(** Operations on the pool of the opened driver: two buffers allocated and
    queued as in the initial fill, one frame dequeued and given back, given
    back a second time, and one more frame dequeued. *)
Definition pool_ops : list PoolOp :=
  [OpAllocateBuffers 2; OpQueueBuffer buffer0 true; OpQueueBuffer buffer1 true;
   OpDequeueBuffer false; OpQueueBuffer buffer0 false; OpQueueBuffer buffer0 false;
   OpDequeueBuffer false].

Definition after_pool_ops : t :=
  Eval vm_compute in default constructed (@pool_run queueing_device pool_ops opened).

(** Collaborators whose calls all return 0, and library functions that read
    every number as 0 and find no window in a string. *)
Definition quiet : ControlThread.Collaborators := {| ControlThread.call_ret := λ _ _, 0 |}.

(** Collaborators among which the picture thread fails to flush its
    buffers. *)
Definition stuck_picture_thread : ControlThread.Collaborators :=
  {| ControlThread.call_ret := λ _ c,
       match c with
       | ControlThread.PictureThread_flushBuffers => UNKNOWN_ERROR
       | _ => 0
       end |}.

Definition plain_host : Host :=
  {| strtol := λ _, 0;
     parse_pair := λ _, Some (640, 480);
     format_pair := λ _ _, "640x480"%string;
     parse_sizes := λ _, [];
     sscanf_window := λ _ w, (0, w);
     unflatten := λ _, ∅;
     flatten := λ _, ""%string;
     V4L2Format := λ _, 1;
     aspect_gt := λ _ _ _ _, false;
     aspect_le := λ _ _ _ _, true;
     indeterminate_window := mkWindow 0 0 0 0 0;
     MAX_PARAM_VALUE_LENGTH := 256 |}.

(** The driver recording: started in video mode on the queueing device,
    the first frame taken from it. *)
Definition video_driver : t :=
  Eval vm_compute in
    default constructed
      (d ← snd <$> @start queueing_device MODE_VIDEO constructed;
       snd <$> @dequeueBuffer queueing_device true d).

(** A queue with one reply slot per message id and nothing in it. *)
Definition idle_queue : MessageQueue.t ControlThread.Message :=
  MessageQueue.mk [] ControlThread.MESSAGE_ID_MAX (replicate 18 NO_ERROR).

(** A queue with three commands, the callers of [startPreview] and
    [stopPreview] waiting: sent in the order stop preview, take picture,
    start preview, start preview. *)
Definition three_commands : MessageQueue.t ControlThread.Message :=
  MessageQueue.mk
    [ControlThread.MsgStartPreview; ControlThread.MsgStartPreview;
     ControlThread.MsgTakePicture; ControlThread.MsgStopPreview]
    ControlThread.MESSAGE_ID_MAX
    (<[1%nat := WOULD_BLOCK]> (<[2%nat := WOULD_BLOCK]> (replicate 18 NO_ERROR))).

Definition default_parameters : CameraParameters :=
  list_to_map
    [(KEY_PREVIEW_SIZE, "640x480"); (KEY_PREVIEW_FORMAT, "yuv422i-yuyv"); (KEY_ZOOM, "0");
     (KEY_EFFECT, "none"); (KEY_FLASH_MODE, "off"); (KEY_SCENE_MODE, "auto");
     (KEY_FOCUS_MODE, "fixed"); (KEY_WHITE_BALANCE, "auto");
     (KEY_AUTO_EXPOSURE_LOCK, "false"); (KEY_AUTO_WHITEBALANCE_LOCK, "false");
     (ControlThread.KEY_GPS_LATITUDE, "0"); (ControlThread.KEY_GPS_LONGITUDE, "0");
     (ControlThread.KEY_GPS_ALTITUDE, "0"); (ControlThread.KEY_GPS_TIMESTAMP, "0")]%string.

(** The control thread while recording, the frame of buffer 0 out with the
    preview and the video thread: the entry of buffer 0 holds the buffer for
    both and none of its flags is set. *)
Definition coupled0 : ControlThread.CoupledBuffer :=
  ControlThread.mkCoupled dequeued dequeued false false false false.

Definition recording_thread : ControlThread.t :=
  ControlThread.mk video_driver idle_queue ControlThread.STATE_RECORDING true
    (Some [coupled0; ControlThread.zero_CoupledBuffer; ControlThread.zero_CoupledBuffer;
           ControlThread.zero_CoupledBuffer])
    4 false false 0 default_parameters [] None.








(** The control thread after a still capture, and a caller's thread stopped
    before any command. *)
Definition capture_driver : t :=
  Eval vm_compute in
    default constructed
      (d ← snd <$> @start queueing_device MODE_CAPTURE constructed;
       snd <$> @dequeueBuffer queueing_device false d).

Definition capture_thread : ControlThread.t :=
  ControlThread.mk capture_driver idle_queue ControlThread.STATE_CAPTURE true None 4
    false false 0 default_parameters [] None.

Definition stopped_thread : ControlThread.t :=
  ControlThread.mk constructed idle_queue ControlThread.STATE_STOPPED true None 4
    false false 0 default_parameters [] None.

(** A device on which the third buffer cannot be set up: the query for
    buffer 2 fails. *)
Definition faulty_ret (tr : list DevCall) (c : DevCall) : Z :=
  match c with
  | VIDIOC_QUERYBUF 2 => -1
  | _ => queueing_ret tr c
  end.

Definition faulty_device : Device :=
  {| dev_ret := faulty_ret;
     dev_out := queueing_out;
     NUM_DEFAULT_BUFFERS := 4;
     paddingWidth := λ w _, w |}.

(** A host that reads decimal numbers; the rest is as in [plain_host]. *)
Fixpoint digits (acc : Z) (s : string) : Z :=
  match s with
  | String c rest =>
      let n := Z.of_N (Ascii.N_of_ascii c) - 48 in
      if decide (0 <= n <= 9) then digits (10 * acc + n) rest else acc
  | EmptyString => acc
  end.

Definition decimal_host : Host :=
  {| strtol := digits 0;
     parse_pair := λ _, Some (640, 480);
     format_pair := λ _ _, "640x480"%string;
     parse_sizes := λ _, [];
     sscanf_window := λ _ w, (0, w);
     unflatten := λ _, ∅;
     flatten := λ _, ""%string;
     V4L2Format := λ _, 1;
     aspect_gt := λ _ _ _ _, false;
     aspect_le := λ _ _ _ _, true;
     indeterminate_window := mkWindow 0 0 0 0 0;
     MAX_PARAM_VALUE_LENGTH := 256 |}.

(** Two windows that pass [verifyCameraWindow], of weights 1 and 2. *)
Definition two_windows : list CameraWindow :=
  [mkWindow (-1000) 0 (-1000) 0 1; mkWindow 0 1000 0 1000 2].

(** The default parameters with the lists of the supported flash and focus
    modes, with the flash mode set to red-eye, and with the scene mode set
    to night-portrait. *)
Definition supported_parameters : CameraParameters :=
  <[KEY_SUPPORTED_FLASH_MODES := "off,auto,on,torch"%string]>
    (<[KEY_SUPPORTED_FOCUS_MODES := "fixed,auto,infinity"%string]> default_parameters).

Definition red_eye : CameraParameters :=
  <[KEY_FLASH_MODE := "red-eye"%string]> default_parameters.

Definition night_portrait : CameraParameters :=
  <[KEY_SCENE_MODE := "night-portrait"%string]> default_parameters.

(** The stopped thread with a command to start the preview in its queue. *)
Definition start_requested : ControlThread.t :=
  ControlThread.set_mMessageQueue stopped_thread
    (MessageQueue.set_mList idle_queue [ControlThread.MsgStartPreview]).

(** A host on which the aspect ratios of video and preview always differ
    and every supported size has the ratio of the preview; it supports the
    video sizes 320x240 and 1280x960. *)
Definition forcing_host : Host :=
  {| strtol := λ _, 0;
     parse_pair := λ _, Some (640, 480);
     format_pair := λ _ _, "1280x960"%string;
     parse_sizes := λ _, [(320, 240); (1280, 960)];
     sscanf_window := λ _ w, (0, w);
     unflatten := λ _, ∅;
     flatten := λ _, ""%string;
     V4L2Format := λ _, 1;
     aspect_gt := λ _ _ _ _, true;
     aspect_le := λ _ _ _ _, true;
     indeterminate_window := mkWindow 0 0 0 0 0;
     MAX_PARAM_VALUE_LENGTH := 256 |}.

(** The recording thread with a face detector. *)
Definition detecting_thread : ControlThread.t :=
  ControlThread.mk video_driver idle_queue ControlThread.STATE_RECORDING true
    (Some [coupled0; ControlThread.zero_CoupledBuffer; ControlThread.zero_CoupledBuffer;
           ControlThread.zero_CoupledBuffer])
    4 true false 0 default_parameters [] None.


(** The control thread showing the still preview, the driver streaming. *)
Definition preview_thread : ControlThread.t :=
  ControlThread.mk streaming idle_queue ControlThread.STATE_PREVIEW_STILL true
    (Some (replicate 4 ControlThread.zero_CoupledBuffer))
    4 false false 0 default_parameters [] None.

End Scenario.

(** * Properties *)

(** ** Arithmetic and arrays *)

Lemma int32_id z : in_int32 z -> int32 z = z.
Proof.
  unfold in_int32, int32. intros Hz.
  rewrite Z.mod_small by lia. lia.
Qed.


Lemma array_get_set {A} (a a1 : list A) i x :
  array_set a i x = Some a1 -> array_get a1 i = Some x.
Proof.
  unfold array_set, array_get. intros H.
  destruct (decide (0 <= i < Z.of_nat (length a))) as [Hi|]; [|done].
  injection H as <-. rewrite decide_True by lia.
  apply list_lookup_insert_eq. lia.
Qed.

Lemma array_set_is_Some {A} (a : list A) i x :
  0 <= i < Z.of_nat (length a) -> is_Some (array_set a i x).
Proof. intros Hi. unfold array_set. rewrite decide_True by done. by eexists. Qed.

Lemma array_set_length {A} (a a1 : list A) i x :
  array_set a i x = Some a1 -> length a1 = length a.
Proof.
  unfold array_set. intros H.
  destruct (decide (0 <= i < Z.of_nat (length a))); [|done].
  injection H as <-. apply length_insert.
Qed.

Lemma array_get_Some {A} (a : list A) i x :
  array_get a i = Some x -> 0 <= i < Z.of_nat (length a) ∧ a !! Z.to_nat i = Some x.
Proof.
  unfold array_get. destruct (decide (0 <= i)); [|done].
  intros Hl. split; [|done]. apply lookup_lt_Some in Hl. lia.
Qed.

Lemma NoDup_bounded_length (l : list Z) (n : Z) :
  0 <= n -> NoDup l -> (∀ i, i ∈ l -> 0 <= i < n) -> Z.of_nat (length l) <= n.
Proof.
  intros Hn Hnd Hb.
  assert (l ⊆+ seqZ 0 n) as Hsub.
  { apply NoDup_submseteq; [done|]. intros i Hi. rewrite elem_of_seqZ. specialize (Hb i Hi). lia. }
  apply submseteq_length in Hsub. rewrite length_seqZ in Hsub. lia.
Qed.

Lemma filter_ne_length (l : list Z) (i : Z) :
  NoDup l -> i ∈ l -> Z.of_nat (length (filter (λ j, j ≠ i) l)) = Z.of_nat (length l) - 1.
Proof.
  induction 1 as [|x l Hx Hnd IH]; [by intros ?%elem_of_nil|].
  rewrite filter_cons. intros [->|Hi]%elem_of_cons.
  - rewrite decide_False by tauto.
    assert (filter (λ j, j ≠ x) l = l) as ->; [|simpl; lia].
    clear IH Hnd. induction l as [|y l IH]; [done|].
    rewrite filter_cons. apply not_elem_of_cons in Hx as [Hxy Hxl].
    rewrite decide_True by done. f_equal. by apply IH.
  - rewrite decide_True by (intros ->; done). simpl. rewrite Nat2Z.inj_succ, IH by done. lia.
Qed.

Lemma not_held_length (l : list Z) (n : Z) :
  0 <= n -> NoDup l -> (∀ i, i ∈ l -> 0 <= i < n) ->
  Z.of_nat (length l) + Z.of_nat (length (filter (λ i, i ∉ l) (seqZ 0 n))) = n.
Proof.
  intros Hn Hnd Hb.
  assert (filter (λ i, i ∈ l) (seqZ 0 n) ≡ₚ l) as Hp.
  { apply NoDup_Permutation; [apply NoDup_filter, NoDup_seqZ | done |].
    intros i. rewrite list_elem_of_filter, elem_of_seqZ. split; [by intros [? _]|].
    intros Hi. specialize (Hb i Hi). split; [done|lia]. }
  pose proof (filter_app_complement (λ i, i ∈ l) (seqZ 0 n)) as Hc.
  apply Permutation_length in Hc. rewrite length_app, length_seqZ in Hc.
  apply Permutation_length in Hp. lia.
Qed.

(** ** The message queue *)

Section MessageQueueOrder.
Context {M : Type}.
Implicit Types (q : MessageQueue.t M) (l : list M).

Lemma pop_back_snoc l x : MessageQueue.pop_back (l ++ [x]) = Some (x, l).
Proof.
  induction l as [|y l IH]; [done|].
  change ((y :: l) ++ [x]) with (y :: (l ++ [x])).
  simpl. rewrite IH. by destruct (l ++ [x]) eqn:E; [destruct l|].
Qed.

Lemma drain_reverse l q :
  MessageQueue.mList q = reverse l ->
  MessageQueue.drain (length l) q = Some (l, MessageQueue.set_mList q []).
Proof.
  revert q. induction l as [|x l IH]; intros q Hq.
  - simpl. destruct q as [ml n r]. simpl in Hq. by subst.
  - rewrite reverse_cons in Hq. simpl.
    unfold MessageQueue.receive. rewrite Hq, pop_back_snoc. simpl.
    rewrite (IH (MessageQueue.set_mList q (reverse l))) by done.
    by destruct q.
Qed.

Lemma send_post_mList msg replyId q r q1 :
  MessageQueue.send_post msg replyId q = Some (r, q1) ->
  MessageQueue.mNumReply q1 = MessageQueue.mNumReply q ∧
  MessageQueue.mList q1 =
    (if decide (replyId ≠ -1 ∧ MessageQueue.mNumReply q = 0) then [] else [msg])
    ++ MessageQueue.mList q.
Proof.
  unfold MessageQueue.send_post.
  destruct (decide (replyId ≠ -1 ∧ MessageQueue.mNumReply q = 0)) as [Hbad|Hok].
  - intros [= <- <-]. done.
  - destruct (decide (replyId ≠ -1)) as [Hr|Hr]; simpl.
    + unfold MessageQueue.reply. simpl.
      destruct (array_set _ _ _) as [r1|]; simpl; [|done].
      intros [= <- <-]. done.
    + intros [= <- <-]. done.
Qed.

Lemma post_all_mList sends q q1 :
  MessageQueue.post_all sends q = Some q1 ->
  MessageQueue.mList q1
  = reverse (MessageQueue.pushed (MessageQueue.mNumReply q) sends) ++ MessageQueue.mList q.
Proof.
  revert q. induction sends as [|[msg replyId] sends IH]; intros q.
  - intros [= <-]. done.
  - simpl. destruct (MessageQueue.send_post msg replyId q) as [[r q0]|] eqn:Hp; simpl; [|done].
    intros Hrest. apply send_post_mList in Hp as [Hn Hl].
    rewrite (IH _ Hrest), Hn, Hl.
    unfold MessageQueue.pushed. rewrite filter_cons. simpl.
    destruct (decide (replyId ≠ -1 ∧ MessageQueue.mNumReply q = 0)) as [Hbad|Hok].
    + rewrite decide_False by tauto. done.
    + rewrite decide_True by done. rewrite fmap_cons, reverse_cons. simpl.
      by rewrite <- app_assoc.
Qed.

(** C9.  Commands pushed with [send], in program order, onto an empty queue
    are handed out by the same number of successive [receive] calls in
    exactly the order in which they were sent, oldest first, and the queue
    is empty afterwards. *)
Theorem receive_returns_in_send_order (sends : list (M * Z)) q q1 :
  MessageQueue.mList q = [] ->
  MessageQueue.post_all sends q = Some q1 ->
  MessageQueue.drain (length (MessageQueue.pushed (MessageQueue.mNumReply q) sends)) q1
  = Some (MessageQueue.pushed (MessageQueue.mNumReply q) sends, MessageQueue.set_mList q1 []).
Proof.
  intros Hempty Hpost. apply drain_reverse.
  rewrite (post_all_mList _ _ _ Hpost), Hempty. apply app_nil_r.
Qed.

End MessageQueueOrder.

Section MessageQueueRemove.
Context {M : Type} (msg_id : M -> Z).
Implicit Types (q : MessageQueue.t M) (l : list M).

Lemma erase_matching_filter id l :
  MessageQueue.erase_matching msg_id id l
  = (filter (λ msg, msg_id msg ≠ id) l, filter (λ msg, msg_id msg = id) l).
Proof.
  induction l as [|x l IH]; [done|].
  simpl. rewrite IH, !filter_cons.
  destruct (decide (msg_id x = id)) as [Heq|Hne].
  - by rewrite decide_False by (intros Hc; by apply Hc).
  - by rewrite decide_True.
Qed.

Lemma array_set_other {A} (a a1 : list A) i j x :
  array_set a i x = Some a1 -> j ≠ i -> array_get a1 j = array_get a j.
Proof.
  unfold array_set, array_get. intros H Hne.
  destruct (decide (0 <= i < Z.of_nat (length a))); [|done]. injection H as <-.
  destruct (decide (0 <= j)); [|done].
  apply list_lookup_insert_ne. lia.
Qed.

(** C6, as amended.  For a command kind that has a reply slot, [remove] on
    a queue that holds at least one command (of any kind) erases the
    commands of that kind, which go to the end of [vect], keeps the commands
    of the other kinds in their order, and stores [INVALID_OPERATION], the
    status that stands for a cancelled command, in the slot, so that a
    sender waiting on it is woken with that status; this is so whether or
    not a command of that kind was queued.  On an empty queue [remove]
    returns at once and changes nothing, the reply slots included. *)
Theorem remove_resolves_reply_slot (id : Z) (vect : option (list M)) q :
  0 < MessageQueue.mNumReply q ->
  0 <= id < Z.of_nat (length (MessageQueue.mReplyStatus q)) ->
  (MessageQueue.mList q = [] ->
   MessageQueue.remove msg_id id vect q = Some (NO_ERROR, vect, q)) ∧
  (MessageQueue.mList q ≠ [] ->
   ∃ q1,
     MessageQueue.remove msg_id id vect q
     = Some (NO_ERROR,
             (λ v, v ++ filter (λ msg, msg_id msg = id) (MessageQueue.mList q)) <$> vect, q1) ∧
     MessageQueue.mList q1 = filter (λ msg, msg_id msg ≠ id) (MessageQueue.mList q) ∧
     (∀ msg, msg ∈ MessageQueue.mList q1 -> msg_id msg ≠ id) ∧
     MessageQueue.send_wait id q1 = Some (MessageQueue.Woken INVALID_OPERATION)).
Proof.
  intros Hn Hid. split; intros Hl; unfold MessageQueue.remove, MessageQueue.isEmpty, MessageQueue.size.
  - by rewrite Hl.
  - destruct (MessageQueue.mList q) as [|m l] eqn:El; [done|]. simpl negb. cbv iota.
    rewrite erase_matching_filter.
    rewrite decide_True by done.
    unfold MessageQueue.reply. simpl.
    destruct (array_set_is_Some (MessageQueue.mReplyStatus q) id INVALID_OPERATION Hid) as [r Hr].
    rewrite Hr. simpl. eexists. split; [done|]. simpl. split; [done|]. split.
    + intros msg Hm. by apply list_elem_of_filter in Hm as [Hm _].
    + unfold MessageQueue.send_wait. simpl. rewrite (array_get_set _ _ _ _ Hr). done.
Qed.

End MessageQueueRemove.

(** ** The camera driver *)

(** Take apart a hypothesis that says that a function of the driver
    returned: binds, pairs and tests. *)
Ltac inv_step :=
  match goal with
  | H : (let '(_, _) := ?x in _) = _ |- _ => destruct x eqn:?
  | H : context [let '(_, _) := ?x in _] |- _ => destruct x eqn:?
  | H : (match ?x with _ => _ end) = Some _ |- _ => destruct x eqn:?
  | H : (if ?b then _ else _) = _ |- _ => destruct b eqn:?
  | H : (_ ≫= _) = Some _ |- _ => apply bind_Some in H; destruct H as (? & ? & ?)
  | H : (_ <$> _) = Some _ |- _ => apply fmap_Some in H; destruct H as (? & ? & ?)
  | H : Some _ = Some _ |- _ => injection H as ?
  | H : (_, _) = (_, _) |- _ => injection H as ?
  | H : None = Some _ |- _ => discriminate H
  | _ => progress subst
  end.
Ltac unwind := repeat (inv_step; simpl in *).

Section DriverFacts.
Context `{Dev : !Device}.
Import CameraDriver.


(** The session id is written by [start] alone. *)

Lemma pool_set_session i b d d1 : pool_set i b d = Some d1 -> mSessionId d1 = mSessionId d.
Proof. unfold pool_set. intros H. unwind. done. Qed.

Lemma freeBuffer_session i d d1 : freeBuffer i d = Some d1 -> mSessionId d1 = mSessionId d.
Proof. unfold freeBuffer, ioctl, call. intros H. unwind. done. Qed.

Lemma freeBuffer_loop_session fuel i d d1 :
  freeBuffer_loop fuel i d = Some d1 -> mSessionId d1 = mSessionId d.
Proof.
  revert i d. induction fuel as [|fuel IH]; simpl; intros i d H.
  - by injection H as <-.
  - destruct (decide _); [|by injection H as <-].
    apply bind_Some in H as (d0 & Hf & H).
    rewrite (IH _ _ H). by apply freeBuffer_session in Hf.
Qed.

Lemma freeBuffers_session d st d1 : freeBuffers d = Some (st, d1) -> mSessionId d1 = mSessionId d.
Proof.
  unfold freeBuffers, free_all, ioctl, call. intros H. unwind; try done.
  match goal with H : freeBuffer_loop _ _ _ = _ |- _ => apply freeBuffer_loop_session in H end.
  done.
Qed.

Lemma allocateBuffer_session i d st d1 :
  allocateBuffer i d = Some (st, d1) -> mSessionId d1 = mSessionId d.
Proof.
  unfold allocateBuffer, call. intros H. unwind;
    match goal with H : pool_set _ _ _ = _ |- _ => apply pool_set_session in H end; done.
Qed.

Lemma allocateBuffer_loop_session fuel i d st d1 :
  allocateBuffer_loop fuel i d = Some (st, d1) -> mSessionId d1 = mSessionId d.
Proof.
  revert i d. induction fuel as [|fuel IH]; simpl; intros i d H.
  - by injection H as _ <-.
  - apply bind_Some in H as ([st0 d0] & Ha & H). simpl in H.
    apply allocateBuffer_session in Ha.
    destruct (decide _); [by injection H as _ <-|].
    apply IH in H. simpl in H. congruence.
Qed.

Lemma allocateBuffers_session n d st d1 :
  allocateBuffers n d = Some (st, d1) -> mSessionId d1 = mSessionId d.
Proof.
  unfold allocateBuffers, free_all, ioctl, call. intros H. unwind; try done.
  - match goal with H : allocateBuffer_loop _ _ _ = _ |- _ => apply allocateBuffer_loop_session in H end.
    done.
  - match goal with H : allocateBuffer_loop _ _ _ = _ |- _ => apply allocateBuffer_loop_session in H end.
    match goal with H : freeBuffer_loop _ _ _ = _ |- _ => apply freeBuffer_loop_session in H end.
    simpl in *. congruence.
Qed.

Lemma queueBuffer_session buff init d st d1 :
  queueBuffer buff init d = Some (st, d1) -> mSessionId d1 = mSessionId d.
Proof. unfold queueBuffer, ioctl, call. intros H. unwind; done. Qed.

Lemma dequeueBuffer_session ts d st got d1 :
  dequeueBuffer ts d = Some (st, got, d1) -> mSessionId d1 = mSessionId d.
Proof.
  unfold dequeueBuffer, call. intros H. unwind; try done;
    match goal with H : pool_set _ _ _ = _ |- _ => apply pool_set_session in H end; done.
Qed.

(** The pointer that [dequeueBuffer] hands out is the address of a slot of
    the live array, and the slot carries its index and the session id. *)
Lemma dequeueBuffer_slot ts d p t d1 :
  dequeueBuffer ts d = Some (NO_ERROR, Some (p, t), d1) ->
  allocations d1 = allocations d ∧
  ∃ i b, p = Slot (allocations d) i ∧ deref p d1 = Some b ∧
         mID b = i ∧ mDriverPrivate b = mSessionId d.
Proof.
  unfold dequeueBuffer, call. intros H. unwind;
    match goal with
    | H : pool_set _ _ _ = Some _ |- _ =>
        unfold pool_set in H; apply bind_Some in H as (a & Ha & H);
        apply bind_Some in H as (a1 & Hset & [= <-])
    end; simpl;
    (split; [done|]); eexists _, _; (split; [done|]);
    unfold deref, pool_get; simpl; rewrite decide_True by done;
    rewrite (array_get_set _ _ _ _ Hset); done.
Qed.

Lemma closeDevice_session d : mSessionId (closeDevice d) = mSessionId d.
Proof.
  unfold closeDevice, v4l2_capture_close, ioctl, call.
  repeat (case_match; simplify_eq/=); done.
Qed.

Lemma openDevice_session d r d1 : openDevice d = (r, d1) -> mSessionId d1 = mSessionId d.
Proof.
  unfold openDevice, v4l2_capture_open, v4l2_capture_querycap, v4l2_capture_close, ioctl, call.
  intros H. repeat (case_match; simplify_eq/=); done.
Qed.

Lemma deconfigureDevice_session d r d1 :
  deconfigureDevice d = Some (r, d1) -> mSessionId d1 = mSessionId d.
Proof.
  unfold deconfigureDevice. intros H. unwind;
    match goal with H : freeBuffers _ = _ |- _ => by apply freeBuffers_session in H end.
Qed.

Lemma configureDevice_session m w h n d r d1 :
  configureDevice m w h n d = Some (r, d1) -> mSessionId d1 = mSessionId d.
Proof.
  unfold configureDevice, set_capture_mode, v4l2_capture_s_format, v4l2_capture_g_framerate, ioctl, call.
  intros H. unwind; try done;
    match goal with H : allocateBuffers _ _ = _ |- _ => by apply allocateBuffers_session in H end.
Qed.

Lemma startDevice_loop_session fuel i d ok d1 :
  startDevice_loop fuel i d = Some (ok, d1) -> mSessionId d1 = mSessionId d.
Proof.
  revert i d. induction fuel as [|fuel IH]; simpl; intros i d H.
  - by injection H as _ <-.
  - destruct (decide _); [|by injection H as _ <-].
    apply bind_Some in H as ([st d0] & Hq & H). simpl in H.
    apply queueBuffer_session in Hq.
    destruct (decide _); [by injection H as _ <-|].
    apply IH in H. congruence.
Qed.

Lemma startDevice_session d r d1 : startDevice d = Some (r, d1) -> mSessionId d1 = mSessionId d.
Proof.
  unfold startDevice, ioctl, call. intros H. unwind;
    match goal with H : startDevice_loop _ _ _ = _ |- _ => by apply startDevice_loop_session in H end.
Qed.

Lemma stopDevice_session d d1 : stopDevice d = Some d1 -> mSessionId d1 = mSessionId d.
Proof. unfold stopDevice, ioctl, call. intros H. unwind. done. Qed.

Lemma start_device_in_session m z d st d1 :
  start_device_in m z d = Some (st, d1) -> mSessionId d1 = mSessionId d.
Proof.
  unfold start_device_in, set_zoom. intros H.
  destruct (openDevice d) as [r d0] eqn:Ho. apply openDevice_session in Ho.
  destruct (decide _); [by injection H as _ <-|].
  apply bind_Some in H as ([r2 d2] & Hc & H). apply configureDevice_session in Hc. simpl in H.
  destruct (decide _).
  { injection H as _ <-. rewrite closeDevice_session. congruence. }
  apply bind_Some in H as (d3 & Hz & H).
  assert (d3 = d2) as -> by (destruct z; unwind; done).
  apply bind_Some in H as ([r3 d4] & Hs & H). apply startDevice_session in Hs. simpl in H.
  destruct (decide _).
  - apply bind_Some in H as ([r5 d5] & Hd & H). apply deconfigureDevice_session in Hd.
    injection H as _ <-. rewrite closeDevice_session. congruence.
  - injection H as _ <-. congruence.
Qed.

Lemma stop_device_session d st d1 : stop_device d = Some (st, d1) -> mSessionId d1 = mSessionId d.
Proof.
  unfold stop_device. intros H.
  apply bind_Some in H as (d0 & Hs & H). apply stopDevice_session in Hs.
  apply bind_Some in H as ([r d2] & Hd & H). apply deconfigureDevice_session in Hd.
  injection H as _ <-. rewrite closeDevice_session. congruence.
Qed.

Lemma stop_session d st d1 : stop d = Some (st, d1) -> mSessionId d1 = mSessionId d.
Proof.
  unfold stop, stopPreview, stopRecording, stopCapture. intros H.
  apply bind_Some in H as ([st0 d0] & Hs & H). simpl in H.
  assert (mSessionId d0 = mSessionId d) as <-.
  { destruct (mMode d); try (by apply stop_device_session in Hs). by injection Hs as _ <-. }
  by destruct (decide _); injection H as _ <-.
Qed.



(** The counter of the pool and the buffers the device holds. *)

Lemma tracks_size d : pool_tracks_device d -> 0 <= numBuffers (mBufferPool d).
Proof.
  intros (_ & _ & Ha).
  destruct (bufs (mBufferPool d)); [destruct Ha as (-> & _)|destruct Ha as (-> & _)]; lia.
Qed.

Lemma queueBuffer_tracks buff init d st d1 :
  queue_contract -> pool_tracks_device d ->
  queueBuffer buff init d = Some (st, d1) -> pool_tracks_device d1.
Proof.
  intros Hc Ht. pose proof (tracks_size d Ht) as Hn0.
  destruct Ht as (Hnd & Hint & Ha).
  unfold queueBuffer. intros H. apply bind_Some in H as (cb & _ & H).
  destruct (decide _); [by injection H as _ <-|].
  apply bind_Some in H as (fd & _ & H).
  apply bind_Some in H as (b0 & Hget & H).
  unfold pool_get in Hget. apply bind_Some in Hget as (a & Hbufs & Hget).
  apply array_get_Some in Hget as [Hrange Hl].
  rewrite Hbufs in Ha. destruct Ha as (Hlen & Hidx & Hq & Hb).
  assert (vb_index (vBuff b0) = mID cb) as Hvb by (rewrite (Hidx _ _ Hl); lia).
  unfold ioctl, call in H. simpl in H. rewrite Hvb in H.
  destruct (Hc (trace d)) as (Hcq & _). specialize (Hcq (mID cb)).
  destruct (decide (dev_ret (trace d) (VIDIOC_QBUF (mID cb)) < 0)) as [Hneg|Hpos];
    injection H as _ <-; unfold pool_tracks_device; simpl.
  - rewrite decide_True by done. rewrite Hbufs. done.
  - rewrite decide_False by done.
    assert (mID cb ∉ held (trace d)) as Hfresh by (apply Hcq; lia).
    assert (NoDup (mID cb :: held (trace d))) as Hnd1 by (by constructor).
    assert (∀ i, i ∈ mID cb :: held (trace d) -> 0 <= i < numBuffers (mBufferPool d)) as Hb1.
    { intros i [->|Hi]%elem_of_cons; [lia|auto]. }
    pose proof (NoDup_bounded_length _ _ Hn0 Hnd1 Hb1) as Hsz1. simpl length in Hsz1.
    rewrite Hbufs. split_and!; try done.
    rewrite int32_id; [simpl; lia|]. unfold in_int32 in *. lia.
Qed.

Lemma dequeueBuffer_tracks ts d st got d1 :
  queue_contract -> pool_tracks_device d ->
  dequeueBuffer ts d = Some (st, got, d1) -> pool_tracks_device d1.
Proof.
  intros Hc Ht. pose proof (tracks_size d Ht) as Hn0.
  destruct Ht as (Hnd & Hint & Ha).
  unfold dequeueBuffer. intros H. apply bind_Some in H as (fd & _ & H).
  unfold call in H. simpl in H.
  destruct (Hc (trace d)) as (_ & Hcd).
  destruct (decide (dev_ret (trace d) VIDIOC_DQBUF < 0)) as [Hneg|Hpos].
  { injection H as _ _ <-. unfold pool_tracks_device. simpl. by rewrite decide_True. }
  set (index := dev_out (trace d) VIDIOC_DQBUF) in *.
  assert (index ∈ held (trace d)) as Hin by (apply Hcd; lia).
  apply bind_Some in H as (b0 & Hget & H).
  unfold pool_get in Hget. simpl in Hget. apply bind_Some in Hget as (a & Hbufs & Hget).
  apply array_get_Some in Hget as [Hrange Hl].
  rewrite Hbufs in Ha. destruct Ha as (Hlen & Hidx & Hq & Hb).
  pose proof (NoDup_bounded_length _ _ Hn0 Hnd Hb) as Hsz.
  apply bind_Some in H as (d2 & Hset & H).
  unfold pool_set in Hset. simpl in Hset. rewrite Hbufs in Hset. simpl in Hset.
  apply bind_Some in Hset as (a1 & Hset & Hd2). injection Hd2 as <-.
  pose proof (array_set_length _ _ _ _ Hset) as Hlen1.
  assert (∀ (i : nat) b, a1 !! i = Some b -> vb_index (vBuff b) = Z.of_nat i) as Hidx1.
  { unfold array_set in Hset. destruct (decide _); [|done]. injection Hset as <-.
    intros i b. destruct (decide (i = Z.to_nat index)) as [->|Hne].
    - rewrite list_lookup_insert_eq by lia. intros [= <-]. simpl. by apply Hidx.
    - rewrite list_lookup_insert_ne by done. apply Hidx. }
  pose proof (filter_ne_length _ _ Hnd Hin) as Hfl.
  assert (Hgoal : ∀ tr1,
            held tr1 = filter (λ j, j ≠ index) (held (trace d)) ->
            pool_tracks_device
              (mk (mMode d) (mSessionId d)
                  (mkPool (numBuffers (mBufferPool d))
                          (int32 (numBuffersQueued (mBufferPool d) - 1)) (Some a1))
                  (mConfig d) (mCameraSensor d) tr1 (allocations d))).
  { intros tr1 Htr1. unfold pool_tracks_device. simpl. rewrite Htr1.
    split_and!; try done.
    - by apply NoDup_filter.
    - lia.
    - rewrite int32_id; [lia|]. unfold in_int32 in *.
      assert (0 < Z.of_nat (length (held (trace d)))); [|lia].
      destruct (held (trace d)); [by apply elem_of_nil in Hin|simpl; lia].
    - intros i [_ Hi]%list_elem_of_filter. auto. }
  destruct ts; simpl in H; injection H as _ _ <-; apply Hgoal; simpl;
    by rewrite decide_False by done.
Qed.

Lemma freeBuffer_loop_frame fuel i d d1 :
  freeBuffer_loop fuel i d = Some d1 ->
  mBufferPool d1 = mBufferPool d ∧ held (trace d1) = held (trace d).
Proof.
  revert i d. induction fuel as [|fuel IH]; simpl; intros i d H.
  - by injection H as <-.
  - destruct (decide _); [|by injection H as <-].
    apply bind_Some in H as (d0 & Hf & H).
    apply IH in H as [-> ->].
    unfold freeBuffer in Hf. apply bind_Some in Hf as (b & _ & Hf).
    injection Hf as <-. done.
Qed.

Lemma freeBuffers_tracks d st d1 :
  pool_tracks_device d -> freeBuffers d = Some (st, d1) -> pool_tracks_device d1.
Proof.
  intros Ht. unfold freeBuffers.
  destruct (bufs (mBufferPool d)) as [a|] eqn:Hbufs; [|by intros [= _ <-]].
  intros H. apply bind_Some in H as (fd & _ & H).
  apply bind_Some in H as (d0 & Hfree & H).
  apply freeBuffer_loop_frame in Hfree as [_ Hheld].
  injection H as _ <-. unfold pool_tracks_device. simpl.
  destruct Ht as (Hnd & _). rewrite Hheld.
  split_and!; try done.
  destruct (decide _); [done|apply NoDup_nil_2].
Qed.

Lemma allocateBuffer_effect i d st d1 :
  allocateBuffer i d = Some (st, d1) ->
  ∃ a b,
    bufs (mBufferPool d) = Some a ∧ 0 <= i < Z.of_nat (length a) ∧
    mBufferPool d1 = mkPool (numBuffers (mBufferPool d)) (numBuffersQueued (mBufferPool d))
                            (Some (<[Z.to_nat i := b]> a)) ∧
    vb_index (vBuff b) = i ∧
    held (trace d1) = held (trace d).
Proof.
  unfold allocateBuffer. intros H.
  apply bind_Some in H as (b0 & Hget & H).
  unfold pool_get in Hget. apply bind_Some in Hget as (a & Hbufs & Hget).
  apply array_get_Some in Hget as [Hrange _].
  unfold call in H. simpl in H.
  destruct (decide _).
  - apply bind_Some in H as (d2 & Hset & H). injection H as _ <-.
    unfold pool_set in Hset. simpl in Hset. rewrite Hbufs in Hset. simpl in Hset.
    unfold array_set in Hset. rewrite decide_True in Hset by done. simpl in Hset.
    injection Hset as <-. simpl. eexists a, _. split_and!; try done; lia.
  - apply bind_Some in H as (d2 & Hset & H). injection H as _ <-.
    unfold pool_set in Hset. simpl in Hset. rewrite Hbufs in Hset. simpl in Hset.
    unfold array_set in Hset. rewrite decide_True in Hset by done. simpl in Hset.
    injection Hset as <-. simpl. eexists a, _. split_and!; try done; lia.
Qed.

Lemma allocateBuffer_loop_effect fuel (k : nat) d st d1 a :
  bufs (mBufferPool d) = Some a ->
  numBuffers (mBufferPool d) = Z.of_nat k ->
  in_int32 (Z.of_nat (k + fuel)) ->
  (∀ (j : nat) b, (j < k)%nat -> a !! j = Some b -> vb_index (vBuff b) = Z.of_nat j) ->
  allocateBuffer_loop fuel (Z.of_nat k) d = Some (st, d1) ->
  held (trace d1) = held (trace d) ∧
  numBuffersQueued (mBufferPool d1) = numBuffersQueued (mBufferPool d) ∧
  ∃ a1, bufs (mBufferPool d1) = Some a1 ∧ length a1 = length a ∧
        (st = NO_ERROR ->
         numBuffers (mBufferPool d1) = Z.of_nat (k + fuel) ∧
         ∀ (j : nat) b, (j < k + fuel)%nat -> a1 !! j = Some b -> vb_index (vBuff b) = Z.of_nat j).
Proof.
  revert k d a. induction fuel as [|fuel IH]; simpl; intros k d a Hbufs Hnum Hint Hidx H.
  - injection H as <- <-. split_and!; try done. exists a. split_and!; try done.
    intros _. rewrite Nat.add_0_r. done.
  - apply bind_Some in H as ([st0 d0] & Ha & H). simpl in H.
    apply allocateBuffer_effect in Ha as (a' & b' & Hbufs' & Hrange & Hpool & Hvb & Hheld).
    rewrite Hbufs in Hbufs'. injection Hbufs' as <-.
    destruct (decide (st0 ≠ NO_ERROR)) as [Hne|Heq].
    + injection H as <- <-. rewrite Hpool. simpl. split_and!; try done.
      eexists. split_and!; try done. by rewrite length_insert.
    + rewrite Hpool in H. simpl in H. rewrite Hnum in H.
      rewrite int32_id in H by (unfold in_int32 in *; lia).
      replace (Z.of_nat k + 1) with (Z.of_nat (S k)) in H by lia.
      rewrite Nat2Z.id in H.
      apply (IH (S k) _ (<[k := b']> a)) in H; simpl.
      * destruct H as (Hh & Hq & a1 & Hb1 & Hl1 & Hok).
        rewrite Hh, Hq. simpl. split_and!; try done.
        exists a1. split_and!; try done.
        { by rewrite Hl1, length_insert. }
        { intros Hst. specialize (Hok Hst). by replace (k + S fuel)%nat with (S k + fuel)%nat by lia. }
      * done.
      * lia.
      * unfold in_int32 in *. lia.
      * intros j b Hj.
        destruct (decide (j = k)) as [->|Hjk].
        { rewrite list_lookup_insert_eq by lia. intros [= <-]. done. }
        { rewrite list_lookup_insert_ne by done. apply Hidx. lia. }
Qed.

Lemma allocateBuffers_tracks n d st d1 :
  in_int32 n -> pool_tracks_device d ->
  allocateBuffers n d = Some (st, d1) -> pool_tracks_device d1.
Proof.
  intros Hn Ht. unfold allocateBuffers.
  destruct (bufs (mBufferPool d)) as [a|] eqn:Hbufs; [by intros [= _ <-]|].
  intros H. apply bind_Some in H as (fd & _ & H).
  unfold ioctl, call in H. simpl in H.
  destruct Ht as (Hnd & Hint & Ha). rewrite Hbufs in Ha. destruct Ha as [Hnum0 Hq0].
  destruct (decide (dev_ret (trace d) (VIDIOC_REQBUFS n) < 0)) as [Hneg|Hpos].
  { injection H as _ <-. unfold pool_tracks_device. simpl. rewrite decide_True by done.
    by rewrite Hbufs. }
  destruct (decide (n < 0)); [done|].
  apply bind_Some in H as ([st3 d3] & Hloop & H). simpl in H.
  apply (allocateBuffer_loop_effect _ 0 _ _ _ (replicate (Z.to_nat n) blank_buffer)) in Hloop;
    simpl; [|done|done|by rewrite Z2Nat.id by lia|intros j b Hj; lia].
  simpl in Hloop. rewrite decide_False in Hloop by done.
  destruct Hloop as (Hh & Hq3 & a1 & Hb1 & Hl1 & Hok).
  rewrite length_replicate in Hl1.
  destruct (decide (st3 = NO_ERROR)) as [->|Hne].
  - injection H as _ <-. destruct (Hok eq_refl) as [Hnum Hidx].
    unfold pool_tracks_device. rewrite Hh, Hq3, Hnum, Hb1. simpl.
    rewrite Z2Nat.id by lia. split_and!; try done; try lia.
    + apply NoDup_nil_2.
    + intros j b Hj. apply Hidx; [|done]. apply lookup_lt_Some in Hj. lia.
    + by intros i ?%elem_of_nil.
  - apply bind_Some in H as (d4 & Hfree & H). injection H as _ <-.
    apply freeBuffer_loop_frame in Hfree as [_ Hh4].
    unfold pool_tracks_device. simpl. rewrite Hh4, Hh. simpl.
    split_and!; try done. apply NoDup_nil_2.
Qed.

Lemma pool_run_tracks ops d d1 :
  queue_contract -> Forall PoolOp_wf ops -> pool_tracks_device d ->
  pool_run ops d = Some d1 -> pool_tracks_device d1.
Proof.
  intros Hc Hwf. revert d. induction Hwf as [|op ops Hop Hwf IH]; simpl; intros d Ht H.
  - by injection H as <-.
  - apply bind_Some in H as (d0 & Hstep & H). apply (IH d0); [|done].
    destruct op; simpl in Hstep; apply fmap_Some in Hstep as ([st d2] & Hstep & ->); simpl.
    + by eapply allocateBuffers_tracks.
    + by eapply freeBuffers_tracks.
    + by eapply queueBuffer_tracks.
    + destruct st as [st got]. by eapply dequeueBuffer_tracks.
Qed.


(** C8.  The device is taken to honour the contract of its queue: it accepts
    a buffer only if it does not hold it, and it completes a dequeue only
    with a buffer it holds.  Then after every sequence of [allocateBuffers],
    [freeBuffers], [queueBuffer] and [dequeueBuffer] operations that starts
    with an empty pool, the initial fill of [startDevice] included, the
    counter of queued buffers lies between 0 and the size of the pool, and
    together with the number of buffers of the pool that the device does not
    hold, which are the ones out with the consumers, it makes up the size of
    the pool; while the pool has its array the counter is the number of
    buffers the device holds. *)
Theorem pool_counter_tracks_device ops d0 d :
  queue_contract ->
  Forall PoolOp_wf ops ->
  mBufferPool d0 = empty_pool ->
  held (trace d0) = [] ->
  pool_run ops d0 = Some d ->
  0 <= numBuffersQueued (mBufferPool d) <= numBuffers (mBufferPool d) ∧
  numBuffersQueued (mBufferPool d)
  + Z.of_nat (length (not_held (numBuffers (mBufferPool d)) (trace d)))
  = numBuffers (mBufferPool d) ∧
  (is_Some (bufs (mBufferPool d)) ->
   numBuffersQueued (mBufferPool d) = Z.of_nat (length (held (trace d)))).
Proof.
  intros Hc Hwf Hpool Hheld Hrun.
  assert (pool_tracks_device d0) as Ht0.
  { unfold pool_tracks_device. rewrite Hpool, Hheld. simpl. split_and!; try done.
    apply NoDup_nil_2. }
  pose proof (pool_run_tracks _ _ _ Hc Hwf Ht0 Hrun) as Ht.
  pose proof (tracks_size d Ht) as Hn.
  destruct Ht as (Hnd & _ & Ha).
  destruct (bufs (mBufferPool d)) as [a|].
  - destruct Ha as (_ & _ & Hq & Hb).
    pose proof (NoDup_bounded_length _ _ Hn Hnd Hb) as Hsz.
    split; [lia|]. split; [|done].
    rewrite Hq. unfold not_held. by apply not_held_length.
  - destruct Ha as [Hnum Hq]. rewrite Hnum, Hq. split; [lia|]. split; [done|].
    by intros [? ?].
Qed.

End DriverFacts.

(** ** The control thread *)

Section CoupledBuffers.
Context `{Dev : !Device, Hos : !Host, Col : !ControlThread.Collaborators}.
Import ControlThread.



















End CoupledBuffers.

Section Capture.
Context `{Dev : !Device, Hos : !Host, Col : !ControlThread.Collaborators}.
Import CameraDriver.

Lemma freeBuffer_loop_total fuel i d a :
  bufs (mBufferPool d) = Some a -> numBuffers (mBufferPool d) = Z.of_nat (length a) ->
  0 <= i -> fuel = Z.to_nat (numBuffers (mBufferPool d) - i) ->
  ∃ d1, freeBuffer_loop fuel i d = Some d1 ∧
        mBufferPool d1 = mBufferPool d ∧ mCameraSensor d1 = mCameraSensor d ∧
        mMode d1 = mMode d ∧
        trace d1 = reverse (CB_releaseMemory <$> seqZ i (Z.of_nat fuel)) ++ trace d.
Proof.
  revert i d. induction fuel as [|fuel IH]; intros i d Ha Hn Hi Hfuel; simpl.
  - by exists d.
  - rewrite decide_True by lia.
    unfold freeBuffer, pool_get. rewrite Ha. simpl.
    unfold array_get. rewrite decide_True by done.
    destruct (lookup_lt_is_Some_2 a (Z.to_nat i)) as [b Hb]; [lia|].
    rewrite Hb. simpl.
    edestruct (IH (i + 1)) as (d1 & Hloop & Hp & Hs & Hm & Ht); [..|rewrite Hloop]; simpl; try done; try lia.
    exists d1. split_and!; try done.
    rewrite Ht. simpl.
    replace (Z.of_nat (S fuel)) with (Z.succ (Z.of_nat fuel)) by lia.
    rewrite (seqZ_cons i) by lia. rewrite fmap_cons, reverse_cons, <- app_assoc. simpl.
    replace (Z.pred (Z.succ (Z.of_nat fuel))) with (Z.of_nat fuel) by lia.
    by replace (Z.succ i) with (i + 1) by lia.
Qed.

(** [stop] on a streaming driver: the stream is switched off, every buffer
    released, the buffers requested back from the device, the device
    closed. *)
Lemma stop_total d fd a :
  mMode d ≠ MODE_NONE -> mCameraSensor d = Some fd -> 0 <= fd ->
  bufs (mBufferPool d) = Some a -> numBuffers (mBufferPool d) = Z.of_nat (length a) ->
  ∃ d1, stop d = Some (NO_ERROR, d1) ∧ mMode d1 = MODE_NONE ∧ mBufferPool d1 = empty_pool ∧
        trace d1 = SYS_close fd :: VIDIOC_REQBUFS 0 ::
                   reverse (CB_releaseMemory <$> seqZ 0 (numBuffers (mBufferPool d)))
                   ++ VIDIOC_STREAMOFF :: trace d.
Proof.
  intros Hmode Hfd Hpos Ha Hn.
  assert (Hdev : ∃ d1, stop_device d = Some (NO_ERROR, d1) ∧ mBufferPool d1 = empty_pool ∧
            trace d1 = SYS_close fd :: VIDIOC_REQBUFS 0 ::
                       reverse (CB_releaseMemory <$> seqZ 0 (numBuffers (mBufferPool d)))
                       ++ VIDIOC_STREAMOFF :: trace d).
  { unfold stop_device, stopDevice. rewrite Hfd. simpl.
    unfold deconfigureDevice, freeBuffers. simpl. rewrite Ha, Hfd. simpl.
    unfold free_all. simpl.
    edestruct (freeBuffer_loop_total (Z.to_nat (numBuffers (mBufferPool d))) 0
                 (mk (mMode d) (mSessionId d) (mBufferPool d) (mConfig d) (Some fd)
                     (VIDIOC_STREAMOFF :: trace d) (allocations d))) as (d1 & Hloop & Hp & Hs & Hm & Ht);
      [done|done|lia|simpl; f_equal; lia|].
    rewrite Hloop. simpl. unfold closeDevice. simpl. rewrite Hs. simpl.
    rewrite decide_False by lia. unfold v4l2_capture_close. rewrite decide_False by lia.
    simpl. destruct (decide _); simpl; (eexists; split; [done|]; split; [done|]); simpl;
      rewrite Ht; simpl; by rewrite Z2Nat.id by lia. }
  destruct Hdev as (d1 & Hstop & Hp & Ht).
  unfold stop. unfold stopPreview, stopRecording, stopCapture.
  destruct (mMode d); [done|..]; rewrite Hstop; simpl; by eexists.
Qed.

Lemma putSnapshot_keeps buff d status d1 :
  putSnapshot buff d = Some (status, d1) ->
  mMode d1 = mMode d ∧ bufs (mBufferPool d1) = bufs (mBufferPool d) ∧
  numBuffers (mBufferPool d1) = numBuffers (mBufferPool d) ∧
  (trace d1 = trace d ∨ ∃ i, trace d1 = VIDIOC_QBUF i :: trace d).
Proof.
  unfold putSnapshot, queueBuffer. intros H. unwind; eauto 6.
Qed.

Import ControlThread.

(** C4, as amended.  In the capture state the handler of [pictureDone]
    gives the snapshot buffer back to the driver and nothing else: its
    status is that of [putSnapshot], or [INVALID_OPERATION] (the status of
    [putThumbnail]) when [putSnapshot] succeeded; the state stays
    [STATE_CAPTURE], the driver stays in capture mode with its buffers, and
    at most one [VIDIOC_QBUF] reaches the device.  The device is stopped,
    its buffers released and requested back, the device closed and the
    state set to [STATE_STOPPED] by [stopCapture], once the picture thread
    has flushed its buffers; the handler of [startPreview] runs
    [stopCapture] first and then starts the preview from the stopped
    state. *)
Theorem capture_ends_in_stopCapture ct snapshotBuf postviewBuf fd a :
  mState ct = STATE_CAPTURE ->
  mMode (mDriver ct) = MODE_CAPTURE ->
  mCameraSensor (mDriver ct) = Some fd -> 0 <= fd ->
  bufs (mBufferPool (mDriver ct)) = Some a ->
  numBuffers (mBufferPool (mDriver ct)) = Z.of_nat (length a) ->
  call_ret (calls ct) PictureThread_flushBuffers = NO_ERROR ->
  handleMessagePictureDone snapshotBuf postviewBuf ct
  = (λ '(status, d), (if decide (status = NO_ERROR) then INVALID_OPERATION else status,
                      set_mDriver ct d))
    <$> putSnapshot snapshotBuf (mDriver ct) ∧
  (∀ status ct1,
     handleMessagePictureDone snapshotBuf postviewBuf ct = Some (status, ct1) ->
     mState ct1 = STATE_CAPTURE ∧ mMode (mDriver ct1) = MODE_CAPTURE ∧
     bufs (mBufferPool (mDriver ct1)) = Some a ∧
     (trace (mDriver ct1) = trace (mDriver ct) ∨
      ∃ i, trace (mDriver ct1) = VIDIOC_QBUF i :: trace (mDriver ct))) ∧
  ∃ ct1,
    stopCapture ct = Some (NO_ERROR, ct1) ∧
    mState ct1 = STATE_STOPPED ∧ mMode (mDriver ct1) = MODE_NONE ∧
    mBufferPool (mDriver ct1) = empty_pool ∧
    trace (mDriver ct1)
    = SYS_close fd :: VIDIOC_REQBUFS 0 ::
      reverse (CB_releaseMemory <$> seqZ 0 (Z.of_nat (length a)))
      ++ VIDIOC_STREAMOFF :: trace (mDriver ct) ∧
    handleMessageStartPreview ct
    = (let ct2 := (stopFaceDetection false ct1).2 in
       '(status, ct3) ← startPreviewCore (isParameterSet KEY_RECORDING_HINT ct2) ct2;
       ct4 ← reply MESSAGE_ID_START_PREVIEW status ct3;
       Some (status, ct4)).
Proof.
  intros Hstate Hmode Hfd Hpos Ha Hn Hflush.
  assert (Hdone : handleMessagePictureDone snapshotBuf postviewBuf ct
            = (λ '(status, d), (if decide (status = NO_ERROR) then INVALID_OPERATION else status,
                                set_mDriver ct d))
              <$> putSnapshot snapshotBuf (mDriver ct)).
  { unfold handleMessagePictureDone. rewrite Hstate. simpl.
    destruct (putSnapshot snapshotBuf (mDriver ct)) as [[status d]|]; simpl; [|done].
    unfold putThumbnail.
    destruct (decide (status = NO_ERROR)) as [->|Hne].
    - rewrite decide_False by (intros [?|?]; discriminate).
      rewrite decide_True by (right; discriminate).
      by rewrite decide_False by (intros ?; done).
    - destruct (decide (status = DEAD_OBJECT ∨ _)); [done|].
      rewrite decide_True by (by left). by rewrite decide_True. }
  split; [done|]. split.
  - intros status ct1. rewrite Hdone. intros Hsome.
    apply fmap_Some in Hsome as ([st d] & Hput & [= -> ->]).
    apply putSnapshot_keeps in Hput as (Hm & Hb & _ & Ht). simpl.
    by rewrite Hm, Hb.
  - destruct (stop_total (mDriver ct) fd a) as (d1 & Hstop & Hm1 & Hp1 & Ht1);
      [by rewrite Hmode|done..|].
    assert (Hsc : stopCapture ct
              = Some (NO_ERROR,
                      set_mState (set_mDriver (invoke PictureThread_flushBuffers ct).2 d1)
                        STATE_STOPPED)).
    { unfold stopCapture. rewrite decide_False by (by rewrite Hstate; intros []).
      unfold invoke. rewrite Hflush. simpl. rewrite Hstop. done. }
    eexists. split; [exact Hsc|]. split_and!; try done.
    + simpl. by rewrite Ht1, Hn.
    + unfold handleMessageStartPreview. rewrite decide_True by done. rewrite Hsc. done.
Qed.
End Capture.

Section Facade.
Context `{Dev : !Device, Hos : !Host, Col : !ControlThread.Collaborators}.
Import ControlThread.



Lemma reply_sets_slot id status ct ct1 :
  reply id status ct = Some ct1 -> reply_slot id ct1 = Some status.
Proof.
  unfold reply, MessageQueue.reply, reply_slot. intros H.
  apply bind_Some in H as (q & H & [= <-]).
  apply bind_Some in H as (r & Hr & [= <-]). simpl.
  by apply array_get_set with (a := MessageQueue.mReplyStatus (mMessageQueue ct)).
Qed.




End Facade.

Section DynamicParameters.
Context `{Dev : !Device, Hos : !Host, Col : !ControlThread.Collaborators}.
Import ControlThread.











End DynamicParameters.

Section EventLoop.
Context `{Dev : !Device, Hos : !Host, Col : !ControlThread.Collaborators}.
Import ControlThread.

Lemma receive_oldest (q : MessageQueue.t Message) :
  MessageQueue.isEmpty q = false ->
  ∃ msg rest, MessageQueue.mList q = rest ++ [msg] ∧
              MessageQueue.receive q = Some (msg, MessageQueue.set_mList q rest).
Proof.
  unfold MessageQueue.isEmpty, MessageQueue.size, MessageQueue.receive.
  destruct (MessageQueue.mList q) as [|m l] using rev_ind; [done|]. intros _.
  exists m, l. split; [done|]. by rewrite pop_back_snoc.
Qed.

(** Outside the capture state a pass through the loop serves the queue
    first: with a command in the queue it handles the oldest one; with
    none, it takes frames from the driver if the session streams and the
    driver has data, and waits for a command otherwise. *)
Theorem event_loop_serves_queue_first ct :
  mState ct ≠ STATE_CAPTURE ->
  (MessageQueue.isEmpty (mMessageQueue ct) = false ->
   ∃ msg rest,
     MessageQueue.mList (mMessageQueue ct) = rest ++ [msg] ∧
     threadLoop_body ct
     = '(status, ct1) ← dispatch msg
                          (set_mMessageQueue ct (MessageQueue.set_mList (mMessageQueue ct) rest));
       Some (Executes (Handled msg status ct1))) ∧
  (MessageQueue.isEmpty (mMessageQueue ct) = true ->
   if bool_decide (mState ct ≠ STATE_STOPPED) && CameraDriver.dataAvailable (mDriver ct)
   then ∀ it, threadLoop_body ct = Some it -> ∃ status ct1, it = Dequeues status ct1
   else threadLoop_body ct = Some (Executes WaitsInReceive)).
Proof.
  intros Hstate. split.
  - intros Hq. destruct (receive_oldest _ Hq) as (msg & rest & Hl & Hr).
    exists msg, rest. split; [done|].
    assert (Hw : Executes <$> waitForAndExecuteMessage ct
                 = '(status, ct1) ← dispatch msg
                     (set_mMessageQueue ct (MessageQueue.set_mList (mMessageQueue ct) rest));
                   Some (Executes (Handled msg status ct1))).
    { unfold waitForAndExecuteMessage. rewrite Hr.
      by destruct (dispatch msg _) as [[status ct1]|]. }
    unfold threadLoop_body. rewrite Hq. simpl. by destruct (mState ct).
  - intros Hq.
    assert (Hw : waitForAndExecuteMessage ct = Some WaitsInReceive).
    { unfold waitForAndExecuteMessage, MessageQueue.receive.
      unfold MessageQueue.isEmpty, MessageQueue.size in Hq.
      by destruct (MessageQueue.mList (mMessageQueue ct)). }
    unfold threadLoop_body. rewrite Hq, Hw. simpl.
    destruct (mState ct); simpl; try done;
      destruct (CameraDriver.dataAvailable (mDriver ct)); simpl; try done;
      intros it Hit; unwind; eauto.
Qed.
End EventLoop.

(** ** The message queue: removal and replies *)

Section MessageQueueSlots.
Context {M : Type} (msg_id : M -> Z).
Implicit Types (q : MessageQueue.t M) (l : list M).

(** [remove] on a queue that holds a command: the commands of other kinds
    stay, in their order; the erased ones go to the end of [vect], front of
    the queue first; no reply slot but that of the kind is written, and none
    at all on a queue without reply slots. *)
Theorem remove_keeps_the_other_commands (id : Z) (vect : option (list M)) q :
  MessageQueue.mList q ≠ [] ->
  (0 < MessageQueue.mNumReply q -> 0 <= id < Z.of_nat (length (MessageQueue.mReplyStatus q))) ->
  ∃ q1,
    MessageQueue.remove msg_id id vect q
    = Some (NO_ERROR,
            (λ v, v ++ filter (λ msg, msg_id msg = id) (MessageQueue.mList q)) <$> vect, q1) ∧
    MessageQueue.mList q1 = filter (λ msg, msg_id msg ≠ id) (MessageQueue.mList q) ∧
    MessageQueue.mNumReply q1 = MessageQueue.mNumReply q ∧
    (∀ j, j ≠ id ->
          array_get (MessageQueue.mReplyStatus q1) j = array_get (MessageQueue.mReplyStatus q) j) ∧
    (MessageQueue.mNumReply q <= 0 -> MessageQueue.mReplyStatus q1 = MessageQueue.mReplyStatus q).
Proof.
  intros Hl Hid. unfold MessageQueue.remove, MessageQueue.isEmpty, MessageQueue.size.
  destruct (MessageQueue.mList q) as [|m l] eqn:El; [done|]. simpl negb. cbv iota.
  rewrite erase_matching_filter.
  destruct (decide (0 < MessageQueue.mNumReply q)) as [Hn|Hn].
  - unfold MessageQueue.reply. simpl.
    destruct (array_set_is_Some (MessageQueue.mReplyStatus q) id INVALID_OPERATION (Hid Hn))
      as [r Hr].
    rewrite Hr. simpl. eexists. split; [done|]. simpl. split_and!; try done.
    + intros j Hj. by apply array_set_other with (i := id) (x := INVALID_OPERATION).
    + intros ?. lia.
  - simpl. eexists. split; [done|]. by simpl.
Qed.

(** [reply] writes one slot: the sender that waits on it is woken with the
    status, unless the status is [WOULD_BLOCK], on which it goes on waiting;
    the senders on the other slots and the queued commands are left as they
    are. *)
Theorem reply_wakes_its_sender_only (replyId : Z) (status : status_t) q :
  0 <= replyId < Z.of_nat (length (MessageQueue.mReplyStatus q)) ->
  ∃ q1,
    MessageQueue.reply replyId status q = Some q1 ∧
    MessageQueue.mList q1 = MessageQueue.mList q ∧
    MessageQueue.send_wait replyId q1
    = Some (if decide (status = WOULD_BLOCK) then MessageQueue.Blocked
            else MessageQueue.Woken status) ∧
    ∀ j, j ≠ replyId -> MessageQueue.send_wait j q1 = MessageQueue.send_wait j q.
Proof.
  intros Hid. unfold MessageQueue.reply.
  destruct (array_set_is_Some (MessageQueue.mReplyStatus q) replyId status Hid) as [r Hr].
  rewrite Hr. simpl. eexists. split; [done|]. split; [done|].
  unfold MessageQueue.send_wait. simpl. split.
  - by rewrite (array_get_set _ _ _ _ Hr).
  - intros j Hj. by rewrite (array_set_other _ _ _ _ _ Hr Hj).
Qed.
End MessageQueueSlots.

(** ** The driver's sessions *)

Section DriverSessions.
Context `{Dev : !Device}.
Import CameraDriver.

Lemma same_device_trans d d1 d2 : same_device d d1 -> same_device d1 d2 -> same_device d d2.
Proof. unfold same_device. intros [-> ->] [-> ->]. done. Qed.

Lemma pool_set_same i b d d1 : pool_set i b d = Some d1 -> same_device d d1.
Proof. unfold pool_set. intros H. unwind. done. Qed.

Lemma freeBuffer_loop_same fuel i d d1 : freeBuffer_loop fuel i d = Some d1 -> same_device d d1.
Proof.
  revert i d. induction fuel as [|fuel IH]; simpl; intros i d H.
  - by injection H as <-.
  - destruct (decide _); [|by injection H as <-].
    apply bind_Some in H as (d0 & Hf & H). apply IH in H.
    unfold freeBuffer, ioctl, call in Hf. unwind. done.
Qed.

Lemma freeBuffers_same d st d1 : freeBuffers d = Some (st, d1) -> same_device d d1.
Proof.
  unfold freeBuffers, free_all, ioctl, call. intros H. unwind; try done.
  match goal with H : freeBuffer_loop _ _ _ = _ |- _ => apply freeBuffer_loop_same in H end.
  done.
Qed.

Lemma allocateBuffer_same i d st d1 : allocateBuffer i d = Some (st, d1) -> same_device d d1.
Proof.
  unfold allocateBuffer, call. intros H. unwind;
    match goal with H : pool_set _ _ _ = _ |- _ => apply pool_set_same in H end; done.
Qed.

Lemma allocateBuffer_loop_same fuel i d st d1 :
  allocateBuffer_loop fuel i d = Some (st, d1) -> same_device d d1.
Proof.
  revert i d. induction fuel as [|fuel IH]; simpl; intros i d H.
  - by injection H as _ <-.
  - apply bind_Some in H as ([st0 d0] & Ha & H). simpl in H.
    apply allocateBuffer_same in Ha.
    destruct (decide _); [by injection H as _ <-|].
    apply IH in H. by apply (same_device_trans _ _ _ Ha).
Qed.

Lemma queueBuffer_same buff init d st d1 : queueBuffer buff init d = Some (st, d1) -> same_device d d1.
Proof. unfold queueBuffer, ioctl, call. intros H. unwind; done. Qed.

Lemma startDevice_loop_same fuel i d ok d1 :
  startDevice_loop fuel i d = Some (ok, d1) -> same_device d d1.
Proof.
  revert i d. induction fuel as [|fuel IH]; simpl; intros i d H.
  - by injection H as _ <-.
  - destruct (decide _); [|by injection H as _ <-].
    apply bind_Some in H as ([st d0] & Hq & H). simpl in H.
    apply queueBuffer_same in Hq.
    destruct (decide _); [by injection H as _ <-|].
    apply IH in H. by apply (same_device_trans _ _ _ Hq).
Qed.

Lemma closeDevice_outcome d :
  mBufferPool (closeDevice d) = mBufferPool d ∧ mMode (closeDevice d) = mMode d ∧
  device_closed (closeDevice d).
Proof.
  unfold closeDevice, v4l2_capture_close, ioctl, call, device_closed.
  destruct (mCameraSensor d) as [fd|] eqn:Hfd.
  2: { split_and!; try done; intros fd Hc; congruence. }
  destruct (decide (fd < 0)).
  - split_and!; try done; intros fd1 Hc; assert (fd1 = fd) by congruence; lia.
  - simpl. destruct (decide _); simpl; split_and!; try done;
      intros ? [= <-]; lia.
Qed.

Lemma openDevice_outcome d r d1 :
  openDevice d = (r, d1) ->
  mBufferPool d1 = mBufferPool d ∧ mMode d1 = mMode d ∧
  (r < 0 -> device_closed d1) ∧
  (0 <= r -> mCameraSensor d1 = Some r).
Proof.
  unfold openDevice, v4l2_capture_open, v4l2_capture_querycap, v4l2_capture_close, ioctl, call,
    device_closed.
  intros H. destruct (mCameraSensor d) as [fd0|] eqn:Hfd.
  - destruct (decide (0 <= fd0)).
    + injection H as <- <-. split_and!; try done. lia.
    + repeat (case_match; simplify_eq/=); split_and!; try done; try lia; unfold ENODEV, EFAULT;
        intros; try lia; simplify_eq/=; try lia; by f_equal.
  - injection H as <- <-. unfold ENODEV. split_and!; try done.
    intros _ fd Hc. congruence.
Qed.

Lemma free_all_same d d1 : free_all d = Some d1 -> same_device d d1.
Proof. apply freeBuffer_loop_same. Qed.

Lemma allocateBuffers_outcome n d st d1 :
  mBufferPool d = empty_pool -> in_int32 n ->
  allocateBuffers n d = Some (st, d1) ->
  same_device d d1 ∧
  (st ≠ NO_ERROR -> mBufferPool d1 = empty_pool) ∧
  (st = NO_ERROR ->
   0 <= n ∧ numBuffers (mBufferPool d1) = n ∧ numBuffersQueued (mBufferPool d1) = 0 ∧
   ∃ a, bufs (mBufferPool d1) = Some a ∧ Z.of_nat (length a) = n).
Proof.
  intros Hpool Hn. unfold allocateBuffers. rewrite Hpool. simpl.
  intros H. apply bind_Some in H as (fd & _ & H).
  unfold ioctl, call in H. simpl in H.
  destruct (decide (dev_ret (trace d) (VIDIOC_REQBUFS n) < 0)).
  { injection H as <- <-. split_and!; try done. }
  destruct (decide (n < 0)); [done|].
  apply bind_Some in H as ([st3 d3] & Hloop & H). simpl in H.
  pose proof (allocateBuffer_loop_same _ _ _ _ _ Hloop) as Hsame.
  apply (allocateBuffer_loop_effect _ 0 _ _ _ (replicate (Z.to_nat n) blank_buffer)) in Hloop;
    simpl; [|done|by rewrite Hpool|by rewrite Z2Nat.id by lia|intros j b Hj; lia].
  simpl in Hloop. rewrite Hpool in Hloop. simpl in Hloop.
  destruct Hloop as (_ & Hq3 & a1 & Hb1 & Hl1 & Hok).
  rewrite length_replicate in Hl1.
  destruct (decide (st3 = NO_ERROR)) as [->|Hne].
  - injection H as <- <-. destruct (Hok eq_refl) as [Hnum _].
    split_and!; try done. intros _. split_and!; try lia.
    exists a1. split; [done|]. lia.
  - apply bind_Some in H as (d4 & Hfree & H). injection H as <- <-.
    apply free_all_same in Hfree. split_and!; try done.
    unfold same_device in *. simpl in *. destruct Hsame as [Hm Hs], Hfree as [Hm4 Hs4].
    split; congruence.
Qed.

Lemma configureDevice_outcome deviceMode w h n d r d1 :
  mBufferPool d = empty_pool -> in_int32 n ->
  configureDevice deviceMode w h n d = Some (r, d1) ->
  same_device d d1 ∧
  (r < 0 -> mBufferPool d1 = empty_pool) ∧
  (0 <= r ->
   0 <= n ∧ numBuffers (mBufferPool d1) = n ∧ numBuffersQueued (mBufferPool d1) = 0 ∧
   ∃ a, bufs (mBufferPool d1) = Some a ∧ Z.of_nat (length a) = n).
Proof.
  intros Hpool Hn. unfold configureDevice.
  destruct (decide (w <= 0 ∨ h <= 0)).
  { intros [= <- <-]. by split_and!. }
  intros H. apply bind_Some in H as (fd & _ & H).
  apply bind_Some in H as ([ret d0] & Hmode & H). simpl in H.
  unfold set_capture_mode, ioctl, call in Hmode. simpl in Hmode.
  apply bind_Some in Hmode as (fd' & _ & [= <- <-]).
  destruct (decide _) as [Hneg|_].
  { injection H as <- <-. split_and!; try done. intros ?. exfalso. destruct (decide _); lia. }
  unfold v4l2_capture_s_format, v4l2_capture_g_framerate, ioctl, call in H. simpl in H.
  repeat match type of H with
  | context [decide ?P] => destruct (decide P); simpl in H
  end;
    try (injection H as <- <-; split_and!; try done; intros ?; lia);
    apply bind_Some in H as ([st d4] & Halloc & [= <- <-]);
    (apply allocateBuffers_outcome in Halloc; [|done..]);
    destruct Halloc as ([Hm Hs] & Hfail & Hok);
    (split_and!; [by split| |]);
    destruct (decide (st ≠ NO_ERROR)) as [Hne|Heq]; try (intros ?; lia); auto;
    intros _; apply Hok; by destruct (decide (st = NO_ERROR)).
Qed.

Lemma queueBuffer_pool buff init d st d1 :
  queueBuffer buff init d = Some (st, d1) ->
  bufs (mBufferPool d1) = bufs (mBufferPool d) ∧
  numBuffers (mBufferPool d1) = numBuffers (mBufferPool d) ∧
  numBuffersQueued (mBufferPool d1)
  = (if decide (st = NO_ERROR) then int32 (numBuffersQueued (mBufferPool d) + 1)
     else numBuffersQueued (mBufferPool d)).
Proof. unfold queueBuffer, ioctl, call. intros H. unwind; done. Qed.

Lemma startDevice_loop_outcome fuel i d ok d1 :
  0 <= i -> fuel = Z.to_nat (numBuffers (mBufferPool d) - i) ->
  in_int32 (numBuffersQueued (mBufferPool d)) ->
  in_int32 (numBuffersQueued (mBufferPool d) + (numBuffers (mBufferPool d) - i)) ->
  startDevice_loop fuel i d = Some (ok, d1) ->
  bufs (mBufferPool d1) = bufs (mBufferPool d) ∧
  numBuffers (mBufferPool d1) = numBuffers (mBufferPool d) ∧
  (ok = true ->
   numBuffersQueued (mBufferPool d1)
   = numBuffersQueued (mBufferPool d) + Z.max 0 (numBuffers (mBufferPool d) - i)).
Proof.
  revert i d. induction fuel as [|fuel IH]; simpl; intros i d Hi Hfuel Hq Hsum H.
  - injection H as <- <-. split_and!; try done. intros _. lia.
  - destruct (decide _); [|lia].
    apply bind_Some in H as ([st d0] & Hqueue & H). simpl in H.
    apply queueBuffer_pool in Hqueue as (Hbufs & Hnum & Hcount).
    destruct (decide (st ≠ NO_ERROR)).
    + injection H as <- <-. by split_and!.
    + rewrite decide_True in Hcount by (by destruct (decide (st = NO_ERROR))).
      rewrite int32_id in Hcount by (unfold in_int32 in *; lia).
      apply IH in H; [|lia|lia|unfold in_int32 in *; lia|unfold in_int32 in *; lia].
      destruct H as (Hb1 & Hn1 & Hok). split_and!; [congruence|congruence|].
      intros Htrue. rewrite (Hok Htrue). lia.
Qed.

Lemma startDevice_outcome d r d1 :
  0 <= numBuffers (mBufferPool d) -> numBuffersQueued (mBufferPool d) = 0 ->
  in_int32 (numBuffers (mBufferPool d)) ->
  startDevice d = Some (r, d1) ->
  same_device d d1 ∧
  bufs (mBufferPool d1) = bufs (mBufferPool d) ∧
  (0 <= r ->
   numBuffers (mBufferPool d1) = numBuffers (mBufferPool d) ∧
   numBuffersQueued (mBufferPool d1) = numBuffers (mBufferPool d) ∧
   ∃ tr, trace d1 = VIDIOC_STREAMON :: tr).
Proof.
  intros Hn Hq Hint. unfold startDevice. intros H.
  apply bind_Some in H as (fd & _ & H).
  apply bind_Some in H as ([ok d0] & Hloop & H). simpl in H.
  pose proof (startDevice_loop_same _ _ _ _ _ Hloop) as Hsame.
  apply startDevice_loop_outcome in Hloop;
    [|lia|f_equal; lia|rewrite Hq; unfold in_int32; lia|rewrite Hq; unfold in_int32 in *; lia].
  destruct Hloop as (Hbufs & Hnum & Hok).
  destruct ok.
  - unfold ioctl, call in H. simpl in H. injection H as <- <-.
    split_and!; try done. intros Hr. split_and!; simpl; try done.
    + rewrite (Hok eq_refl). lia.
    + by eexists.
  - injection H as <- <-. by split_and!.
Qed.

Lemma deconfigureDevice_outcome d r d1 :
  deconfigureDevice d = Some (r, d1) ->
  same_device d d1 ∧ (is_Some (bufs (mBufferPool d)) -> mBufferPool d1 = empty_pool) ∧
  (bufs (mBufferPool d) = None -> mBufferPool d1 = mBufferPool d).
Proof.
  unfold deconfigureDevice. intros H.
  apply bind_Some in H as ([st d0] & Hfree & [= <- <-]).
  pose proof (freeBuffers_same _ _ _ Hfree) as Hsame. split; [done|].
  unfold freeBuffers in Hfree.
  destruct (bufs (mBufferPool d)) as [a|].
  - split; [|done]. intros _.
    apply bind_Some in Hfree as (fd & _ & Hfree).
    apply bind_Some in Hfree as (d2 & _ & Hfree).
    unfold ioctl, call in Hfree. simpl in Hfree. by injection Hfree as <- <-.
  - injection Hfree as <- <-. split; [|done]. by intros [? ?].
Qed.

(** What one of [startPreview], [startRecording] and [startCapture] leaves
    behind: either the device streams with every buffer of the pool queued,
    or the pool is empty again and the device closed. *)
Lemma start_device_in_outcome deviceMode resend d st d1 :
  mBufferPool d = empty_pool -> in_int32 NUM_DEFAULT_BUFFERS ->
  start_device_in deviceMode resend d = Some (st, d1) ->
  mMode d1 = mMode d ∧
  (st = NO_ERROR ∧
   numBuffers (mBufferPool d1) = NUM_DEFAULT_BUFFERS ∧
   numBuffersQueued (mBufferPool d1) = NUM_DEFAULT_BUFFERS ∧
   (∃ a, bufs (mBufferPool d1) = Some a ∧ Z.of_nat (length a) = NUM_DEFAULT_BUFFERS) ∧
   (∃ fd, mCameraSensor d1 = Some fd ∧ 0 <= fd) ∧
   (∃ tr, trace d1 = VIDIOC_STREAMON :: tr)
   ∨ st = UNKNOWN_ERROR ∧ mBufferPool d1 = empty_pool ∧ device_closed d1).
Proof.
  intros Hpool Hint. unfold start_device_in, set_zoom. intros H.
  destruct (openDevice d) as [r d0] eqn:Hopen.
  apply openDevice_outcome in Hopen as (Hp0 & Hm0 & Hfail0 & Hok0).
  destruct (decide (r < 0)).
  { injection H as <- <-. split; [done|]. right. split_and!; try done; [congruence|auto]. }
  apply bind_Some in H as ([r2 d2] & Hconf & H). simpl in H.
  apply configureDevice_outcome in Hconf; [|congruence|done].
  destruct Hconf as ([Hm2 Hs2] & Hfail2 & Hok2).
  destruct (decide (r2 < 0)).
  { injection H as <- <-. destruct (closeDevice_outcome d2) as (Hp & Hm & Hc).
    split; [congruence|]. right. split_and!; try done. rewrite Hp. auto. }
  destruct (Hok2 ltac:(lia)) as (Hn & Hnum & Hqueued & a & Hbufs & Hlen).
  apply bind_Some in H as (d3 & Hzoom & H).
  assert (d3 = d2) as -> by (destruct resend; unwind; done).
  apply bind_Some in H as ([r3 d4] & Hstart & H). simpl in H.
  apply startDevice_outcome in Hstart; [|lia|done|by rewrite Hnum].
  destruct Hstart as ([Hm4 Hs4] & Hb4 & Hok4).
  destruct (decide (r3 < 0)).
  - apply bind_Some in H as ([r5 d5] & Hdeconf & [= <- <-]).
    apply deconfigureDevice_outcome in Hdeconf as ([Hm5 Hs5] & Hempty & _).
    destruct (closeDevice_outcome d5) as (Hp & Hm & Hc).
    split; [congruence|]. right. split_and!; try done.
    rewrite Hp. apply Hempty. rewrite Hb4, Hbufs. by eexists.
  - injection H as <- <-. destruct (Hok4 ltac:(lia)) as (Hn4 & Hq4 & Htr).
    split; [congruence|]. left. split_and!; try done; try congruence.
    + exists a. split; [congruence|done].
    + exists r. split; [|lia]. rewrite Hs4, Hs2. apply Hok0. lia.
Qed.

(** A successful [start] in a streaming mode, from an empty pool, leaves the
    driver in that mode with the device open and streaming, and every
    buffer of the pool queued: the counter of queued buffers is the size of
    the pool, [NUM_DEFAULT_BUFFERS]. *)
Theorem start_queues_every_buffer mode d d1 :
  mode ≠ MODE_NONE -> mBufferPool d = empty_pool -> in_int32 NUM_DEFAULT_BUFFERS ->
  start mode d = Some (NO_ERROR, d1) ->
  mMode d1 = mode ∧
  0 <= NUM_DEFAULT_BUFFERS ∧
  numBuffers (mBufferPool d1) = NUM_DEFAULT_BUFFERS ∧
  numBuffersQueued (mBufferPool d1) = NUM_DEFAULT_BUFFERS ∧
  (∃ a, bufs (mBufferPool d1) = Some a ∧ Z.of_nat (length a) = NUM_DEFAULT_BUFFERS) ∧
  (∃ fd, mCameraSensor d1 = Some fd ∧ 0 <= fd) ∧
  (∃ tr, trace d1 = VIDIOC_STREAMON :: tr) ∧
  dataAvailable d1 = bool_decide (0 < NUM_DEFAULT_BUFFERS).
Proof.
  intros Hmode Hpool Hint. unfold start, startPreview, startRecording, startCapture. intros H.
  apply bind_Some in H as ([st0 d0] & Hstart & H). simpl in H.
  destruct (decide (st0 = NO_ERROR)) as [->|]; [|by injection H as ->].
  injection H as <-.
  assert (Hin : ∃ resend, start_device_in mode resend d = Some (NO_ERROR, d0))
    by (destruct mode; [done|by eexists..]).
  destruct Hin as [resend Hin].
  apply start_device_in_outcome in Hin as (_ & [Hok|(Hbad & _)]); [|done..].
  destruct Hok as (_ & Hnum & Hq & (a & Hbufs & Hlen) & Hfd & Htr).
  simpl. split_and!; try done; try lia; eauto.
  unfold dataAvailable. simpl. by rewrite Hq.
Qed.

(** A [start] that fails returns [UNKNOWN_ERROR] and leaves nothing behind:
    the mode and the session id are as before, the pool is empty and the
    device is closed. *)
Theorem failed_start_leaves_nothing_behind mode d st d1 :
  mBufferPool d = empty_pool -> in_int32 NUM_DEFAULT_BUFFERS ->
  start mode d = Some (st, d1) -> st ≠ NO_ERROR ->
  st = UNKNOWN_ERROR ∧ mMode d1 = mMode d ∧ mSessionId d1 = mSessionId d ∧
  mBufferPool d1 = empty_pool ∧ device_closed d1.
Proof.
  intros Hpool Hint. unfold start, startPreview, startRecording, startCapture. intros H Hne.
  apply bind_Some in H as ([st0 d0] & Hstart & H). simpl in H.
  destruct (decide (st0 = NO_ERROR)) as [->|Hst0]; [by injection H as <- <-|].
  injection H as <- <-.
  assert (Hin : ∃ resend, start_device_in mode resend d = Some (st0, d0)).
  { destruct mode; [by injection Hstart as <- <-|by eexists..]. }
  destruct Hin as [resend Hin].
  pose proof (start_device_in_session _ _ _ _ _ Hin) as Hsession.
  apply start_device_in_outcome in Hin as (Hm & [(Hok & _)|(Hbad & Hempty & Hclosed)]); done.
Qed.

(** After [stop] the driver is idle: the mode is [MODE_NONE], the device is
    closed and the pool has no buffers if a session was running; the
    functions that take frames and give them back return
    [INVALID_OPERATION] without a call to the device, and a further [stop]
    does nothing. *)
Theorem stop_leaves_the_driver_idle d st d1 buff :
  stop d = Some (st, d1) ->
  st = NO_ERROR ∧ mMode d1 = MODE_NONE ∧ mSessionId d1 = mSessionId d ∧
  (mMode d ≠ MODE_NONE -> device_closed d1 ∧ bufs (mBufferPool d1) = None) ∧
  stop d1 = Some (NO_ERROR, d1) ∧
  getPreviewFrame d1 = Some (INVALID_OPERATION, None, d1) ∧
  getRecordingFrame d1 = Some (INVALID_OPERATION, None, d1) ∧
  getSnapshot d1 = Some (INVALID_OPERATION, None, d1) ∧
  putPreviewFrame buff d1 = Some (INVALID_OPERATION, d1) ∧
  putRecordingFrame buff d1 = Some (INVALID_OPERATION, d1) ∧
  putSnapshot buff d1 = Some (INVALID_OPERATION, d1).
Proof.
  intros Hstop. pose proof (stop_session _ _ _ Hstop) as Hsession.
  assert (Hout : st = NO_ERROR ∧ mMode d1 = MODE_NONE ∧
                 (mMode d ≠ MODE_NONE -> device_closed d1 ∧ bufs (mBufferPool d1) = None)).
  { unfold stop, stopPreview, stopRecording, stopCapture in Hstop.
    apply bind_Some in Hstop as ([st0 d0] & Hdev & H). simpl in H.
    assert (Hcase : mMode d = MODE_NONE ∧ st0 = NO_ERROR ∧ d0 = d
                    ∨ mMode d ≠ MODE_NONE ∧ stop_device d = Some (st0, d0)).
    { destruct (mMode d); [left; by injection Hdev as <- <-|right; by split..]. }
    destruct Hcase as [(Hnone & -> & ->)|(Hmode & Hsd)].
    - rewrite decide_True in H by done. injection H as <- <-. by split_and!.
    - unfold stop_device in Hsd.
      apply bind_Some in Hsd as (d2 & Hs & Hsd).
      apply bind_Some in Hsd as ([r d3] & Hdeconf & [= <- <-]).
      rewrite decide_True in H by done. injection H as <- <-.
      apply deconfigureDevice_outcome in Hdeconf as (_ & Hsome & Hnone).
      destruct (closeDevice_outcome d3) as (Hp & _ & Hc).
      split_and!; try done. intros _. split; [done|]. simpl. rewrite Hp.
      destruct (bufs (mBufferPool d2)) as [a|] eqn:Hb.
      + by rewrite Hsome.
      + by rewrite Hnone. }
  destruct Hout as (-> & Hnone & Hidle). split_and!; try done.
  - unfold stop. rewrite Hnone. simpl. destruct d1. simpl in Hnone. by subst.
  - unfold getPreviewFrame. by rewrite decide_True.
  - unfold getRecordingFrame. by rewrite decide_True.
  - unfold getSnapshot. by rewrite decide_True.
  - unfold putPreviewFrame. by rewrite decide_True.
  - unfold putRecordingFrame. by rewrite decide_True.
  - unfold putSnapshot. by rewrite decide_True.
Qed.

Lemma int32_add_l x y : int32 (int32 x + y) = int32 (x + y).
Proof.
  unfold int32. f_equal.
  replace ((x + 2147483648) `mod` 4294967296 - 2147483648 + y + 2147483648)
    with ((x + 2147483648) `mod` 4294967296 + y) by lia.
  rewrite Zplus_mod_idemp_l. f_equal. lia.
Qed.

(** A buffer that [dequeueBuffer] has just handed out passes the session
    check of [queueBuffer]: the driver asks the device to queue it, and if
    the device accepts the counter of queued buffers is what it was before
    the dequeue. *)
Theorem fresh_buffer_passes_the_session_check ts d b t d1 :
  dequeueBuffer ts d = Some (NO_ERROR, Some (b, t), d1) ->
  in_int32 (numBuffersQueued (mBufferPool d)) ->
  ∃ st d2 i,
    queueBuffer b false d1 = Some (st, d2) ∧
    trace d2 = VIDIOC_QBUF i :: trace d1 ∧
    st = (if decide (dev_ret (trace d1) (VIDIOC_QBUF i) < 0) then UNKNOWN_ERROR else NO_ERROR) ∧
    (st = NO_ERROR ->
     numBuffersQueued (mBufferPool d2) = numBuffersQueued (mBufferPool d)).
Proof.
  intros Hdq Hint.
  pose proof (dequeueBuffer_slot _ _ _ _ _ Hdq) as (Halloc & i & cb & -> & Hderef & Hid & Htag).
  pose proof (dequeueBuffer_session _ _ _ _ _ Hdq) as Hsession.
  assert (Hd1 : is_Some (mCameraSensor d1) ∧
                numBuffersQueued (mBufferPool d1) = int32 (numBuffersQueued (mBufferPool d) - 1)).
  { unfold dequeueBuffer, call in Hdq. unwind;
      match goal with
      | H : pool_set _ _ _ = Some _ |- _ =>
          unfold pool_set in H; apply bind_Some in H as (a & Ha & H);
          apply bind_Some in H as (a1 & Hset & [= <-])
      end; simpl; (split; [by eexists|done]). }
  destruct Hd1 as ([fd Hfd] & Hq).
  assert (is_Some (pool_get (mID cb) d1)) as [e He].
  { unfold deref in Hderef. rewrite Halloc, decide_True in Hderef by done.
    apply fmap_Some in Hderef as (e & He & _). rewrite Hid. by exists e. }
  unfold queueBuffer. rewrite Hderef. simpl.
  rewrite decide_False by (intros [_ Hne]; apply Hne; congruence).
  rewrite Hfd, He. simpl. unfold ioctl, call. simpl.
  destruct (decide (dev_ret (trace d1) (VIDIOC_QBUF (vb_index (vBuff e))) < 0)) as [Hneg|Hpos].
  - eexists _, _, _. split; [done|]. simpl. split; [done|]. rewrite decide_True by done.
    split; [done|]. discriminate.
  - eexists _, _, _. split; [done|]. simpl. split; [done|]. rewrite decide_False by done.
    split; [done|]. intros _. rewrite Hq, int32_add_l.
    replace (numBuffersQueued (mBufferPool d) - 1 + 1) with (numBuffersQueued (mBufferPool d))
      by lia.
    by apply int32_id.
Qed.

(** The size setters keep the preview and the recording frame within the
    maximum of the sensor: a width or height that is not positive or above
    the maximum is replaced by the maximum, any other is stored as it is.
    In video mode [setVideoFrameSize] refuses another size and changes
    nothing. *)
Theorem frame_sizes_stay_within_the_maximum width_ height_ d st1 d1 st2 d2 :
  0 < maxWidth (preview (mConfig d)) -> 0 < maxHeight (preview (mConfig d)) ->
  0 < width (recording (mConfig d)) <= maxWidth (recording (mConfig d)) ->
  0 < height (recording (mConfig d)) <= maxHeight (recording (mConfig d)) ->
  setPreviewFrameSize width_ height_ d = (st1, d1) ->
  setVideoFrameSize width_ height_ d = (st2, d2) ->
  (st1 = NO_ERROR ∧
   0 < width (preview (mConfig d1)) <= maxWidth (preview (mConfig d)) ∧
   0 < height (preview (mConfig d1)) <= maxHeight (preview (mConfig d)) ∧
   maxWidth (preview (mConfig d1)) = maxWidth (preview (mConfig d)) ∧
   maxHeight (preview (mConfig d1)) = maxHeight (preview (mConfig d)) ∧
   (0 < width_ <= maxWidth (preview (mConfig d)) -> width (preview (mConfig d1)) = width_) ∧
   (0 < height_ <= maxHeight (preview (mConfig d)) -> height (preview (mConfig d1)) = height_) ∧
   (width_ <= 0 ∨ maxWidth (preview (mConfig d)) < width_ ->
    width (preview (mConfig d1)) = maxWidth (preview (mConfig d))) ∧
   (height_ <= 0 ∨ maxHeight (preview (mConfig d)) < height_ ->
    height (preview (mConfig d1)) = maxHeight (preview (mConfig d))) ∧
   recording (mConfig d1) = recording (mConfig d)) ∧
  (0 < width (recording (mConfig d2)) <= maxWidth (recording (mConfig d)) ∧
   0 < height (recording (mConfig d2)) <= maxHeight (recording (mConfig d)) ∧
   maxWidth (recording (mConfig d2)) = maxWidth (recording (mConfig d)) ∧
   maxHeight (recording (mConfig d2)) = maxHeight (recording (mConfig d)) ∧
   preview (mConfig d2) = preview (mConfig d) ∧
   (st2 = NO_ERROR ->
    (0 < width_ <= maxWidth (recording (mConfig d)) -> width (recording (mConfig d2)) = width_) ∧
    (0 < height_ <= maxHeight (recording (mConfig d)) ->
     height (recording (mConfig d2)) = height_) ∧
    (width_ <= 0 ∨ maxWidth (recording (mConfig d)) < width_ ->
     width (recording (mConfig d2)) = maxWidth (recording (mConfig d))) ∧
    (height_ <= 0 ∨ maxHeight (recording (mConfig d)) < height_ ->
     height (recording (mConfig d2)) = maxHeight (recording (mConfig d)))) ∧
   (mMode d = MODE_VIDEO ->
    width (recording (mConfig d)) ≠ width_ ∨ height (recording (mConfig d)) ≠ height_ ->
    st2 = INVALID_OPERATION ∧ d2 = d)).
Proof.
  intros Hw Hh Hwv Hhv Hp Hv. split.
  - unfold setPreviewFrameSize in Hp. injection Hp as <- <-. simpl.
    repeat (destruct (decide _)); split_and!; try done; intros; lia.
  - unfold setVideoFrameSize in Hv.
    destruct (decide (width (recording (mConfig d)) = width_
                      ∧ height (recording (mConfig d)) = height_)) as [[Hew Heh]|Hne].
    { injection Hv as <- <-. split_and!; try done; try lia; intros ? [?|?]; done. }
    destruct (decide (mMode d = MODE_VIDEO)).
    { injection Hv as <- <-. split_and!; try done; try lia. }
    injection Hv as <- <-. simpl.
    repeat (destruct (decide _)); split_and!; try done; intros; try lia.
Qed.

Lemma freeBuffer_loop_trace fuel i d d1 :
  freeBuffer_loop fuel i d = Some d1 ->
  fuel = Z.to_nat (numBuffers (mBufferPool d) - i) ->
  trace d1 = reverse (CB_releaseMemory <$> seqZ i (Z.of_nat fuel)) ++ trace d.
Proof.
  revert i d. induction fuel as [|fuel IH]; simpl; intros i d H Hfuel.
  - by injection H as <-.
  - rewrite decide_True in H by lia.
    apply bind_Some in H as (d0 & Hf & H).
    unfold freeBuffer, ioctl, call in Hf.
    apply bind_Some in Hf as (b & _ & Hf). simpl in Hf. injection Hf as <-.
    apply IH in H; [|simpl; lia]. rewrite H. simpl.
    replace (Z.of_nat (S fuel)) with (Z.succ (Z.of_nat fuel)) by lia.
    rewrite (seqZ_cons i) by lia. rewrite fmap_cons, reverse_cons, <- app_assoc. simpl.
    replace (Z.pred (Z.succ (Z.of_nat fuel))) with (Z.of_nat fuel) by lia.
    by replace (Z.succ i) with (i + 1) by lia.
Qed.

Lemma allocateBuffer_calls i d st d1 :
  allocateBuffer i d = Some (st, d1) ->
  numBuffers (mBufferPool d1) = numBuffers (mBufferPool d) ∧
  ∃ new, trace d1 = new ++ trace d ∧
         ∀ j len, CB_allocateMemory j len ∈ new -> j = i ∧ st = NO_ERROR.
Proof.
  unfold allocateBuffer, call. intros H.
  apply bind_Some in H as (b & _ & H). simpl in H.
  destruct (decide _).
  - apply bind_Some in H as (d2 & Hset & [= <- <-]).
    unfold pool_set in Hset. simpl in Hset.
    apply bind_Some in Hset as (a & _ & Hset). apply bind_Some in Hset as (a1 & _ & [= <-]).
    simpl. split; [done|]. exists [VIDIOC_QUERYBUF i]. split; [done|].
    intros j len Hin. apply list_elem_of_singleton in Hin. discriminate.
  - apply bind_Some in H as (d3 & Hset & [= <- <-]).
    unfold pool_set in Hset. simpl in Hset.
    apply bind_Some in Hset as (a & _ & Hset). apply bind_Some in Hset as (a1 & _ & [= <-]).
    simpl. split; [done|].
    eexists [CB_allocateMemory i _; VIDIOC_QUERYBUF i]. split; [done|].
    intros j len Hin. apply elem_of_cons in Hin as [Heq|Hin].
    + by injection Heq as -> _.
    + apply list_elem_of_singleton in Hin. discriminate.
Qed.

Lemma allocateBuffer_loop_calls fuel (k : Z) d st d1 :
  numBuffers (mBufferPool d) = k -> 0 <= k -> in_int32 (k + Z.of_nat fuel) ->
  allocateBuffer_loop fuel k d = Some (st, d1) ->
  k <= numBuffers (mBufferPool d1) ∧
  ∃ new, trace d1 = new ++ trace d ∧
         ∀ j len, CB_allocateMemory j len ∈ new -> k <= j < numBuffers (mBufferPool d1).
Proof.
  revert k d. induction fuel as [|fuel IH]; simpl; intros k d Hnum Hk Hint H.
  - injection H as <- <-. split; [lia|]. exists []. split; [done|].
    by intros j len ?%elem_of_nil.
  - apply bind_Some in H as ([st0 d0] & Ha & H). simpl in H.
    apply allocateBuffer_calls in Ha as (Hn0 & new0 & Ht0 & Hnew0).
    destruct (decide (st0 ≠ NO_ERROR)) as [Hne|Heq].
    + injection H as <- <-. split; [lia|]. exists new0. split; [done|].
      intros j len Hin. by destruct (Hnew0 j len Hin) as [_ ?].
    + apply IH in H; simpl.
      * destruct H as (Hle & new & Ht & Hnew). simpl in Ht.
        split; [lia|].
        exists (new ++ new0). split; [by rewrite Ht, Ht0, app_assoc|].
        intros j len [Hin|Hin]%elem_of_app.
        { specialize (Hnew j len Hin). lia. }
        { destruct (Hnew0 j len Hin) as [-> _]. lia. }
      * rewrite Hn0, Hnum. apply int32_id. unfold in_int32 in *. lia.
      * lia.
      * unfold in_int32 in *. lia.
Qed.

(** When [allocateBuffers] fails, whether the device refuses the request
    or a buffer cannot be set up, the pool is empty afterwards and the
    memory of every buffer allocated on the way has been released. *)
Theorem failed_allocation_releases_the_memory n d st d1 :
  mBufferPool d = empty_pool -> in_int32 n ->
  allocateBuffers n d = Some (st, d1) -> st ≠ NO_ERROR ->
  mBufferPool d1 = empty_pool ∧
  ∃ new, trace d1 = new ++ trace d ∧
         ∀ j len, CB_allocateMemory j len ∈ new -> CB_releaseMemory j ∈ new.
Proof.
  intros Hpool Hn Halloc Hne.
  split; [by apply (allocateBuffers_outcome _ _ _ _ Hpool Hn Halloc)|].
  unfold allocateBuffers in Halloc. rewrite Hpool in Halloc. simpl in Halloc.
  apply bind_Some in Halloc as (fd & _ & H).
  unfold ioctl, call in H. simpl in H.
  destruct (decide (dev_ret (trace d) (VIDIOC_REQBUFS n) < 0)).
  { injection H as <- <-. exists [VIDIOC_REQBUFS n]. split; [done|].
    intros j len Hin. apply list_elem_of_singleton in Hin. discriminate. }
  destruct (decide (n < 0)); [done|].
  apply bind_Some in H as ([st3 d3] & Hloop & H). simpl in H.
  destruct (decide (st3 = NO_ERROR)) as [->|_]; [by injection H as <- <-|].
  apply bind_Some in H as (d4 & Hfree & [= <- <-]).
  apply allocateBuffer_loop_calls in Hloop;
    [|by rewrite Hpool|done|rewrite Z2Nat.id by lia; unfold in_int32 in *; lia].
  destruct Hloop as (Hle & new & Ht & Hnew). simpl in Ht.
  unfold free_all in Hfree. apply freeBuffer_loop_trace in Hfree; [|f_equal; lia].
  rewrite Z2Nat.id in Hfree by lia. simpl.
  exists (reverse (CB_releaseMemory <$> seqZ 0 (numBuffers (mBufferPool d3)))
          ++ new ++ [VIDIOC_REQBUFS n]).
  split.
  - rewrite Hfree, Ht. by rewrite <- !app_assoc.
  - intros j len Hin. apply elem_of_app. left.
    apply elem_of_reverse, list_elem_of_fmap. exists j. split; [done|].
    apply elem_of_seqZ.
    apply elem_of_app in Hin as [Hin|Hin].
    + apply elem_of_reverse, list_elem_of_fmap in Hin as (i & Hi & _). discriminate.
    + apply elem_of_app in Hin as [Hin|Hin].
      * specialize (Hnew j len Hin). lia.
      * apply list_elem_of_singleton in Hin. discriminate.
Qed.
(** Pool arrays are not revived: [bufs] gets an array from
    [allocateBuffers] alone, which takes a new one. *)



Lemma same_array d d1 :
  allocations d1 = allocations d -> bufs (mBufferPool d1) = bufs (mBufferPool d) ->
  no_array_revived d d1.
Proof. intros Ha Hb. split; [lia|]. intros _ Hnone. congruence. Qed.


Lemma call_array c d : no_array_revived d (call c d).2.
Proof. by apply same_array. Qed.

















End DriverSessions.

(** ** Focus and metering windows *)

Section WindowFacts.
Context `{Hos : !Host}.
Import ControlThread.

Lemma strchr_length s c s' :
  strchr s c = Some s' -> (String.length s' <= String.length s)%nat.
Proof.
  induction s as [|a rest IH]; simpl; [done|].
  destruct (decide (a = c)).
  - intros [= <-]. simpl. lia.
  - intros Hs. apply IH in Hs. lia.
Qed.

Lemma strchr_next_length s c s' :
  strchr_next s c = Some s' -> (String.length s' < String.length s)%nat.
Proof.
  destruct s as [|a rest]; simpl; [done|].
  intros Hs. apply strchr_length in Hs. lia.
Qed.

Lemma verifyCameraWindow_bounds win :
  verifyCameraWindow win = true ->
  -1000 <= x_left win ∧ x_left win < x_right win ∧ x_right win <= 1000 ∧
  -1000 <= y_top win ∧ y_top win < y_bottom win ∧ y_bottom win <= 1000 ∧
  1 <= weight win <= 1000.
Proof.
  unfold verifyCameraWindow. intros Hv.
  repeat (case_decide; [done|]). lia.
Qed.

Lemma scan_windows_outcome fuel argTail maxWindows acc slot :
  (∀ s, argTail = Some s -> (String.length s < fuel)%nat) ->
  Forall (λ w, verifyCameraWindow w = true) acc ->
  Z.of_nat (length acc) <= Z.max 0 maxWindows ->
  ∃ ws, scan_windows fuel argTail maxWindows acc slot = Some ws ∧
    Forall (λ w, verifyCameraWindow w = true) ws ∧
    Z.of_nat (length ws) <= Z.max 0 maxWindows.
Proof.
  revert argTail acc slot.
  induction fuel as [|fuel IH]; intros argTail acc slot Hlen Hacc Hn.
  - destruct argTail as [s|]; simpl.
    + specialize (Hlen s eq_refl). lia.
    + by exists acc.
  - destruct argTail as [s|]; simpl; [|by exists acc].
    destruct (decide (Z.of_nat (length acc) < maxWindows)) as [Hlt|]; [|by exists acc].
    destruct (sscanf_window s slot) as [i win].
    destruct (decide (i ≠ 5)); [by exists acc|].
    assert (∀ s', strchr_next s paren = Some s' -> (String.length s' < fuel)%nat) as Hnext.
    { intros s' Hs'. apply strchr_next_length in Hs'. specialize (Hlen s eq_refl). lia. }
    destruct (verifyCameraWindow win) eqn:Hv.
    + apply IH; [done| |].
      * apply Forall_app. split; [done|]. by apply Forall_singleton.
      * rewrite length_app. simpl. lia.
    + by apply IH.
Qed.

(** Reading the windows of a parameter always ends.  It fails only when the
    maximum number of windows is negative and the value of the areas is
    present and not empty; otherwise it gives at most the maximum number of
    windows, and every one of them passes [verifyCameraWindow]. *)
Theorem read_windows_gives_verified_windows (newParams : CameraParameters) (keyMax keyAreas : string) :
  (read_windows newParams keyMax keyAreas = None ↔
     getInt newParams keyMax < 0 ∧ 0 < size_t (getInt newParams keyMax) ∧
     ∃ p, get newParams keyAreas = Some p ∧ (0 < String.length p)%nat) ∧
  ∀ ws, read_windows newParams keyMax keyAreas = Some ws ->
    Forall (λ w, verifyCameraWindow w = true) ws ∧
    Z.of_nat (length ws) <= size_t (getInt newParams keyMax).
Proof.
  assert (0 <= size_t (getInt newParams keyMax)) as Hsz.
  { unfold size_t. apply Z.mod_pos_bound. lia. }
  unfold read_windows.
  destruct (get newParams keyAreas) as [p|] eqn:Hp.
  - destruct (decide (0 < size_t (getInt newParams keyMax) ∧ (0 < String.length p)%nat))
      as [[Hmax Hlen]|Hno].
    + destruct (decide (getInt newParams keyMax < 0)) as [Hneg|Hpos].
      * split; [|done]. split; [|done]. intros _. split_and!; [done..|]. by exists p.
      * destruct (scan_windows_outcome (S (String.length p)) (Some p)
                    (size_t (getInt newParams keyMax)) [] indeterminate_window)
          as (ws & Hws & Hall & Hn).
        { intros s [= <-]. lia. }
        { done. }
        { simpl. lia. }
        rewrite Hws. split.
        -- split; [done|]. intros (? & _). lia.
        -- intros ws' [= <-]. split; [done|]. lia.
    + split.
      * split; [done|]. intros (? & ? & p' & [= <-] & ?). by destruct Hno.
      * intros ws [= <-]. split; [done|]. simpl. lia.
  - split.
    + split; [done|]. by intros (? & ? & p' & ? & ?).
    + intros ws [= <-]. split; [done|]. simpl. lia.
Qed.

Lemma size_t_id z : 0 <= z < 4294967296 -> size_t z = z.
Proof. intros Hz. unfold size_t. by rewrite Z.mod_small. Qed.

Lemma sum_weights_from B l acc :
  Forall (λ w, 0 <= weight w <= B) l ->
  0 <= acc -> acc + B * Z.of_nat (length l) < 4294967296 ->
  foldl (λ acc w, size_t (acc + size_t (weight w))) acc l = acc + total_weight l.
Proof.
  revert acc. induction l as [|w l IH]; intros acc Hall Hacc Hb; simpl.
  - lia.
  - apply Forall_cons in Hall as [Hw Hall].
    simpl in Hw. rewrite length_cons, Nat2Z.inj_succ in Hb.
    assert (0 <= B * Z.of_nat (length l)) as Hn by nia.
    assert (0 <= weight w < 4294967296) by lia.
    rewrite (size_t_id (weight w)) by lia.
    rewrite (size_t_id (acc + weight w)) by lia.
    rewrite IH; [lia|done|lia|lia].
Qed.

Lemma sum_weights_total B l :
  Forall (λ w, 0 <= weight w <= B) l ->
  B * Z.of_nat (length l) < 4294967296 ->
  sum_weights l = total_weight l.
Proof.
  intros Hall Hb. unfold sum_weights.
  rewrite (sum_weights_from B); [lia|done|lia|lia].
Qed.

Lemma total_weight_cons w l : total_weight (w :: l) = weight w + total_weight l.
Proof. done. Qed.

Lemma total_weight_app l1 l2 : total_weight (l1 ++ l2) = total_weight l1 + total_weight l2.
Proof.
  induction l1 as [|w l1 IH]; [done|].
  rewrite <- app_comm_cons, !total_weight_cons. lia.
Qed.

Lemma total_weight_nonneg l : Forall (λ w, 0 <= weight w) l -> 0 <= total_weight l.
Proof.
  induction 1 as [|w l Hw _ IH]; [done|]. rewrite total_weight_cons. lia.
Qed.

Lemma total_weight_elem l w :
  Forall (λ w, 0 <= weight w) l -> w ∈ l -> weight w <= total_weight l.
Proof.
  induction 1 as [|w' l Hw Hall IH]; [by intros ?%elem_of_nil|].
  pose proof (total_weight_nonneg l Hall) as Hl.
  rewrite total_weight_cons.
  intros [->|Hin]%elem_of_cons; [lia|].
  specialize (IH Hin). lia.
Qed.

Lemma scaled_total_le (f : CameraWindow -> CameraWindow) W l :
  0 < W ->
  (∀ w, w ∈ l -> weight (f w) = (weight w * 16) `div` W) ->
  Forall (λ w, 0 <= weight w) l ->
  total_weight (f <$> l) * W <= 16 * total_weight l.
Proof.
  intros HW Hf Hall. induction Hall as [|w l Hw Hall IH]; [done|].
  rewrite fmap_cons, !total_weight_cons.
  rewrite (Hf w) by (by left).
  pose proof (Z.mul_div_le (weight w * 16) W HW) as Hd.
  assert (∀ w0, w0 ∈ l -> weight (f w0) = (weight w0 * 16) `div` W) as Hf'.
  { intros w0 Hw0. apply Hf. by right. }
  specialize (IH Hf').
  generalize dependent ((weight w * 16) `div` W). intros q Hd. lia.
Qed.

Lemma preSetCameraWindows_snoc l0 x ct width height :
  getPreviewSize (mParameters ct) = (width, height) ->
  ∃ f : CameraWindow -> CameraWindow,
    (∀ w, f w =
       mkWindow
         (Z.quot (int32 (int32 (x_left w + FOCUS_AREAS_OFFSET) * int32 (width - 1))) FOCUS_AREAS_SIZE)
         (Z.quot (int32 (int32 (x_right w + FOCUS_AREAS_OFFSET) * int32 (width - 1))) FOCUS_AREAS_SIZE)
         (Z.quot (int32 (int32 (y_top w + FOCUS_AREAS_OFFSET) * int32 (height - 1))) FOCUS_AREAS_SIZE)
         (Z.quot (int32 (int32 (y_bottom w + FOCUS_AREAS_OFFSET) * int32 (height - 1))) FOCUS_AREAS_SIZE)
         (int32 (size_t (int32 (weight w * WINDOWS_TOTAL_WEIGHT))
                 `div` (if decide (sum_weights (l0 ++ [x]) = 0) then 1
                        else sum_weights (l0 ++ [x]))))) ∧
    preSetCameraWindows (l0 ++ [x]) ct =
      (f <$> l0) ++
      [mkWindow (x_left (f x)) (x_right (f x)) (y_top (f x)) (y_bottom (f x))
                (int32 (weight (f x) + WINDOWS_TOTAL_WEIGHT - sum_weights (f <$> l0 ++ [x])))].
Proof.
  intros Hsize. unfold preSetCameraWindows. rewrite Hsize.
  destruct (l0 ++ [x]) as [|w0 ws0] eqn:E; [by destruct l0|].
  rewrite <- E. clear E w0 ws0.
  eexists. split; [intros w; reflexivity|].
  rewrite fmap_app, reverse_app. simpl.
  by rewrite reverse_involutive.
Qed.

Lemma scale_in_range v1 v2 extent :
  -1000 <= v1 -> v1 <= v2 -> v2 <= 1000 -> 1 <= extent <= 1073742 ->
  0 <= Z.quot (int32 (int32 (v1 + FOCUS_AREAS_OFFSET) * int32 (extent - 1))) FOCUS_AREAS_SIZE ∧
  Z.quot (int32 (int32 (v1 + FOCUS_AREAS_OFFSET) * int32 (extent - 1))) FOCUS_AREAS_SIZE
    <= Z.quot (int32 (int32 (v2 + FOCUS_AREAS_OFFSET) * int32 (extent - 1))) FOCUS_AREAS_SIZE ∧
  Z.quot (int32 (int32 (v2 + FOCUS_AREAS_OFFSET) * int32 (extent - 1))) FOCUS_AREAS_SIZE
    <= extent - 1.
Proof.
  unfold FOCUS_AREAS_OFFSET, FOCUS_AREAS_SIZE. intros H1 H12 H2 He.
  rewrite !(int32_id (_ + 1000)) by (unfold in_int32; lia).
  rewrite !(int32_id (extent - 1)) by (unfold in_int32; lia).
  rewrite !int32_id by (unfold in_int32; nia).
  rewrite !Z.quot_div_nonneg by nia.
  split_and!.
  - apply Z.div_pos; nia.
  - apply Z.div_le_mono; nia.
  - apply Z.div_le_upper_bound; nia.
Qed.

(** The windows handed to the driver carry weights between 0 and 16 that
    add up to 16 exactly: the weights are scaled down and the last window
    takes what the rounding left over. *)
Theorem scaled_weights_add_up (windows : list CameraWindow) (ct : t) :
  windows ≠ [] ->
  Forall (λ w, verifyCameraWindow w = true) windows ->
  Z.of_nat (length windows) <= 4294967 ->
  length (preSetCameraWindows windows ct) = length windows ∧
  total_weight (preSetCameraWindows windows ct) = WINDOWS_TOTAL_WEIGHT ∧
  Forall (λ w, 0 <= weight w <= WINDOWS_TOTAL_WEIGHT) (preSetCameraWindows windows ct).
Proof.
  intros Hne Hall Hlen.
  destruct windows as [|x l0 _] using rev_ind; [done|]. clear Hne.
  destruct (getPreviewSize (mParameters ct)) as [width height] eqn:Hsize.
  destruct (preSetCameraWindows_snoc l0 x ct width height Hsize) as (f & Hf & ->).
  assert (Forall (λ w, 1 <= weight w <= 1000) (l0 ++ [x])) as Hw.
  { eapply Forall_impl; [exact Hall|]. intros w Hv. apply verifyCameraWindow_bounds in Hv. simpl. lia. }
  assert (Forall (λ w, 0 <= weight w) (l0 ++ [x])) as Hw0.
  { eapply Forall_impl; [exact Hw|]. simpl. intros; lia. }
  assert (sum_weights (l0 ++ [x]) = total_weight (l0 ++ [x])) as Hsum.
  { apply (sum_weights_total 1000); [|lia].
    eapply Forall_impl; [exact Hw|]. simpl. intros; lia. }
  assert (1 <= total_weight (l0 ++ [x])) as Hpos.
  { pose proof (total_weight_elem (l0 ++ [x]) x Hw0) as Hx.
    rewrite Forall_forall in Hw. specialize (Hw x). simpl in Hw.
    assert (x ∈ l0 ++ [x]) as Hin by (apply elem_of_app; right; by left).
    specialize (Hx Hin). specialize (Hw Hin). lia. }
  rewrite Hsum in Hf. rewrite decide_False in Hf by lia.
  set (W := total_weight (l0 ++ [x])) in *.
  assert (∀ w, w ∈ l0 ++ [x] ->
            weight (f w) = (weight w * 16) `div` W ∧ 0 <= weight (f w) <= 16) as Hfw.
  { intros w Hin. rewrite Hf. simpl. unfold WINDOWS_TOTAL_WEIGHT.
    pose proof (total_weight_elem (l0 ++ [x]) w Hw0 Hin) as HwW. fold W in HwW.
    rewrite Forall_forall in Hw. specialize (Hw w Hin). simpl in Hw.
    rewrite (int32_id (weight w * 16)) by (unfold in_int32; lia).
    rewrite size_t_id by lia.
    assert (0 <= (weight w * 16) `div` W) by (apply Z.div_pos; lia).
    assert ((weight w * 16) `div` W <= 16) by (apply Z.div_le_upper_bound; lia).
    rewrite int32_id by (unfold in_int32; lia). lia. }
  assert (Forall (λ w, 0 <= weight w <= 16) (f <$> l0 ++ [x])) as Hscaled.
  { apply Forall_fmap, Forall_forall. intros w Hin. simpl. by apply Hfw. }
  assert (sum_weights (f <$> l0 ++ [x]) = total_weight (f <$> l0 ++ [x])) as Hsum2.
  { apply (sum_weights_total 16); [done|]. rewrite length_fmap. lia. }
  assert (total_weight (f <$> l0 ++ [x]) <= 16) as Hle.
  { pose proof (scaled_total_le f W (l0 ++ [x]) ltac:(lia)
                  (λ w Hin, proj1 (Hfw w Hin)) Hw0) as Hs.
    fold W in Hs. nia. }
  rewrite Hsum2. rewrite fmap_app, total_weight_app in *. simpl in *.
  apply Forall_app in Hscaled as [Hl0 Hx]. rewrite Forall_singleton in Hx.
  assert (0 <= total_weight (f <$> l0)) as Hnn.
  { apply total_weight_nonneg. eapply Forall_impl; [exact Hl0|]. simpl. intros; lia. }
  unfold WINDOWS_TOTAL_WEIGHT.
  rewrite int32_id by (unfold in_int32; lia).
  split_and!.
  - rewrite !length_app, length_fmap. done.
  - rewrite total_weight_app. simpl. lia.
  - apply Forall_app. split; [done|]. apply Forall_singleton. simpl. lia.
Qed.

(** With a preview of at most 1073742 pixels each way, the windows handed to
    the driver lie inside the preview frame, and the second corner of each
    is not before the first. *)
Theorem scaled_windows_lie_in_the_frame (windows : list CameraWindow) (ct : t) (width height : Z) :
  getPreviewSize (mParameters ct) = (width, height) ->
  1 <= width <= 1073742 ->
  1 <= height <= 1073742 ->
  Forall (λ w, verifyCameraWindow w = true) windows ->
  Forall (in_frame width height) (preSetCameraWindows windows ct).
Proof.
  intros Hsize Hwidth Hheight Hall.
  destruct windows as [|x l0 _] using rev_ind; [by constructor|].
  destruct (preSetCameraWindows_snoc l0 x ct width height Hsize) as (f & Hf & ->).
  assert (∀ w, w ∈ l0 ++ [x] -> in_frame width height (f w)) as Hin.
  { intros w Hw. rewrite Forall_forall in Hall.
    pose proof (verifyCameraWindow_bounds w (Hall w Hw)) as (? & ? & ? & ? & ? & ? & ?).
    rewrite Hf. unfold in_frame. simpl.
    pose proof (scale_in_range (x_left w) (x_right w) width) as Hx.
    pose proof (scale_in_range (y_top w) (y_bottom w) height) as Hy.
    split_and!; first [apply Hx; lia | apply Hy; lia]. }
  apply Forall_app. split.
  - apply Forall_fmap, Forall_forall. intros w Hw. simpl. apply Hin, elem_of_app. by left.
  - apply Forall_singleton.
    assert (x ∈ l0 ++ [x]) as Hx by (apply elem_of_app; right; by left).
    specialize (Hin x Hx). unfold in_frame in *. simpl. done.
Qed.

End WindowFacts.

(** ** Reading and validating parameters *)

Section ParameterFacts.
Context `{Hos : !Host}.
Import ControlThread.

Lemma strtake_eq_short n a c :
  (String.length c < n)%nat -> strtake n a = c -> a = c.
Proof.
  revert a c. induction n as [|n IH]; intros a c Hlen Heq; [lia|].
  destruct a as [|x a]; simpl in Heq; [done|].
  subst c. simpl in Hlen. f_equal. apply IH; [lia|done].
Qed.

Lemma strtake_cons n a x s :
  strtake (S n) a = String x s -> ∃ a', a = String x a' ∧ strtake n a' = s.
Proof.
  destruct a as [|y a]; simpl; [done|]. intros [= -> <-]. by eexists.
Qed.

Lemma strtake_all s : strtake (String.length s) s = s.
Proof. induction s as [|x s IH]; simpl; [done|]. by rewrite IH. Qed.

Lemma starts_with_inv value constant :
  starts_with value constant = true -> strtake (String.length constant) value = constant.
Proof.
  unfold starts_with, strncmp_eq. intros Heq%bool_decide_eq_true.
  by rewrite strtake_all in Heq.
Qed.

Ltac head_of H :=
  apply starts_with_inv in H; cbv [String.length] in H;
  repeat (apply strtake_cons in H; destruct H as (? & -> & H)).

(** The red-eye flash mode cannot be selected: no value of the flash mode
    makes [processParamFlash] ask the driver for it, and a new value that
    begins with red-eye is refused with [BAD_VALUE]. *)
Theorem red_eye_flash_is_never_selected (oldParams newParams : CameraParameters) (ct : t)
    (newValue : string) :
  changed oldParams newParams KEY_FLASH_MODE = Some newValue ->
  (∀ value, flash_of value ≠ Some CameraDriver.FLASH_MODE_RED_EYE) ∧
  calls (processParamFlash oldParams newParams ct).2
    ≠ Driver_setFlashMode CameraDriver.FLASH_MODE_RED_EYE :: calls ct ∧
  (starts_with newValue "red-eye" = true ->
   processParamFlash oldParams newParams ct = (BAD_VALUE, ct)).
Proof.
  intros Hch.
  assert (∀ value, flash_of value ≠ Some CameraDriver.FLASH_MODE_RED_EYE) as Hnever.
  { intros value. unfold flash_of.
    destruct (starts_with value "auto"); [done|].
    destruct (starts_with value "off"); [done|].
    destruct (starts_with value "on"); [done|].
    destruct (starts_with value "torch") eqn:Htorch; [done|].
    destruct (strncmp_eq value "torch" (String.length "red-eye")) eqn:Hred; [|done].
    apply bool_decide_eq_true in Hred. apply strtake_eq_short in Hred; [|simpl; lia].
    subst value. done. }
  split; [done|]. unfold processParamFlash. rewrite Hch. split.
  - destruct (flash_of newValue) as [m|] eqn:Hm; simpl.
    + intros [= ->]. by apply Hnever in Hm.
    + intros Heq. apply (f_equal length) in Heq. simpl in Heq. lia.
  - intros Hred. head_of Hred. by vm_compute.
Qed.

(** Every scene mode that begins with night selects the night scene; so
    does night-portrait, whose own branch comes later and is never taken. *)
Theorem night_portrait_selects_the_night_scene (oldParams newParams : CameraParameters) (ct : t)
    (newScene : string) :
  changed oldParams newParams KEY_SCENE_MODE = Some newScene ->
  starts_with newScene "night" = true ->
  scene_of newScene = Some CameraDriver.SCENE_MODE_NIGHT ∧
  processParamSceneMode oldParams newParams ct
    = (NO_ERROR, ask (Driver_setSceneMode CameraDriver.SCENE_MODE_NIGHT) ct).
Proof.
  intros Hch Hnight.
  assert (scene_of newScene = Some CameraDriver.SCENE_MODE_NIGHT) as Hscene.
  { head_of Hnight. by vm_compute. }
  split; [done|]. unfold processParamSceneMode. by rewrite Hch, Hscene.
Qed.

Lemma validate_windows_outcome fuel argTail maxWindows win :
  0 < maxWindows ->
  (∀ s, argTail = Some s -> (String.length s < fuel)%nat) ->
  validate_windows fuel argTail 0 maxWindows win = Some NO_ERROR ∨
  validate_windows fuel argTail 0 maxWindows win = Some BAD_VALUE.
Proof.
  intros Hmax. revert argTail win.
  induction fuel as [|fuel IH]; intros argTail win Hlen.
  - destruct argTail as [s|]; simpl; [|by left].
    specialize (Hlen s eq_refl). lia.
  - destruct argTail as [s|]; simpl; [|by left].
    rewrite decide_True by done.
    destruct (sscanf_window s win) as [i win1].
    assert (∀ s', strchr_next s paren = Some s' -> (String.length s' < fuel)%nat) as Hnext.
    { intros s' Hs'. apply strchr_next_length in Hs'. specialize (Hlen s eq_refl). lia. }
    destruct (all_zero win1); [by apply IH|].
    destruct (decide (i ≠ 5)); [by right|].
    destruct (verifyCameraWindow win1); simpl; [by apply IH|by right].
Qed.

Lemma validate_windows_limit fuel argTail m1 m2 win :
  0 < m1 -> 0 < m2 ->
  validate_windows fuel argTail 0 m1 win = validate_windows fuel argTail 0 m2 win.
Proof.
  intros H1 H2. revert argTail win.
  induction fuel as [|fuel IH]; intros argTail win.
  - destruct argTail; simpl; [|done]. by rewrite !decide_True.
  - destruct argTail as [s|]; simpl; [|done].
    rewrite !decide_True by done.
    destruct (sscanf_window s win) as [i win1].
    by rewrite !IH.
Qed.

Lemma validate_areas_outcome params keyMax keyAreas :
  validate_areas params keyMax keyAreas = Some NO_ERROR ∨
  validate_areas params keyMax keyAreas = Some BAD_VALUE.
Proof.
  unfold validate_areas.
  destruct (decide (0 < getInt params keyMax)); [|by left].
  destruct (get params keyAreas) as [p|]; [|by left].
  destruct (decide (0 < String.length p)%nat); [|by left].
  apply validate_windows_outcome; [done|]. intros s [= <-]. lia.
Qed.

(** Validation gives an answer, [NO_ERROR] or [BAD_VALUE], whenever the
    parameters hold the flash mode, the focus mode and the lists of the
    supported ones. *)
Theorem validation_answers (params : CameraParameters) :
  is_Some (get params KEY_FLASH_MODE) ->
  is_Some (get params KEY_SUPPORTED_FLASH_MODES) ->
  is_Some (get params KEY_FOCUS_MODE) ->
  is_Some (get params KEY_SUPPORTED_FOCUS_MODES) ->
  validateParameters params = Some NO_ERROR ∨ validateParameters params = Some BAD_VALUE.
Proof.
  intros [flashMode Hfm] [flashModes Hfms] [focusMode Hfo] [focusModes Hfos].
  unfold validateParameters.
  destruct (getPreviewSize params) as [previewWidth previewHeight].
  destruct (decide (previewWidth <= 0 ∨ previewHeight <= 0)); [by right|].
  destruct (getPreviewFpsRange params) as [minFPS maxFPS].
  destruct (decide (maxFPS < minFPS)); [by right|].
  destruct (decide (getInt params KEY_MAX_ZOOM < getInt params KEY_ZOOM)); [by right|].
  rewrite Hfm, Hfms. simpl.
  destruct (strstr flashModes flashMode); simpl; [|by right].
  rewrite Hfo, Hfos. simpl.
  destruct (strstr focusModes focusMode); simpl; [|by right].
  destruct (validate_areas_outcome params KEY_MAX_NUM_FOCUS_AREAS KEY_FOCUS_AREAS) as [-> | ->];
    simpl.
  - apply validate_areas_outcome.
  - by right.
Qed.

(** Validation never looks at the video size or at the picture size: two
    sets of parameters that differ in these only get the same answer. *)
Theorem validation_ignores_video_and_picture_size (params params' : CameraParameters) :
  (∀ key, key ≠ KEY_VIDEO_SIZE -> key ≠ KEY_PICTURE_SIZE -> params' !! key = params !! key) ->
  validateParameters params' = validateParameters params.
Proof.
  intros Hsame.
  unfold validateParameters, validate_areas, getPreviewSize, getPreviewFpsRange, get_pair,
    getInt, get.
  by rewrite !Hsame by done.
Qed.

Lemma validate_areas_limit params keyMax keyAreas max1 max2 :
  keyMax ≠ keyAreas -> 0 < strtol max1 -> 0 < strtol max2 ->
  validate_areas (<[keyMax := max1]> params) keyMax keyAreas
    = validate_areas (<[keyMax := max2]> params) keyMax keyAreas.
Proof.
  intros Hne H1 H2. unfold validate_areas, getInt, get.
  rewrite !lookup_insert_eq, !lookup_insert_ne by done. cbv beta iota.
  rewrite !decide_True by done.
  destruct (params !! keyAreas) as [p|]; [|done].
  destruct (decide (0 < String.length p)%nat); [|done].
  by apply validate_windows_limit.
Qed.

Lemma validate_areas_other params key value keyMax keyAreas :
  key ≠ keyMax -> key ≠ keyAreas ->
  validate_areas (<[key := value]> params) keyMax keyAreas
    = validate_areas params keyMax keyAreas.
Proof.
  intros H1 H2. unfold validate_areas, getInt, get.
  by rewrite !lookup_insert_ne by done.
Qed.

(** Validation never counts the windows: with a positive maximum number of
    focus or metering areas, the answer does not depend on that number. *)
Theorem window_count_is_never_checked (params : CameraParameters) (max1 max2 : string) :
  0 < strtol max1 -> 0 < strtol max2 ->
  validateParameters (<[KEY_MAX_NUM_FOCUS_AREAS := max1]> params)
    = validateParameters (<[KEY_MAX_NUM_FOCUS_AREAS := max2]> params) ∧
  validateParameters (<[KEY_MAX_NUM_METERING_AREAS := max1]> params)
    = validateParameters (<[KEY_MAX_NUM_METERING_AREAS := max2]> params).
Proof.
  intros H1 H2.
  unfold validateParameters, getPreviewSize, getPreviewFpsRange, get_pair, getInt, get.
  split.
  - rewrite !lookup_insert_ne by done.
    rewrite (validate_areas_limit params KEY_MAX_NUM_FOCUS_AREAS KEY_FOCUS_AREAS max1 max2)
      by done.
    by rewrite !(validate_areas_other _ _ _ KEY_MAX_NUM_METERING_AREAS KEY_METERING_AREAS)
      by done.
  - rewrite !lookup_insert_ne by done.
    rewrite (validate_areas_limit params KEY_MAX_NUM_METERING_AREAS KEY_METERING_AREAS max1 max2)
      by done.
    by rewrite !(validate_areas_other _ _ _ KEY_MAX_NUM_FOCUS_AREAS KEY_FOCUS_AREAS) by done.
Qed.

End ParameterFacts.

(** ** The state of the control thread *)

Section ThreadFacts.
Context `{Dev : !Device, Hos : !Host, Col : !ControlThread.Collaborators}.
Import ControlThread.

Lemma findRecordingBuffer_loop_find fuel i findMe ct a :
  mCoupledBuffers ct = Some a -> 0 <= i ->
  i + Z.of_nat fuel = mNumBuffers ct -> mNumBuffers ct <= Z.of_nat (length a) ->
  findRecordingBuffer_loop fuel i findMe ct
    = Some ((recordingBuff ∘ snd) <$>
            list_find (λ c, CameraDriver.buff (recordingBuff c) = Some findMe)
                      (take fuel (drop (Z.to_nat i) a))).
Proof.
  intros Ha. revert i. induction fuel as [|fuel IH]; intros i Hi Hn Hlen; simpl.
  - done.
  - rewrite decide_True by lia.
    unfold coupled_get. rewrite Ha. simpl. unfold array_get. rewrite decide_True by done.
    destruct (lookup_lt_is_Some_2 a (Z.to_nat i)) as [c Hc]; [lia|].
    rewrite Hc. simpl. rewrite (drop_S _ _ _ Hc). simpl.
    destruct (decide (CameraDriver.buff (recordingBuff c) = Some findMe)); [done|].
    fold (coupled_get (i + 1) ct).
    rewrite IH by lia.
    replace (Z.to_nat (i + 1)) with (S (Z.to_nat i)) by lia.
    by destruct (list_find _ _) as [[? ?]|].
Qed.

(** A recording frame that the video thread gives back is looked up by the
    address of its memory among the recording buffers of the coupled
    entries, and the first entry with that address is taken.  While the
    thread records, a frame that no entry holds is answered with
    [DEAD_OBJECT] and nothing changes. *)
Theorem released_recording_frame_is_found_by_address (findMe : Z) (ct : t)
    (a : list CoupledBuffer) :
  mCoupledBuffers ct = Some a ->
  mNumBuffers ct <= Z.of_nat (length a) ->
  findRecordingBuffer findMe ct
    = Some ((recordingBuff ∘ snd) <$>
            list_find (λ c, CameraDriver.buff (recordingBuff c) = Some findMe)
                      (take (Z.to_nat (mNumBuffers ct)) a)) ∧
  (mState ct = STATE_RECORDING ->
   Forall (λ c, CameraDriver.buff (recordingBuff c) ≠ Some findMe)
          (take (Z.to_nat (mNumBuffers ct)) a) ->
   handleMessageReleaseRecordingFrame findMe ct = Some (DEAD_OBJECT, ct)).
Proof.
  intros Ha Hlen.
  assert (findRecordingBuffer findMe ct
          = Some ((recordingBuff ∘ snd) <$>
                  list_find (λ c, CameraDriver.buff (recordingBuff c) = Some findMe)
                            (take (Z.to_nat (mNumBuffers ct)) a))) as Hfind.
  { unfold findRecordingBuffer. rewrite Ha.
    destruct (decide (0 <= mNumBuffers ct)) as [Hn|Hn].
    - by rewrite (findRecordingBuffer_loop_find _ 0 findMe ct a) by (try done; lia).
    - replace (Z.to_nat (mNumBuffers ct)) with 0%nat by lia. done. }
  split; [done|]. intros Hstate Hnone.
  unfold handleMessageReleaseRecordingFrame. rewrite decide_True by done.
  rewrite Hfind. simpl.
  destruct (list_find _ _) as [[k c]|] eqn:Hk; [|done].
  apply list_find_Some in Hk as (Hk & Hc & _).
  rewrite Forall_forall in Hnone. exfalso. eapply Hnone; [|done].
  by eapply list_elem_of_lookup_2.
Qed.

Lemma same_session_refl ct : same_session ct ct.
Proof. by unfold same_session. Qed.

Lemma same_session_trans ct ct1 ct2 :
  same_session ct ct1 -> same_session ct1 ct2 -> same_session ct ct2.
Proof. unfold same_session. intros (? & ? & ? & ? & ?) (? & ? & ? & ? & ?). split_and!; congruence. Qed.

Lemma invariants_kept_refl ct : invariants_kept ct ct.
Proof. by unfold invariants_kept. Qed.

Lemma invariants_kept_trans ct ct1 ct2 :
  invariants_kept ct ct1 -> invariants_kept ct1 ct2 -> invariants_kept ct ct2.
Proof. unfold invariants_kept. intros [? ?] [? ?]. split; auto. Qed.

Lemma same_session_kept ct ct1 : same_session ct ct1 -> invariants_kept ct ct1.
Proof.
  unfold same_session, invariants_kept, coupled_buffers_ready, idle_when_stopped.
  intros (Hs & Hc & Hn & _ & Hm). rewrite Hs, Hc, Hn, Hm. done.
Qed.

Lemma invoke_same c ct : same_session ct (invoke c ct).2.
Proof. by unfold same_session. Qed.

Lemma ask_same c ct : same_session ct (ask c ct).
Proof. by unfold same_session. Qed.

Lemma stopFaceDetection_same wait ct : same_session ct (stopFaceDetection wait ct).2.
Proof. unfold stopFaceDetection, same_session. by repeat case_match. Qed.

Lemma startFaceDetection_same ct : same_session ct (startFaceDetection ct).2.
Proof. unfold startFaceDetection, same_session. by repeat case_match. Qed.

Lemma reply_keeps id status ct ct1 :
  reply id status ct = Some ct1 ->
  same_session ct ct1 ∧ calls ct1 = calls ct ∧ mDriver ct1 = mDriver ct.
Proof.
  unfold reply, same_session. intros H. apply bind_Some in H as (q & _ & [= <-]). done.
Qed.

Lemma send_same msg id ct r ct1 : send msg id ct = Some (r, ct1) -> same_session ct ct1.
Proof.
  unfold send, same_session. intros H. apply bind_Some in H as ([r0 q] & _ & [= <- <-]). done.
Qed.

Lemma processParamEffect_same old new ct : same_session ct (processParamEffect old new ct).2.
Proof. unfold processParamEffect, same_session. by repeat case_match. Qed.

Lemma processParamFlash_same old new ct : same_session ct (processParamFlash old new ct).2.
Proof. unfold processParamFlash, same_session. by repeat case_match. Qed.

Lemma processParamSceneMode_same old new ct :
  same_session ct (processParamSceneMode old new ct).2.
Proof. unfold processParamSceneMode, same_session. by repeat case_match. Qed.

Lemma processParamWhiteBalance_same old new ct :
  same_session ct (processParamWhiteBalance old new ct).2.
Proof. unfold processParamWhiteBalance, same_session. by repeat case_match. Qed.

Lemma processParamAELock_same old new ct : same_session ct (processParamAELock old new ct).2.
Proof. unfold processParamAELock, same_session. by repeat case_match. Qed.

Lemma processParamAWBLock_same old new ct : same_session ct (processParamAWBLock old new ct).2.
Proof. unfold processParamAWBLock, same_session. by repeat case_match. Qed.

Lemma processParamFocusMode_same old new ct status ct1 :
  processParamFocusMode old new ct = Some (status, ct1) -> same_session ct ct1.
Proof.
  unfold processParamFocusMode, same_session. intros H.
  repeat case_match; simplify_eq/=; try done;
    apply bind_Some in H as (w & _ & H); by repeat case_match; simplify_eq/=.
Qed.

Lemma processParamSetMeteringAreas_same old new ct status ct1 :
  processParamSetMeteringAreas old new ct = Some (status, ct1) -> same_session ct ct1.
Proof.
  unfold processParamSetMeteringAreas, same_session. intros H.
  apply bind_Some in H as (w & _ & H). by repeat case_match; simplify_eq/=.
Qed.

Lemma setZoom_mode zoom_ d st d1 :
  CameraDriver.setZoom zoom_ d = Some (st, d1) -> CameraDriver.mMode d1 = CameraDriver.mMode d.
Proof.
  unfold CameraDriver.setZoom, CameraDriver.set_zoom. intros H.
  repeat case_match; simplify_eq/=; try done.
  apply bind_Some in H as (fd & _ & H). by repeat case_match; simplify_eq/=.
Qed.

Lemma guarded_same (P : Prop) `{!Decision P} (f : t -> status_t * t) s c ct0 :
  (∀ c, same_session c (f c).2) ->
  same_session ct0 c ->
  ∃ s' c', (if decide P then f c else (s, c)) = (s', c') ∧ same_session ct0 c'.
Proof.
  intros Hf Hc. destruct (decide P); [|by eauto].
  destruct (f c) as [s' c'] eqn:Hfc. specialize (Hf c). rewrite Hfc in Hf.
  exists s', c'. split; [done|]. by eapply same_session_trans.
Qed.

Lemma processDynamicParameters_same old new ct status ct1 :
  processDynamicParameters old new ct = Some (status, ct1) -> same_session ct ct1.
Proof.
  unfold processDynamicParameters. intros H.
  apply bind_Some in H as (ct0 & Hzoom & H).
  assert (same_session ct ct0) as E0.
  { destruct (decide _); [|injection Hzoom as <-; apply same_session_refl].
    apply bind_Some in Hzoom as ([? d] & Hz & [= <-]). apply setZoom_mode in Hz.
    by unfold same_session. }
  destruct (processParamEffect old new ct0) as [s1 c1] eqn:H1.
  pose proof (processParamEffect_same old new ct0) as E1. rewrite H1 in E1. simpl in E1.
  pose proof (same_session_trans _ _ _ E0 E1) as E1'.
  destruct (guarded_same (s1 = NO_ERROR) (processParamFlash old new) s1 c1 ct
              (processParamFlash_same old new) E1') as (s2 & c2 & H2 & E2).
  rewrite H2 in H.
  destruct (guarded_same (s2 = NO_ERROR) (processParamSceneMode old new) s2 c2 ct
              (processParamSceneMode_same old new) E2) as (s3 & c3 & H3 & E3).
  rewrite H3 in H.
  apply bind_Some in H as ([s4 c4] & Hfocus & H).
  assert (same_session ct c4) as E4.
  { clear H2 H3. destruct (decide (s3 = NO_ERROR)); [|by injection Hfocus as _ <-].
    apply processParamFocusMode_same in Hfocus. by eapply same_session_trans. }
  simpl in H.
  destruct (guarded_same (s4 = NO_ERROR ∨ mFaceDetectionActive c4 = false)
              (processParamWhiteBalance old new) s4 c4 ct
              (processParamWhiteBalance_same old new) E4) as (s5 & c5 & H5 & E5).
  rewrite H5 in H.
  destruct (guarded_same (s5 = NO_ERROR) (processParamAELock old new) s5 c5 ct
              (processParamAELock_same old new) E5) as (s6 & c6 & H6 & E6).
  rewrite H6 in H.
  destruct (guarded_same (s6 = NO_ERROR) (processParamAWBLock old new) s6 c6 ct
              (processParamAWBLock_same old new) E6) as (s7 & c7 & H7 & E7).
  rewrite H7 in H. clear H2 H3 H5 H6 H7.
  destruct (decide (_ ∧ _)); [|by injection H as _ <-].
  apply processParamSetMeteringAreas_same in H. by eapply same_session_trans.
Qed.

Lemma stopPreviewCore_parameters ct st ct1 :
  stopPreviewCore ct = Some (st, ct1) -> mParameters ct1 = mParameters ct.
Proof.
  unfold stopPreviewCore. intros H.
  apply bind_Some in H as ([st0 d] & _ & [= <- <-]). by destruct (decide _).
Qed.

Lemma startPreviewCore_parameters videoMode ct st ct1 :
  startPreviewCore videoMode ct = Some (st, ct1) -> mParameters ct1 = mParameters ct.
Proof.
  unfold startPreviewCore. intros H.
  destruct (decide _); [by injection H as _ <-|].
  destruct (decide _); [by injection H as _ <-|].
  destruct (getPreviewSize _) as [w h].
  destruct (decide _); [done|].
  apply bind_Some in H as ([st0 d] & _ & [= <- <-]).
  destruct (decide _); simpl; destruct videoMode; simpl; by try destruct (getVideoSize _).
Qed.

Lemma restartPreview_parameters videoMode ct st ct1 :
  restartPreview videoMode ct = Some (st, ct1) -> mParameters ct1 = mParameters ct.
Proof.
  unfold restartPreview. intros H.
  apply bind_Some in H as ([st0 ct2] & Hstop & H). apply stopPreviewCore_parameters in Hstop.
  apply bind_Some in H as ([st2 ct3] & Hstart & [= <- <-]).
  destruct (stopFaceDetection_same true ct) as (_ & _ & _ & Hface & _).
  assert (mParameters ct3 = mParameters ct2) as Hp.
  { destruct (decide _); [by apply startPreviewCore_parameters in Hstart|].
    by injection Hstart as _ <-. }
  destruct (mFaceDetectionActive ct);
    [destruct (startFaceDetection_same ct3) as (_ & _ & _ & Hf & _)|]; congruence.
Qed.

Lemma processStaticParameters_parameters oldParams newParams ct st newParams1 ct1 :
  processStaticParameters oldParams newParams ct = Some (st, newParams1, ct1) ->
  mParameters ct1 = mParameters ct ∧
  ∀ key, key ≠ KEY_VIDEO_SIZE -> newParams1 !! key = newParams !! key.
Proof.
  unfold processStaticParameters. intros H.
  destruct (getPreviewSize newParams) as [newWidth newHeight].
  destruct (getPreviewSize oldParams) as [oldWidth oldHeight].
  match type of H with
  | context [if ?b then (newWidth, newHeight) else _] => destruct b
  end;
  destruct (getVideoSize newParams) as [newVideoWidth newVideoHeight];
  destruct (getVideoSize oldParams) as [oldVideoWidth oldVideoHeight];
  match type of H with
  | (if ?b || ?c then _ else _) = _ => destruct c
  end; simpl in H;
  repeat match type of H with
  | context [aspect_gt ?a ?b ?c ?d] => destruct (aspect_gt a b c d)
  | context [matching_video_size ?a ?b ?c] => destruct (matching_video_size a b c) as [[? ?]|]
  | context [match mState ct with _ => _ end] => destruct (mState ct)
  | (_ ≫= _) = Some _ => apply bind_Some in H as ([? ?] & ?%restartPreview_parameters & H)
  end;
  simplify_eq/=; (split; [done|]); intros key Hkey; try done;
    unfold setVideoSize; by rewrite lookup_insert_ne.
Qed.

Lemma stop_outcome d st d1 :
  CameraDriver.stop d = Some (st, d1) -> st = NO_ERROR ∧ CameraDriver.mMode d1 = MODE_NONE.
Proof.
  unfold CameraDriver.stop, CameraDriver.stopPreview, CameraDriver.stopRecording,
    CameraDriver.stopCapture. intros H.
  apply bind_Some in H as ([st0 d0] & Hs & H). simpl in H.
  assert (st0 = NO_ERROR) as ->.
  { destruct (CameraDriver.mMode d); [by injection Hs as <- _|..];
      unfold CameraDriver.stop_device in Hs;
      apply bind_Some in Hs as (? & _ & Hs);
      apply bind_Some in Hs as ([? ?] & _ & Hs); by injection Hs as <- _. }
  rewrite decide_True in H by done. by injection H as <- <-.
Qed.

Lemma allocateBuffers_mode n d st d1 :
  CameraDriver.allocateBuffers n d = Some (st, d1) -> CameraDriver.mMode d1 = CameraDriver.mMode d.
Proof.
  unfold CameraDriver.allocateBuffers, CameraDriver.ioctl, CameraDriver.call. intros H.
  destruct (CameraDriver.bufs _); [by injection H as _ <-|].
  apply bind_Some in H as (fd & _ & H). simpl in H.
  destruct (decide _); [by injection H as _ <-|].
  destruct (decide _); [done|].
  apply bind_Some in H as ([st0 d3] & Hloop & H).
  apply allocateBuffer_loop_same in Hloop as [Hm _]. simpl in Hm, H.
  destruct (decide _); [by injection H as _ <-|].
  apply bind_Some in H as (d4 & Hfree & [= _ <-]).
  apply free_all_same in Hfree as [Hm4 _]. simpl. congruence.
Qed.

Lemma configureDevice_mode deviceMode w h n d r d1 :
  CameraDriver.configureDevice deviceMode w h n d = Some (r, d1) ->
  CameraDriver.mMode d1 = CameraDriver.mMode d.
Proof.
  unfold CameraDriver.configureDevice, CameraDriver.set_capture_mode,
    CameraDriver.v4l2_capture_s_format, CameraDriver.v4l2_capture_g_framerate,
    CameraDriver.ioctl, CameraDriver.call. intros H.
  destruct (decide _); [by injection H as _ <-|].
  apply bind_Some in H as (fd & Hfd & H). rewrite Hfd in H. simpl in H.
  repeat (destruct (decide _) in H; simpl in H; try (by injection H as _ <-)).
  all: apply bind_Some in H as ([st0 d4] & Halloc & [= _ <-]);
    by apply allocateBuffers_mode in Halloc.
Qed.

Lemma startDevice_mode d r d1 :
  CameraDriver.startDevice d = Some (r, d1) -> CameraDriver.mMode d1 = CameraDriver.mMode d.
Proof.
  unfold CameraDriver.startDevice, CameraDriver.ioctl, CameraDriver.call. intros H.
  apply bind_Some in H as (fd & _ & H).
  apply bind_Some in H as ([ok d0] & Hloop & H).
  apply startDevice_loop_same in Hloop as [Hm _].
  destruct ok; by injection H as _ <-.
Qed.

Lemma start_device_in_mode deviceMode resend d st d1 :
  CameraDriver.start_device_in deviceMode resend d = Some (st, d1) ->
  CameraDriver.mMode d1 = CameraDriver.mMode d.
Proof.
  unfold CameraDriver.start_device_in, CameraDriver.set_zoom. intros H.
  destruct (CameraDriver.openDevice d) as [r d0] eqn:Ho.
  apply openDevice_outcome in Ho as (_ & Hm0 & _).
  destruct (decide _); [by injection H as _ <-|].
  apply bind_Some in H as ([r2 d2] & Hc & H). apply configureDevice_mode in Hc. simpl in H.
  destruct (decide _).
  { injection H as _ <-. destruct (closeDevice_outcome d2) as (_ & Hm & _). congruence. }
  apply bind_Some in H as (d3 & Hz & H).
  assert (d3 = d2) as -> by (destruct resend; unwind; done).
  apply bind_Some in H as ([r3 d4] & Hs & H). apply startDevice_mode in Hs. simpl in H.
  destruct (decide _).
  - apply bind_Some in H as ([r5 d5] & Hd & H).
    apply deconfigureDevice_outcome in Hd as ([Hm5 _] & _).
    injection H as _ <-. destruct (closeDevice_outcome d5) as (_ & Hm & _). congruence.
  - injection H as _ <-. congruence.
Qed.

Lemma start_outcome mode d st d1 :
  CameraDriver.start mode d = Some (st, d1) ->
  st ≠ NO_ERROR -> CameraDriver.mMode d1 = CameraDriver.mMode d.
Proof.
  unfold CameraDriver.start, CameraDriver.startPreview, CameraDriver.startRecording,
    CameraDriver.startCapture. intros H Hst.
  apply bind_Some in H as ([st0 d0] & Hs & H). simpl in H.
  destruct (decide (st0 = NO_ERROR)); [by injection H as <- _|].
  injection H as _ <-.
  destruct mode; [by injection Hs as _ <-|by apply start_device_in_mode in Hs..].
Qed.

Lemma queueBuffer_mode buff init d st d1 :
  CameraDriver.queueBuffer buff init d = Some (st, d1) ->
  CameraDriver.mMode d1 = CameraDriver.mMode d.
Proof. intros H. by apply queueBuffer_same in H as [? _]. Qed.

Lemma dequeueBuffer_mode ts d st got d1 :
  CameraDriver.dequeueBuffer ts d = Some (st, got, d1) ->
  CameraDriver.mMode d1 = CameraDriver.mMode d.
Proof.
  unfold CameraDriver.dequeueBuffer, CameraDriver.call. intros H.
  apply bind_Some in H as (fd & _ & H). simpl in H.
  destruct (decide _); [by injection H as _ _ <-|].
  apply bind_Some in H as (b & _ & H).
  apply bind_Some in H as (d2 & Hset & H).
  apply pool_set_same in Hset as [Hm _]. simpl in Hm.
  destruct ts; by injection H as _ _ <-.
Qed.

Lemma put_frame_mode buff d st d1 :
  CameraDriver.putPreviewFrame buff d = Some (st, d1)
  ∨ CameraDriver.putRecordingFrame buff d = Some (st, d1)
  ∨ CameraDriver.putSnapshot buff d = Some (st, d1) ->
  CameraDriver.mMode d1 = CameraDriver.mMode d.
Proof.
  unfold CameraDriver.putPreviewFrame, CameraDriver.putRecordingFrame, CameraDriver.putSnapshot.
  intros [H|[H|H]]; (destruct (decide _); [by injection H as _ <-|by apply queueBuffer_mode in H]).
Qed.

Lemma get_frame_mode d st got d1 :
  CameraDriver.getPreviewFrame d = Some (st, got, d1)
  ∨ CameraDriver.getRecordingFrame d = Some (st, got, d1)
  ∨ CameraDriver.getSnapshot d = Some (st, got, d1) ->
  CameraDriver.mMode d1 = CameraDriver.mMode d.
Proof.
  unfold CameraDriver.getPreviewFrame, CameraDriver.getRecordingFrame, CameraDriver.getSnapshot.
  intros [H|[H|H]];
    (destruct (decide _); [by injection H as _ _ <-|by apply dequeueBuffer_mode in H]).
Qed.

Lemma copy_out_Some r st got d :
  CameraDriver.copy_out r = Some (st, got, d) -> ∃ got', r = Some (st, got', d).
Proof.
  unfold CameraDriver.copy_out. destruct r as [[[st0 got0] d0]|]; [|done]. simpl.
  destruct got0 as [[p ts]|].
  - intros H. apply bind_Some in H as (b & _ & [= <- <- <-]). by eexists.
  - intros [= <- <- <-]. by eexists.
Qed.

Lemma copied_frame_mode d st got d1 :
  CameraDriver.copy_out (CameraDriver.getPreviewFrame d) = Some (st, got, d1)
  ∨ CameraDriver.copy_out (CameraDriver.getRecordingFrame d) = Some (st, got, d1)
  ∨ CameraDriver.copy_out (CameraDriver.getSnapshot d) = Some (st, got, d1) ->
  CameraDriver.mMode d1 = CameraDriver.mMode d.
Proof.
  intros [H|[H|H]]; apply copy_out_Some in H as [got' H];
    eapply get_frame_mode; eauto.
Qed.

Lemma frame_size_mode w h d :
  CameraDriver.mMode (CameraDriver.setPreviewFrameSize w h d).2 = CameraDriver.mMode d ∧
  CameraDriver.mMode (CameraDriver.setVideoFrameSize w h d).2 = CameraDriver.mMode d.
Proof.
  unfold CameraDriver.setPreviewFrameSize, CameraDriver.setVideoFrameSize.
  split; [done|]. by repeat case_match.
Qed.

Lemma fields_kept ct ct1 :
  mState ct1 = mState ct -> mCoupledBuffers ct1 = mCoupledBuffers ct ->
  mNumBuffers ct1 = mNumBuffers ct ->
  CameraDriver.mMode (mDriver ct1) = CameraDriver.mMode (mDriver ct) ->
  invariants_kept ct ct1.
Proof.
  unfold invariants_kept, coupled_buffers_ready, idle_when_stopped.
  intros Hs Hc Hn Hm. rewrite Hs, Hc, Hn, Hm. done.
Qed.

Lemma idle_kept ct ct1 :
  mState ct1 = STATE_STOPPED -> CameraDriver.mMode (mDriver ct1) = MODE_NONE ->
  invariants_kept ct ct1.
Proof.
  unfold invariants_kept, coupled_buffers_ready, idle_when_stopped.
  intros Hs Hm. split; intros; done.
Qed.

Lemma capture_kept ct ct1 : mState ct1 = STATE_CAPTURE -> invariants_kept ct ct1.
Proof.
  unfold invariants_kept, coupled_buffers_ready, idle_when_stopped.
  intros Hs. split; intros; congruence.
Qed.

Lemma streaming_kept ct ct1 :
  mState ct ≠ STATE_STOPPED -> mState ct ≠ STATE_CAPTURE -> mState ct1 ≠ STATE_STOPPED ->
  mCoupledBuffers ct1 = mCoupledBuffers ct -> mNumBuffers ct1 = mNumBuffers ct ->
  invariants_kept ct ct1.
Proof.
  unfold invariants_kept, coupled_buffers_ready, idle_when_stopped.
  intros H1 H2 H3 Hc Hn. rewrite Hc, Hn. split; intros; [auto|done].
Qed.

Lemma coupled_set_kept i c ct ct1 :
  coupled_set i c ct = Some ct1 -> invariants_kept ct ct1.
Proof.
  unfold coupled_set. intros H.
  apply bind_Some in H as (a & Ha & H). apply bind_Some in H as (a1 & Hset & [= <-]).
  apply array_set_length in Hset.
  unfold invariants_kept, coupled_buffers_ready, idle_when_stopped. simpl.
  split; [|done]. intros Hready H1 H2. destruct (Hready H1 H2) as (a0 & Ha0 & Hlen).
  exists a1. split; [done|]. congruence.
Qed.

Lemma queueCoupledBuffers_same i ct st ct1 :
  queueCoupledBuffers i ct = Some (st, ct1) -> same_session ct ct1.
Proof.
  unfold queueCoupledBuffers. intros H.
  apply bind_Some in H as (c & _ & H).
  destruct (_ || _); [injection H as _ <-; apply same_session_refl|].
  apply bind_Some in H as ([st0 d] & Hrec & H). simpl in H.
  pose proof (put_frame_mode _ _ _ _ (or_intror (or_introl Hrec))) as Hm.
  destruct (decide _); [|injection H as _ <-; by unfold same_session].
  apply bind_Some in H as ([st2 d2] & Hpre & [= _ <-]).
  pose proof (put_frame_mode _ _ _ _ (or_introl Hpre)) as Hm2.
  unfold same_session. simpl. split_and!; try done. congruence.
Qed.

Lemma stopPreviewCore_outcome ct st ct1 :
  stopPreviewCore ct = Some (st, ct1) ->
  st = NO_ERROR ∧ mState ct1 = STATE_STOPPED ∧ CameraDriver.mMode (mDriver ct1) = MODE_NONE.
Proof.
  unfold stopPreviewCore. intros H.
  apply bind_Some in H as ([st0 d] & Hstop & [= <- <-]).
  apply stop_outcome in Hstop as [-> Hm]. by rewrite decide_True.
Qed.

Lemma startPreviewCore_kept videoMode ct st ct1 :
  startPreviewCore videoMode ct = Some (st, ct1) -> invariants_kept ct ct1.
Proof.
  unfold startPreviewCore. intros H.
  destruct (decide (mState ct ≠ STATE_STOPPED)) as [|Hs];
    [injection H as _ <-; apply invariants_kept_refl|].
  assert (mState ct = STATE_STOPPED) as Hstopped
    by (by destruct (decide (mState ct = STATE_STOPPED))).
  destruct (decide (_ = -1)); [injection H as _ <-; apply invariants_kept_refl|].
  destruct (getPreviewSize _) as [w h].
  destruct (decide (_ < 0)); [done|].
  apply bind_Some in H as ([status d] & Hstart & [= <- <-]).
  assert (status ≠ NO_ERROR -> CameraDriver.mMode d = CameraDriver.mMode (mDriver ct)) as Hmode.
  { intros Hst. apply start_outcome in Hstart; [|done]. rewrite Hstart.
    destruct videoMode.
    - destruct (getVideoSize _) as [vw vh].
      transitivity
        (CameraDriver.mMode (CameraDriver.setPreviewFrameSize w h (mDriver ct)).2).
      + exact (proj2 (frame_size_mode vw vh _)).
      + exact (proj1 (frame_size_mode w h _)).
    - exact (proj1 (frame_size_mode w h _)). }
  unfold invariants_kept, coupled_buffers_ready, idle_when_stopped. split.
  - intros _ _ _. eexists. unfold CameraDriver.getNumBuffers in *.
    destruct (decide (status = NO_ERROR)); simpl; (split; [done|]);
      rewrite length_replicate; lia.
  - intros Hidle. destruct (decide (status = NO_ERROR)); simpl.
    + by destruct videoMode.
    + intros _. rewrite Hmode by done. by apply Hidle.
Qed.

Lemma stopCapture_kept ct st ct1 : stopCapture ct = Some (st, ct1) -> invariants_kept ct ct1.
Proof.
  unfold stopCapture. intros H.
  destruct (decide _); [injection H as _ <-; apply invariants_kept_refl|].
  destruct (invoke PictureThread_flushBuffers ct) as [status ct0] eqn:Hinv.
  pose proof (invoke_same PictureThread_flushBuffers ct) as E. rewrite Hinv in E. simpl in E.
  destruct (decide _); [injection H as _ <-; by apply same_session_kept|].
  apply bind_Some in H as ([status2 d] & Hstop & H).
  apply stop_outcome in Hstop as [-> Hm]. simpl in H.
  injection H as _ <-. by apply idle_kept.
Qed.

Lemma restartPreview_kept videoMode ct st ct1 :
  restartPreview videoMode ct = Some (st, ct1) -> invariants_kept ct ct1.
Proof.
  unfold restartPreview. intros H.
  apply bind_Some in H as ([st0 ct2] & Hstop & H).
  apply stopPreviewCore_outcome in Hstop as (-> & Hs & Hm).
  apply bind_Some in H as ([st2 ct3] & Hstart & [= <- <-]).
  rewrite decide_True in Hstart by done. apply startPreviewCore_kept in Hstart.
  eapply invariants_kept_trans; [by apply (idle_kept ct ct2)|].
  eapply invariants_kept_trans; [exact Hstart|].
  destruct (mFaceDetectionActive ct); [|apply invariants_kept_refl].
  apply same_session_kept, startFaceDetection_same.
Qed.

Lemma handleMessageStartPreview_kept ct st ct1 :
  handleMessageStartPreview ct = Some (st, ct1) -> invariants_kept ct ct1.
Proof.
  unfold handleMessageStartPreview. intros H.
  apply bind_Some in H as ([stopped ct0] & Hcap & H). simpl in H.
  assert (invariants_kept ct ct0) as E0.
  { destruct (decide _); [by apply stopCapture_kept in Hcap|].
    injection Hcap as _ <-. apply invariants_kept_refl. }
  destruct (decide (stopped ≠ NO_ERROR)); [by injection H as _ <-|].
  apply bind_Some in H as ([status ct2] & Hstart & H).
  apply bind_Some in H as (ct3 & Hreply & [= _ <-]).
  apply reply_keeps in Hreply as [E3 _].
  eapply invariants_kept_trans; [exact E0|].
  eapply invariants_kept_trans; [|by apply same_session_kept].
  destruct (decide (mState ct0 = STATE_STOPPED));
    [|injection Hstart as _ <-; apply invariants_kept_refl].
  apply startPreviewCore_kept in Hstart.
  eapply invariants_kept_trans; [|exact Hstart].
  apply same_session_kept, stopFaceDetection_same.
Qed.

Lemma handleMessageStopPreview_kept ct st ct1 :
  handleMessageStopPreview ct = Some (st, ct1) -> invariants_kept ct ct1.
Proof.
  unfold handleMessageStopPreview. intros H.
  apply bind_Some in H as ([status ct0] & Hstop & H).
  apply bind_Some in H as (ct2 & Hreply & [= _ <-]).
  apply reply_keeps in Hreply as [E2 _].
  eapply invariants_kept_trans; [|by apply same_session_kept].
  destruct (decide _); [|injection Hstop as _ <-; apply invariants_kept_refl].
  destruct (decide _).
  - apply stopPreviewCore_outcome in Hstop as (_ & Hs & Hm). by apply idle_kept.
  - injection Hstop as _ <-. apply same_session_kept, stopFaceDetection_same.
Qed.

Lemma handleMessageStartRecording_kept ct st ct1 :
  handleMessageStartRecording ct = Some (st, ct1) -> invariants_kept ct ct1.
Proof.
  unfold handleMessageStartRecording. intros H.
  apply bind_Some in H as ([status ct0] & Hstart & H).
  apply bind_Some in H as (ct2 & Hreply & [= _ <-]).
  apply reply_keeps in Hreply as [E2 _].
  eapply invariants_kept_trans; [|by apply same_session_kept].
  destruct (decide (mState ct = STATE_PREVIEW_VIDEO)) as [Hv|].
  { injection Hstart as _ <-. apply streaming_kept; simpl; congruence. }
  destruct (decide (mState ct = STATE_PREVIEW_STILL)) as [Hp|];
    [|injection Hstart as _ <-; apply invariants_kept_refl].
  apply bind_Some in Hstart as ([s1 d1] & _ & Hstart). simpl in Hstart.
  destruct (decide (s1 = NO_ERROR)).
  - apply bind_Some in Hstart as ([s2 d2] & _ & [= _ <-]).
    apply streaming_kept; try congruence; destruct (decide _); simpl; congruence.
  - injection Hstart as _ <-. apply streaming_kept; simpl; congruence.
Qed.

Lemma handleMessageStopRecording_kept ct st ct1 :
  handleMessageStopRecording ct = Some (st, ct1) -> invariants_kept ct ct1.
Proof.
  unfold handleMessageStopRecording. intros H.
  destruct (decide (mState ct = STATE_RECORDING)) as [Hr|].
  - destruct (invoke VideoThread_flushBuffers ct) as [status ct0] eqn:Hinv.
    pose proof (invoke_same VideoThread_flushBuffers ct) as E. rewrite Hinv in E. simpl in E.
    destruct E as (Es & Ec & En & _).
    apply bind_Some in H as (ct2 & Hreply & [= _ <-]).
    apply reply_keeps in Hreply as [E2 _].
    eapply invariants_kept_trans; [|by apply same_session_kept].
    apply streaming_kept; simpl; congruence.
  - apply bind_Some in H as (ct2 & Hreply & [= _ <-]).
    apply reply_keeps in Hreply as [E2 _]. by apply same_session_kept.
Qed.

Lemma mark_and_queue_kept i c ct ct1 st ct2 :
  coupled_set i c ct = Some ct1 -> queueCoupledBuffers i ct1 = Some (st, ct2) ->
  invariants_kept ct ct2.
Proof.
  intros Hset Hq. apply coupled_set_kept in Hset. apply queueCoupledBuffers_same in Hq.
  eapply invariants_kept_trans; [exact Hset|]. by apply same_session_kept.
Qed.

Lemma handleMessageReleaseRecordingFrame_kept buff ct st ct1 :
  handleMessageReleaseRecordingFrame buff ct = Some (st, ct1) -> invariants_kept ct ct1.
Proof.
  unfold handleMessageReleaseRecordingFrame. intros H.
  destruct (decide _); [|injection H as _ <-; apply invariants_kept_refl].
  apply bind_Some in H as (found & _ & H).
  destruct found as [recBuff|]; [|injection H as _ <-; apply invariants_kept_refl].
  destruct (decide _); [|injection H as _ <-; apply invariants_kept_refl].
  apply bind_Some in H as (c & _ & H). apply bind_Some in H as (ct0 & Hset & H).
  by eapply mark_and_queue_kept.
Qed.

Lemma handleMessageReleasePreviewFrame_kept buff ct st ct1 :
  handleMessageReleasePreviewFrame buff ct = Some (st, ct1) -> invariants_kept ct ct1.
Proof.
  unfold handleMessageReleasePreviewFrame. intros H.
  destruct (decide (mState ct = STATE_PREVIEW_STILL)).
  { apply bind_Some in H as ([status d] & Hput & [= _ <-]).
    pose proof (put_frame_mode _ _ _ _ (or_introl Hput)) as Hm. by apply fields_kept. }
  destruct (decide _); [|injection H as _ <-; apply invariants_kept_refl].
  destruct (decide _); [|injection H as _ <-; apply invariants_kept_refl].
  apply bind_Some in H as (c & _ & H). apply bind_Some in H as (ct0 & Hset & H).
  by eapply mark_and_queue_kept.
Qed.

Lemma handleMessagePictureDone_kept snapshotBuf postviewBuf ct st ct1 :
  handleMessagePictureDone snapshotBuf postviewBuf ct = Some (st, ct1) -> invariants_kept ct ct1.
Proof.
  unfold handleMessagePictureDone. intros H.
  destruct (decide (mState ct = STATE_RECORDING)).
  { destruct (decide _); [|injection H as _ <-; apply invariants_kept_refl].
    apply bind_Some in H as (c & _ & H). apply bind_Some in H as (ct0 & Hset & H).
    apply bind_Some in H as ([status ct2] & Hq & H).
    apply bind_Some in H as (c2 & _ & H). apply bind_Some in H as (ct3 & Hset2 & [= _ <-]).
    eapply invariants_kept_trans; [by eapply mark_and_queue_kept|].
    by apply coupled_set_kept in Hset2. }
  destruct (decide (mState ct = STATE_CAPTURE));
    [|injection H as _ <-; apply invariants_kept_refl].
  apply bind_Some in H as ([status d] & Hput & H). simpl in H.
  pose proof (put_frame_mode _ _ _ _ (or_intror (or_intror Hput))) as Hm.
  assert (invariants_kept ct (set_mDriver ct d)) as E by (by apply fields_kept).
  repeat (destruct (decide _) in H); by injection H as _ <-.
Qed.

Lemma handleMessageTakePicture_kept ct st ct1 :
  handleMessageTakePicture ct = Some (st, ct1) -> invariants_kept ct ct1.
Proof.
  unfold handleMessageTakePicture. intros H. cbv zeta in H.
  destruct (decide (_ ∧ _)); [injection H as _ <-; apply invariants_kept_refl|].
  destruct (decide (mState ct = STATE_PREVIEW_STILL)) as [Hstill|Hnot].
  - destruct (decide (mState ct = STATE_RECORDING)); [congruence|].
    apply bind_Some in H as ([stopped ct2] & Hstop & H).
    apply stopPreviewCore_outcome in Hstop as (-> & _ & _).
    destruct (decide (NO_ERROR ≠ NO_ERROR)); [done|].
    destruct (getPictureSize _) as [width height]. unfold invoke in H. simpl in H.
    apply bind_Some in H as (? & _ & H).
    apply bind_Some in H as ([status d] & _ & H). simpl in H.
    destruct (decide (status ≠ NO_ERROR)); [injection H as _ <-; by apply capture_kept|].
    apply bind_Some in H as ([[status2 got] d2] & _ & H). simpl in H.
    destruct got as [[snapshotBuffer ?]|]; injection H as _ <-; by apply capture_kept.
  - assert (mState ct = STATE_RECORDING) as Hrec.
    { destruct (decide (mState ct = STATE_RECORDING)); [done|]. tauto. }
    destruct (decide (mState ct = STATE_RECORDING)); [|done].
    pose proof (stopFaceDetection_same false ct) as E1.
    remember (stopFaceDetection false ct).2 as ct0 eqn:Hct0. clear Hct0.
    simpl in H.
    destruct (getPictureSize _) as [width height].
    apply bind_Some in H as (? & _ & H).
    apply bind_Some in H as (c & _ & H).
    apply bind_Some in H as (ct6 & Hset & [= _ <-]).
    apply coupled_set_kept in Hset.
    eapply invariants_kept_trans; [by apply same_session_kept|].
    eapply invariants_kept_trans; [|eapply invariants_kept_trans; [exact Hset|]];
      by apply fields_kept.
Qed.

Lemma handleMessagePreviewDone_kept buff ct st ct1 :
  handleMessagePreviewDone buff ct = Some (st, ct1) -> invariants_kept ct ct1.
Proof.
  unfold handleMessagePreviewDone, releasePreviewFrame. intros H.
  apply bind_Some in H as (valid & _ & H).
  destruct (negb valid); [injection H as _ <-; apply invariants_kept_refl|].
  destruct (_ && _).
  - destruct (getPreviewSize _) as [width height].
    destruct (invoke _ ct) as [sent ct0] eqn:Hinv.
    pose proof (invoke_same (FaceDetector_sendFrame buff width height) ct) as E.
    rewrite Hinv in E. simpl in E.
    destruct (decide (sent < 0)); [|injection H as _ <-; by apply same_session_kept].
    apply bind_Some in H as ([r ct2] & Hsend & [= _ <-]). apply send_same in Hsend.
    apply same_session_kept. by eapply same_session_trans.
  - apply bind_Some in H as ([r ct2] & Hsend & [= _ <-]). apply send_same in Hsend.
    by apply same_session_kept.
Qed.

Lemma processStaticParameters_kept oldParams newParams ct st newParams1 ct1 :
  processStaticParameters oldParams newParams ct = Some (st, newParams1, ct1) ->
  invariants_kept ct ct1.
Proof.
  unfold processStaticParameters. intros H.
  destruct (getPreviewSize newParams) as [newWidth newHeight].
  destruct (getPreviewSize oldParams) as [oldWidth oldHeight].
  match type of H with
  | context [if ?b then (newWidth, newHeight) else _] => destruct b
  end;
  destruct (getVideoSize newParams) as [newVideoWidth newVideoHeight];
  destruct (getVideoSize oldParams) as [oldVideoWidth oldVideoHeight];
  match type of H with
  | (if ?b || ?c then _ else _) = _ => destruct c
  end; simpl in H;
  repeat match type of H with
  | context [aspect_gt ?a ?b ?c ?d] => destruct (aspect_gt a b c d)
  | context [matching_video_size ?a ?b ?c] => destruct (matching_video_size a b c) as [[? ?]|]
  | context [match mState ct with _ => _ end] => destruct (mState ct)
  | (_ ≫= _) = Some _ => apply bind_Some in H as ([? ?] & ?%restartPreview_kept & H)
  end;
  simplify_eq/=; done || apply invariants_kept_refl.
Qed.

Lemma handleMessageSetParameters_kept params ct st ct1 :
  handleMessageSetParameters params ct = Some (st, ct1) -> invariants_kept ct ct1.
Proof.
  unfold handleMessageSetParameters. fold (requested_parameters params ct).
  generalize (requested_parameters params ct). intros newParams H.
  apply bind_Some in H as ([st0 ct0] & Hbody & H).
  apply bind_Some in H as (ct2 & Hreply & [= _ <-]).
  apply reply_keeps in Hreply as [E2 _].
  eapply invariants_kept_trans; [|by apply same_session_kept].
  apply bind_Some in Hbody as (valid & _ & Hbody).
  destruct (decide (valid ≠ NO_ERROR)); [injection Hbody as _ <-; apply invariants_kept_refl|].
  apply bind_Some in Hbody as ([[static newParams1] ct3] & Hstatic & Hbody).
  apply processStaticParameters_kept in Hstatic. simpl in Hbody.
  assert (invariants_kept ct ct3) as E3.
  { eapply invariants_kept_trans; [|exact Hstatic]. by apply fields_kept. }
  destruct (decide (static ≠ NO_ERROR)); [by injection Hbody as _ <-|].
  apply bind_Some in Hbody as ([dynamic ct4] & Hdyn & Hbody).
  apply processDynamicParameters_same, same_session_kept in Hdyn. simpl in Hbody.
  assert (invariants_kept ct ct4) as E4 by (by eapply invariants_kept_trans).
  destruct (decide (dynamic ≠ NO_ERROR)); injection Hbody as _ <-; [done|].
  eapply invariants_kept_trans; [exact E4|]. by apply fields_kept.
Qed.

Lemma handleMessageGetParameters_kept params ct st ct1 :
  handleMessageGetParameters params ct = Some (st, ct1) -> invariants_kept ct ct1.
Proof.
  unfold handleMessageGetParameters. intros H.
  destruct params; apply bind_Some in H as (ct2 & Hreply & [= _ <-]);
    apply reply_keeps in Hreply as [E2 _];
    (eapply invariants_kept_trans; [|by apply same_session_kept]);
    by apply fields_kept.
Qed.

Lemma dispatch_kept msg ct st ct1 :
  dispatch msg ct = Some (st, ct1) -> invariants_kept ct ct1.
Proof.
  destruct msg; simpl.
  - unfold handleMessageExit. intros [= _ <-]. by apply fields_kept.
  - apply handleMessageStartPreview_kept.
  - apply handleMessageStopPreview_kept.
  - apply handleMessageStartRecording_kept.
  - apply handleMessageStopRecording_kept.
  - apply handleMessageReleasePreviewFrame_kept.
  - apply handleMessageTakePicture_kept.
  - unfold handleMessageCancelPicture. intros [= _ <-]. apply invariants_kept_refl.
  - unfold handleMessageAutoFocus, disableMsgType. intros [= _ <-].
    destruct (mFaceDetectionActive ct); [|apply invariants_kept_refl].
    by apply fields_kept.
  - unfold handleMessageCancelAutoFocus, enableMsgType. intros [= _ <-].
    destruct (mFaceDetectionActive ct); [|apply invariants_kept_refl].
    by apply fields_kept.
  - apply handleMessageReleaseRecordingFrame_kept.
  - apply handleMessagePreviewDone_kept.
  - apply handleMessagePictureDone_kept.
  - unfold handleMessageRedEyeRemovalDone. intros H.
    destruct (invoke _ ct) as [r ct0] eqn:Hinv. injection H as _ <-.
    pose proof (invoke_same (PictureThread_encode snapshotBuf (Some postviewBuf)) ct) as E.
    rewrite Hinv in E. by apply same_session_kept.
  - unfold handleMessageAutoFocusDone, enableMsgType. intros [= _ <-].
    destruct (mFaceDetectionActive ct); [|apply invariants_kept_refl].
    by apply fields_kept.
  - apply handleMessageSetParameters_kept.
  - apply handleMessageGetParameters_kept.
  - unfold handleMessageCommand. intros H.
    repeat (destruct (decide _) in H).
    + pose proof (startFaceDetection_same ct) as E. destruct (startFaceDetection ct).
      injection H as _ <-. by apply same_session_kept.
    + pose proof (stopFaceDetection_same false ct) as E. destruct (stopFaceDetection false ct).
      injection H as _ <-. by apply same_session_kept.
    + injection H as _ <-. apply invariants_kept_refl.
Qed.

Lemma dequeuePreview_kept ct st ct1 :
  dequeuePreview ct = Some (st, ct1) -> invariants_kept ct ct1.
Proof.
  unfold dequeuePreview. intros H.
  apply bind_Some in H as ([[status got] d] & Hget & H). simpl in H.
  pose proof (copied_frame_mode _ _ _ _ (or_introl Hget)) as Hm.
  assert (invariants_kept ct (set_mDriver ct d)) as E1 by (by apply fields_kept).
  destruct got as [[buff ts]|]; [|by injection H as _ <-].
  apply bind_Some in H as (ct2 & Hset & H).
  assert (invariants_kept (set_mDriver ct d) ct2) as E2.
  { destruct (decide _); [|injection Hset as <-; apply invariants_kept_refl].
    apply bind_Some in Hset as (c & _ & Hset). by apply coupled_set_kept in Hset. }
  destruct (invoke _ ct2) as [r ct3] eqn:Hinv.
  pose proof (invoke_same (PreviewThread_preview buff) ct2) as E3. rewrite Hinv in E3.
  injection H as _ <-.
  eapply invariants_kept_trans; [exact E1|].
  eapply invariants_kept_trans; [exact E2|]. by apply same_session_kept.
Qed.

Lemma dequeueRecording_kept ct st ct1 :
  dequeueRecording ct = Some (st, ct1) -> invariants_kept ct ct1.
Proof.
  unfold dequeueRecording. intros H.
  apply bind_Some in H as ([[status got] d] & Hget & H). simpl in H.
  pose proof (copied_frame_mode _ _ _ _ (or_intror (or_introl Hget))) as Hm.
  assert (invariants_kept ct (set_mDriver ct d)) as E1 by (by apply fields_kept).
  destruct got as [[buff ts]|]; [|by injection H as _ <-].
  apply bind_Some in H as (c & _ & H).
  apply bind_Some in H as (ct2 & Hset & H). apply coupled_set_kept in Hset.
  assert (invariants_kept ct (set_mLastRecordingBuffIndex ct2 (CameraDriver.mID buff))) as E3.
  { eapply invariants_kept_trans; [exact E1|].
    eapply invariants_kept_trans; [exact Hset|]. by apply fields_kept. }
  destruct (decide _).
  - injection H as _ <-. eapply invariants_kept_trans; [exact E3|].
    by apply fields_kept.
  - apply bind_Some in H as (ct4 & Hset4 & [= _ <-]). apply coupled_set_kept in Hset4.
    by eapply invariants_kept_trans.
Qed.

Lemma threadLoop_body_kept ct it :
  threadLoop_body ct = Some it -> invariants_kept ct (thread_after ct it).
Proof.
  assert (∀ e, waitForAndExecuteMessage ct = Some e ->
               invariants_kept ct (thread_after ct (Executes e))) as Hwait.
  { unfold waitForAndExecuteMessage. intros e He.
    destruct (MessageQueue.receive _) as [[msg q]|]; [|injection He as <-; apply invariants_kept_refl].
    apply bind_Some in He as ([status ct1] & Hd & [= <-]). apply dispatch_kept in Hd. simpl.
    eapply invariants_kept_trans; [|exact Hd]. by apply fields_kept. }
  assert (∀ it, Executes <$> waitForAndExecuteMessage ct = Some it ->
                invariants_kept ct (thread_after ct it)) as Hexec.
  { intros it0 H0. apply fmap_Some in H0 as (e & He & ->). by apply Hwait. }
  unfold threadLoop_body. intros H.
  destruct (mState ct); [by apply Hexec|..].
  - destruct (negb _); [by apply Hexec|].
    destruct (CameraDriver.dataAvailable _); [|by apply Hexec].
    apply bind_Some in H as ([status ct1] & Hd & [= <-]). by apply dequeuePreview_kept in Hd.
  - destruct (negb _); [by apply Hexec|].
    destruct (CameraDriver.dataAvailable _); [|by apply Hexec].
    apply bind_Some in H as ([status ct1] & Hd & H). apply dequeueRecording_kept in Hd.
    simpl in H. destruct (decide _); [|by injection H as <-].
    apply bind_Some in H as ([status2 ct2] & Hd2 & [= <-]). apply dequeuePreview_kept in Hd2.
    by eapply invariants_kept_trans.
  - destruct (negb _); [by apply Hexec|].
    destruct (CameraDriver.dataAvailable _); [|by apply Hexec].
    apply bind_Some in H as ([status ct1] & Hd & H). apply dequeueRecording_kept in Hd.
    simpl in H. destruct (decide _); [|by injection H as <-].
    apply bind_Some in H as ([status2 ct2] & Hd2 & [= <-]). apply dequeuePreview_kept in Hd2.
    by eapply invariants_kept_trans.
  - injection H as <-. apply invariants_kept_refl.
Qed.

(** While the control thread shows the preview or records, it has its array
    of coupled buffers, with one entry for each of its [mNumBuffers]
    buffers: every pass through the loop of [threadLoop] keeps this so,
    whatever message it handles and whatever the driver and the other
    threads answer. *)
Theorem coupled_buffers_exist_while_streaming (ct : t) (it : iteration) :
  coupled_buffers_ready ct ->
  threadLoop_body ct = Some it ->
  coupled_buffers_ready (thread_after ct it).
Proof. intros Hready Hbody. by apply threadLoop_body_kept in Hbody as [Hr _]; auto. Qed.

(** A stopped control thread never leaves its driver in a mode: if the
    driver of a stopped thread is idle before a pass through the loop of
    [threadLoop], it is so after it, also when starting the preview
    failed. *)
Theorem stopped_thread_keeps_driver_idle (ct : t) (it : iteration) :
  idle_when_stopped ct ->
  threadLoop_body ct = Some it ->
  idle_when_stopped (thread_after ct it).
Proof. intros Hidle Hbody. by apply threadLoop_body_kept in Hbody as [_ Hi]; auto. Qed.

(** Once new parameters have passed validation they are stored, up to the
    video size that the handler may force, also when a later step fails and
    the caller is told so; parameters that fail validation change nothing.
    In both cases the status goes to the reply slot of the command. *)
Theorem validated_parameters_are_stored (params : string) (ct : t) (st : status_t) (ct1 : t) :
  handleMessageSetParameters params ct = Some (st, ct1) ->
  reply_slot MESSAGE_ID_SET_PARAMETERS ct1 = Some st ∧
  (validateParameters (requested_parameters params ct) = Some NO_ERROR ∧
   (∀ key, key ≠ KEY_VIDEO_SIZE ->
           mParameters ct1 !! key = requested_parameters params ct !! key) ∧
   (st ≠ NO_ERROR -> mParameters ct1 = requested_parameters params ct)
   ∨
   validateParameters (requested_parameters params ct) = Some st ∧ st ≠ NO_ERROR ∧
   mParameters ct1 = mParameters ct ∧ calls ct1 = calls ct ∧ mDriver ct1 = mDriver ct ∧
   mState ct1 = mState ct).
Proof.
  unfold handleMessageSetParameters. fold (requested_parameters params ct).
  generalize (requested_parameters params ct). intros newParams H.
  apply bind_Some in H as ([st0 ct0] & Hbody & H).
  apply bind_Some in H as (ct2 & Hreply & [= <- <-]).
  pose proof (reply_sets_slot _ _ _ _ Hreply) as Hslot.
  apply reply_keeps in Hreply as ((Hs & _ & _ & Hp & _) & Hc & Hd).
  split; [done|].
  apply bind_Some in Hbody as (valid & Hvalid & Hbody).
  destruct (decide (valid ≠ NO_ERROR)) as [Hbad|Hok].
  { injection Hbody as <- <-. right. split_and!; done. }
  assert (valid = NO_ERROR) as -> by (by destruct (decide (valid = NO_ERROR))).
  left. split; [done|].
  apply bind_Some in Hbody as ([[static newParams1] ct3] & Hstatic & Hbody).
  apply processStaticParameters_parameters in Hstatic as (Hp3 & Hkeys). simpl in Hp3.
  simpl in Hbody.
  destruct (decide (static ≠ NO_ERROR)).
  { injection Hbody as <- <-. rewrite Hp, Hp3. done. }
  apply bind_Some in Hbody as ([dynamic ct4] & Hdyn & Hbody).
  apply processDynamicParameters_same in Hdyn as (_ & _ & _ & Hdyn & _). simpl in Hbody.
  destruct (decide (dynamic ≠ NO_ERROR)).
  { injection Hbody as <- <-. rewrite Hp, Hdyn, Hp3. done. }
  injection Hbody as <- <-. rewrite Hp. simpl. split; [done|].
  intros Hne. by destruct (decide (dynamic = NO_ERROR)).
Qed.

End ThreadFacts.

(** ** Static parameters and face detection *)

Section StaticParameters.
Context `{Dev : !Device, Hos : !Host, Col : !ControlThread.Collaborators}.
Import ControlThread.

Lemma matching_video_size_fits sizes previewWidth previewHeight w h :
  matching_video_size sizes previewWidth previewHeight = Some (w, h) ->
  (w, h) ∈ sizes ∧ aspect_le w h previewWidth previewHeight = true ∧
  previewWidth <= w ∧ previewHeight <= h.
Proof.
  induction sizes as [|[w0 h0] rest IH]; simpl; [done|].
  destruct (aspect_le w0 h0 previewWidth previewHeight) eqn:Hratio.
  - destruct (decide (w0 < previewWidth ∨ h0 < previewHeight)) as [|Hfit].
    + intros H. destruct (IH H) as (? & ? & ? & ?). split_and!; try done. by right.
    + intros [= <- <-]. split_and!; [by left|done|lia|lia].
  - intros H. destruct (IH H) as (? & ? & ? & ?). split_and!; try done. by right.
Qed.

(** The static parameters leave the new parameters as they are, or force
    their video size: then to a supported video size that has the aspect
    ratio of the new preview and is at least as large, and only when the
    caller did not change the video size. *)
Theorem forced_video_size_fits_the_preview (oldParams newParams : CameraParameters) (ct : t)
    (st : status_t) (newParams1 : CameraParameters) (ct1 : t) :
  processStaticParameters oldParams newParams ct = Some (st, newParams1, ct1) ->
  newParams1 = newParams ∨
  ∃ w h, newParams1 = setVideoSize newParams w h ∧
    getVideoSize newParams = getVideoSize oldParams ∧
    (w, h) ∈ parse_sizes (get newParams KEY_SUPPORTED_VIDEO_SIZES) ∧
    aspect_le w h (getPreviewSize newParams).1 (getPreviewSize newParams).2 = true ∧
    (getPreviewSize newParams).1 <= w ∧ (getPreviewSize newParams).2 <= h.
Proof.
  unfold processStaticParameters. intros H.
  destruct (getPreviewSize newParams) as [newWidth newHeight].
  destruct (getPreviewSize oldParams) as [oldWidth oldHeight].
  destruct (getVideoSize newParams) as [newVideoWidth newVideoHeight].
  destruct (getVideoSize oldParams) as [oldVideoWidth oldVideoHeight].
  simpl.
  assert ((if bool_decide (newWidth ≠ oldWidth ∨ newHeight ≠ oldHeight
                           ∨ V4L2Format (get oldParams KEY_PREVIEW_FORMAT)
                             ≠ V4L2Format (get newParams KEY_PREVIEW_FORMAT))
           then (newWidth, newHeight) else (oldWidth, oldHeight))
          = (newWidth, newHeight)) as Hpreview.
  { case_bool_decide as Hp; [done|].
    destruct (decide (newWidth = oldWidth)), (decide (newHeight = oldHeight));
      try (exfalso; apply Hp; tauto). congruence. }
  rewrite Hpreview in H. clear Hpreview.
  destruct (bool_decide (newWidth ≠ oldWidth ∨ _));
    case_bool_decide as Hvideo; simpl in H;
    repeat match type of H with
    | context [aspect_gt ?a ?b ?c ?d] => destruct (aspect_gt a b c d)
    | context [matching_video_size ?a ?b ?c] =>
        destruct (matching_video_size a b c) as [[? ?]|] eqn:Hmatch
    | context [match mState ct with _ => _ end] => destruct (mState ct)
    | (_ ≫= _) = Some _ => apply bind_Some in H as ([? ?] & _ & H)
    end;
    simplify_eq/=; try (by left);
    right; eexists _, _; apply matching_video_size_fits in Hmatch as (? & ? & ? & ?);
    split_and!; try done;
    destruct (decide (newVideoWidth = oldVideoWidth)),
             (decide (newVideoHeight = oldVideoHeight));
    try (exfalso; apply Hvideo; tauto); congruence.
Qed.

(** Face detection starts once: after a start that succeeded a second start
    is refused with [INVALID_OPERATION] and changes nothing; stopping it
    stops the detector and the metadata messages, and a second stop does
    nothing. *)
Theorem face_detection_starts_once (ct ct1 : t) (wait : bool) :
  startFaceDetection ct = (NO_ERROR, ct1) ->
  mFaceDetectionActive ct = false ∧ mFaceDetectionActive ct1 = true ∧
  calls ct1
    = Callbacks_enableMsgType CAMERA_MSG_PREVIEW_METADATA :: FaceDetector_start :: calls ct ∧
  startFaceDetection ct1 = (INVALID_OPERATION, ct1) ∧
  ∃ ct2, stopFaceDetection wait ct1 = (NO_ERROR, ct2) ∧
    mFaceDetectionActive ct2 = false ∧
    calls ct2
      = FaceDetector_stop wait :: Callbacks_disableMsgType CAMERA_MSG_PREVIEW_METADATA
        :: calls ct1 ∧
    stopFaceDetection wait ct2 = (NO_ERROR, ct2).
Proof.
  unfold startFaceDetection at 1. intros H.
  destruct (decide (mState ct = STATE_STOPPED ∨ mFaceDetectionActive ct = true)) as [|Hno];
    [done|].
  destruct (m_pFaceDetector ct) eqn:Hdet; [|done].
  injection H as <-.
  assert (mFaceDetectionActive ct = false) as Hoff.
  { destruct (mFaceDetectionActive ct); [|done]. exfalso. apply Hno. by right. }
  split_and!; try done.
  - unfold startFaceDetection. by rewrite decide_True by (by right).
  - eexists. unfold stopFaceDetection. simpl. rewrite Hdet. done.
Qed.

End StaticParameters.

(** ** Taking a picture *)

Section TakePicture.
Context `{Dev : !Device, Hos : !Host, Col : !ControlThread.Collaborators}.
Import ControlThread.

Lemma start_mode mode d d1 :
  CameraDriver.start mode d = Some (NO_ERROR, d1) -> CameraDriver.mMode d1 = mode.
Proof.
  unfold CameraDriver.start. intros H.
  apply bind_Some in H as ([st0 d0] & _ & H). simpl in H.
  destruct (decide (st0 = NO_ERROR)); injection H as -> <-; done.
Qed.

Lemma stopFaceDetection_off wait ct :
  mFaceDetectionActive (stopFaceDetection wait ct).2 = false.
Proof.
  unfold stopFaceDetection.
  destruct (mFaceDetectionActive ct) eqn:Hactive; simpl; [|done].
  by destruct (m_pFaceDetector ct).
Qed.

(** From the still preview, taking a picture always ends in the capture
    state, with face detection off and the coupled buffers freed, also when
    it fails: if the driver cannot be started in capture mode, the thread
    is in the capture state with an idle driver. *)
Theorem take_picture_enters_capture_state (ct : t) (st : status_t) (ct1 : t) :
  mState ct = STATE_PREVIEW_STILL ->
  handleMessageTakePicture ct = Some (st, ct1) ->
  mState ct1 = STATE_CAPTURE ∧ mCoupledBuffers ct1 = None ∧
  mFaceDetectionActive ct1 = false ∧
  (CameraDriver.mMode (mDriver ct1) = MODE_CAPTURE
   ∨ CameraDriver.mMode (mDriver ct1) = MODE_NONE ∧ st ≠ NO_ERROR).
Proof.
  intros Hstill H. unfold handleMessageTakePicture in H. cbv zeta in H.
  destruct (decide (_ ∧ _)) as [[Hno _]|_]; [done|].
  destruct (decide (mState ct = STATE_PREVIEW_STILL)); [|done].
  destruct (decide (mState ct = STATE_RECORDING)); [congruence|].
  pose proof (stopFaceDetection_off false ct) as Hoff.
  apply bind_Some in H as ([stopped ct2] & Hstop & H).
  pose proof (stopPreviewCore_outcome _ _ _ Hstop) as (-> & _ & Hidle).
  assert (mCoupledBuffers ct2 = None ∧ mFaceDetectionActive ct2 = false) as [Hnone Hoff2].
  { unfold stopPreviewCore in Hstop.
    apply bind_Some in Hstop as ([st0 d] & _ & [= _ <-]).
    by destruct (decide (st0 = NO_ERROR)). }
  destruct (decide (NO_ERROR ≠ NO_ERROR)); [done|].
  destruct (getPictureSize _) as [width height]. unfold invoke in H. simpl in H.
  apply bind_Some in H as (? & _ & H).
  apply bind_Some in H as ([status d] & Hstart & H). simpl in H.
  destruct (decide (status ≠ NO_ERROR)) as [Hfail|Hok].
  { injection H as <- <-. simpl. split_and!; try done. right. split; [|done].
    apply start_outcome in Hstart; [|done]. by rewrite Hstart. }
  assert (status = NO_ERROR) as -> by (by destruct (decide (status = NO_ERROR))).
  apply start_mode in Hstart.
  apply bind_Some in H as ([[status2 got] d2] & Hget & H). simpl in H.
  pose proof (copied_frame_mode _ _ _ _ (or_intror (or_intror Hget))) as Hmode.
  destruct got as [[snapshotBuffer ?]|]; injection H as _ <-; simpl;
    split_and!; try done; left; congruence.
Qed.

End TakePicture.

(** *** The driver on the concrete devices *)

Lemma queueing_device_held tr : @CameraDriver.held Scenario.queueing_device tr = Scenario.queue_of tr.
Proof.
  induction tr as [|c tr IH]; [done|].
  destruct c; simpl; rewrite ?IH; try done.
  - unfold Scenario.queueing_ret. by destruct (decide (_ ∈ _)).
  - unfold Scenario.queueing_ret, Scenario.queueing_out.
    by destruct (last (Scenario.queue_of tr)).
Qed.

Lemma queueing_device_contract : @CameraDriver.queue_contract Scenario.queueing_device.
Proof.
  intros tr. rewrite queueing_device_held. simpl. split_and!.
  - intros i. unfold Scenario.queueing_ret. destruct (decide (i ∈ _)); [lia|done].
  - unfold Scenario.queueing_ret, Scenario.queueing_out.
    destruct (last (Scenario.queue_of tr)) as [i|] eqn:Hl; [|lia].
    intros _. apply last_Some in Hl as [l ->]. simpl. set_solver.
Qed.


(** On the queueing device: two buffers allocated and queued, the frame of
    the first dequeued and given back, given back once more, which the
    device refuses, and the frame of the second dequeued.  One buffer is
    left with the device and one is out. *)
Lemma pool_counter_tracks_device_witness :
  CameraDriver.numBuffers (CameraDriver.mBufferPool Scenario.after_pool_ops) = 2 ∧
  CameraDriver.numBuffersQueued (CameraDriver.mBufferPool Scenario.after_pool_ops) = 1 ∧
  0 <= CameraDriver.numBuffersQueued (CameraDriver.mBufferPool Scenario.after_pool_ops)
    <= CameraDriver.numBuffers (CameraDriver.mBufferPool Scenario.after_pool_ops) ∧
  CameraDriver.numBuffersQueued (CameraDriver.mBufferPool Scenario.after_pool_ops)
  + Z.of_nat (length (@CameraDriver.not_held Scenario.queueing_device
                        (CameraDriver.numBuffers (CameraDriver.mBufferPool Scenario.after_pool_ops))
                        (CameraDriver.trace Scenario.after_pool_ops)))
  = CameraDriver.numBuffers (CameraDriver.mBufferPool Scenario.after_pool_ops) ∧
  CameraDriver.numBuffersQueued (CameraDriver.mBufferPool Scenario.after_pool_ops)
  = Z.of_nat (length (@CameraDriver.held Scenario.queueing_device
                        (CameraDriver.trace Scenario.after_pool_ops))).
Proof.
  destruct (@pool_counter_tracks_device Scenario.queueing_device Scenario.pool_ops
              Scenario.opened Scenario.after_pool_ops queueing_device_contract
              ltac:(repeat constructor; unfold in_int32; lia) eq_refl eq_refl
              ltac:(vm_compute; reflexivity))
    as (Hbounds & Hsum & Hheld).
  split; [reflexivity|]. split; [reflexivity|]. split; [exact Hbounds|].
  split; [exact Hsum|]. apply Hheld. by eexists.
Defined.

(** *** The message queue on concrete inputs *)

Lemma receive_returns_in_send_order_witness :
  MessageQueue.drain 3
    (MessageQueue.mk [30; 20; 10]%nat 2 [WOULD_BLOCK; NO_ERROR])
  = Some ([10; 20; 30]%nat, MessageQueue.mk [] 2 [WOULD_BLOCK; NO_ERROR]).
Proof.
  apply (receive_returns_in_send_order [(10%nat, -1); (20%nat, 0); (30%nat, -1)]
           (MessageQueue.mk [] 2 [NO_ERROR; NO_ERROR])); reflexivity.
Defined.

Lemma remove_resolves_reply_slot_witness :
  ∃ q1,
    MessageQueue.remove Z.of_nat 7 (Some [])
      (MessageQueue.mk [7; 5; 9; 7]%nat 8 (replicate 8 WOULD_BLOCK))
    = Some (NO_ERROR, Some [7; 7]%nat, q1) ∧
    MessageQueue.mList q1 = [5; 9]%nat ∧
    MessageQueue.send_wait 7 q1 = Some (MessageQueue.Woken INVALID_OPERATION).
Proof.
  destruct (remove_resolves_reply_slot Z.of_nat 7 (Some [])
              (MessageQueue.mk [7; 5; 9; 7]%nat 8 (replicate 8 WOULD_BLOCK))
              ltac:(simpl; lia) ltac:(simpl; lia)) as [_ Hremove].
  destruct (Hremove ltac:(discriminate)) as (q1 & Hr & Hl & _ & Hw).
  exists q1. split_and!; [exact Hr|exact Hl|exact Hw].
Defined.

(** C6, as stated, fails on an empty queue: a sender whose command the
    consumer has already taken still waits on slot 3; [remove] for that kind
    returns at once, the slot keeps [WOULD_BLOCK] and the sender stays
    blocked. *)
Lemma remove_on_empty_queue_leaves_sender_blocked :
  MessageQueue.remove Z.of_nat 3 None (MessageQueue.mk [] 8 (replicate 8 WOULD_BLOCK))
  = Some (NO_ERROR, None, MessageQueue.mk [] 8 (replicate 8 WOULD_BLOCK)) ∧
  MessageQueue.send_wait 3 (MessageQueue.mk (MessageType := nat) [] 8 (replicate 8 WOULD_BLOCK))
  = Some MessageQueue.Blocked ∧
  ¬ (∃ r q1,
       MessageQueue.remove Z.of_nat 3 None (MessageQueue.mk [] 8 (replicate 8 WOULD_BLOCK))
       = Some (r, q1) ∧
       MessageQueue.send_wait 3 q1 = Some (MessageQueue.Woken INVALID_OPERATION)).
Proof.
  split_and!; [done|done|].
  intros (r & q1 & Hr & Hw). vm_compute in Hr. injection Hr as _ <-. vm_compute in Hw. discriminate.
Qed.

(** *** The control thread on the concrete devices *)



(** C3.  With the thread in the capture state and a command in the queue,
    one pass of the event loop takes the [default] branch: the command stays
    in the queue and nothing is executed. *)
Theorem capture_state_leaves_commands_waiting :
  ∃ ct,
    @ControlThread.pictureDone Scenario.dequeued Scenario.dequeued Scenario.capture_thread
    = Some (MessageQueue.Returns NO_ERROR, ct) ∧
    ControlThread.mState ct = ControlThread.STATE_CAPTURE ∧
    MessageQueue.isEmpty (ControlThread.mMessageQueue ct) = false ∧
    @ControlThread.threadLoop_body Scenario.queueing_device Scenario.plain_host Scenario.quiet ct
    = Some (ControlThread.Nothing ct).
Proof. eexists. split; [reflexivity|]. done. Qed.

(** After a still capture on the queueing device [stopCapture] brings the
    thread to the stopped state. *)
Lemma capture_ends_in_stopCapture_witness :
  ControlThread.mState Scenario.capture_thread = ControlThread.STATE_CAPTURE ∧
  ∃ ct1,
    @ControlThread.stopCapture Scenario.queueing_device Scenario.quiet Scenario.capture_thread
    = Some (NO_ERROR, ct1) ∧
    ControlThread.mState ct1 = ControlThread.STATE_STOPPED.
Proof.
  split; [reflexivity|].
  destruct (@capture_ends_in_stopCapture Scenario.queueing_device Scenario.plain_host
              Scenario.quiet Scenario.capture_thread Scenario.dequeued Scenario.dequeued
              3 (default [] (CameraDriver.bufs (CameraDriver.mBufferPool Scenario.capture_driver)))
              eq_refl eq_refl eq_refl ltac:(lia) eq_refl eq_refl eq_refl)
    as (_ & _ & ct1 & Hstop & Hstate & _).
  exists ct1. by split.
Defined.

(** C4, as stated, fails: handling [pictureDone] in the capture state
    queues the snapshot buffer again and returns the status of
    [putThumbnail]; the state is still [STATE_CAPTURE], the driver still in
    capture mode with its four buffers, and no [VIDIOC_STREAMOFF] was
    issued. *)
Lemma picture_done_leaves_capture_streaming :
  ∃ ct1,
    @ControlThread.handleMessagePictureDone Scenario.queueing_device
      Scenario.dequeued Scenario.dequeued Scenario.capture_thread
    = Some (INVALID_OPERATION, ct1) ∧
    ControlThread.mState ct1 = ControlThread.STATE_CAPTURE ∧
    CameraDriver.mMode (ControlThread.mDriver ct1) = MODE_CAPTURE ∧
    CameraDriver.trace (ControlThread.mDriver ct1)
    = VIDIOC_QBUF 0 :: CameraDriver.trace Scenario.capture_driver ∧
    CameraDriver.numBuffers (CameraDriver.mBufferPool (ControlThread.mDriver ct1)) = 4 ∧
    is_Some (CameraDriver.bufs (CameraDriver.mBufferPool (ControlThread.mDriver ct1))).
Proof. eexists. split; [reflexivity|]. split_and!; try reflexivity. by eexists. Qed.


(** The exception of C5: in the capture state, with a picture thread that
    fails to flush its buffers, [startPreview] waits on slot 1 and the
    handler of its command returns the failure without a reply; the caller
    stays blocked. *)
Lemma startPreview_stays_blocked_when_stopCapture_fails :
  ∃ ct1 ct2,
    ControlThread.startPreview Scenario.capture_thread
    = Some (MessageQueue.Waits 1, ct1) ∧
    @ControlThread.waitForAndExecuteMessage
      Scenario.queueing_device Scenario.plain_host Scenario.stuck_picture_thread ct1
    = Some (ControlThread.Handled ControlThread.MsgStartPreview UNKNOWN_ERROR ct2) ∧
    ControlThread.mState ct2 = ControlThread.STATE_CAPTURE ∧
    MessageQueue.send_wait 1 (ControlThread.mMessageQueue ct2) = Some MessageQueue.Blocked.
Proof. eexists _, _. split; [reflexivity|]. split; [reflexivity|]. split; reflexivity. Qed.




(** While recording with an empty queue and frames waiting in the driver,
    the pass through the loop takes frames from the driver. *)
Lemma event_loop_serves_queue_first_witness :
  ControlThread.mState Scenario.recording_thread ≠ ControlThread.STATE_CAPTURE ∧
  ∃ status ct1,
    @ControlThread.threadLoop_body Scenario.queueing_device Scenario.plain_host Scenario.quiet
      Scenario.recording_thread
    = Some (ControlThread.Dequeues status ct1).
Proof.
  split; [discriminate|].
  destruct (@event_loop_serves_queue_first Scenario.queueing_device Scenario.plain_host
              Scenario.quiet Scenario.recording_thread ltac:(discriminate)) as [_ Hidle].
  specialize (Hidle eq_refl). simpl in Hidle.
  destruct (@ControlThread.threadLoop_body Scenario.queueing_device Scenario.plain_host
              Scenario.quiet Scenario.recording_thread) as [it|] eqn:Hbody;
    [|vm_compute in Hbody; discriminate Hbody].
  destruct (Hidle it eq_refl) as (status & ct1 & ->). by exists status, ct1.
Defined.

Lemma remove_keeps_the_other_commands_witness :
  ∃ q1,
    MessageQueue.remove ControlThread.msg_value 1 (Some []) Scenario.three_commands
    = Some (NO_ERROR, Some [ControlThread.MsgStartPreview; ControlThread.MsgStartPreview], q1) ∧
    MessageQueue.mList q1 = [ControlThread.MsgTakePicture; ControlThread.MsgStopPreview].
Proof.
  destruct (remove_keeps_the_other_commands ControlThread.msg_value 1 (Some [])
              Scenario.three_commands ltac:(discriminate) ltac:(intros _; vm_compute; split; [discriminate|reflexivity]))
    as (q1 & Hremove & Hlist & _).
  exists q1. split; [exact Hremove|exact Hlist].
Defined.

Lemma reply_wakes_its_sender_only_witness :
  ∃ q1,
    MessageQueue.reply 4 BAD_VALUE Scenario.three_commands = Some q1 ∧
    MessageQueue.send_wait 4 q1 = Some (MessageQueue.Woken BAD_VALUE) ∧
    MessageQueue.send_wait 1 q1 = Some (MessageQueue.Blocked).
Proof.
  destruct (reply_wakes_its_sender_only 4 BAD_VALUE Scenario.three_commands
              ltac:(vm_compute; split; [discriminate|reflexivity]))
    as (q1 & Hreply & _ & Hwoken & Hothers).
  exists q1. split; [exact Hreply|]. split; [exact Hwoken|].
  rewrite (Hothers 1) by discriminate. reflexivity.
Defined.

(** *** The driver's sessions on the concrete devices *)

Lemma start_queues_every_buffer_witness :
  @CameraDriver.start Scenario.queueing_device MODE_PREVIEW Scenario.constructed
  = Some (NO_ERROR, Scenario.streaming) ∧
  CameraDriver.mMode Scenario.streaming = MODE_PREVIEW ∧
  CameraDriver.numBuffersQueued (CameraDriver.mBufferPool Scenario.streaming) = 4.
Proof.
  split; [reflexivity|].
  destruct (@start_queues_every_buffer Scenario.queueing_device MODE_PREVIEW
              Scenario.constructed Scenario.streaming
              ltac:(discriminate) eq_refl ltac:(vm_compute; split; discriminate) eq_refl)
    as (Hmode & _ & _ & Hqueued & _).
  split; [exact Hmode|exact Hqueued].
Defined.

Lemma failed_start_leaves_nothing_behind_witness :
  ∃ d1,
    @CameraDriver.start Scenario.faulty_device MODE_PREVIEW Scenario.constructed
    = Some (UNKNOWN_ERROR, d1) ∧
    CameraDriver.mBufferPool d1 = CameraDriver.empty_pool ∧ device_closed d1.
Proof.
  eexists. split; [vm_compute; reflexivity|].
  eapply (@failed_start_leaves_nothing_behind Scenario.faulty_device MODE_PREVIEW
            Scenario.constructed UNKNOWN_ERROR);
    [reflexivity|vm_compute; split; discriminate|vm_compute; reflexivity|discriminate].
Defined.

Lemma failed_allocation_releases_the_memory_witness :
  ∃ d1,
    @CameraDriver.allocateBuffers Scenario.faulty_device 4 Scenario.opened
    = Some (UNKNOWN_ERROR, d1) ∧
    CameraDriver.mBufferPool d1 = CameraDriver.empty_pool ∧
    ∃ new, CameraDriver.trace d1 = new ++ CameraDriver.trace Scenario.opened ∧
           ∀ j len, CB_allocateMemory j len ∈ new -> CB_releaseMemory j ∈ new.
Proof.
  eexists. split; [vm_compute; reflexivity|].
  eapply (@failed_allocation_releases_the_memory Scenario.faulty_device 4 Scenario.opened
            UNKNOWN_ERROR);
    [reflexivity|vm_compute; split; discriminate|vm_compute; reflexivity|discriminate].
Defined.

Lemma stop_leaves_the_driver_idle_witness :
  @CameraDriver.stop Scenario.queueing_device Scenario.after_dequeue
  = Some (NO_ERROR, Scenario.stopped) ∧
  @CameraDriver.putPreviewFrame Scenario.queueing_device Scenario.dequeued Scenario.stopped
  = Some (INVALID_OPERATION, Scenario.stopped) ∧
  device_closed Scenario.stopped.
Proof.
  split; [reflexivity|].
  destruct (@stop_leaves_the_driver_idle Scenario.queueing_device Scenario.after_dequeue
              NO_ERROR Scenario.stopped Scenario.dequeued eq_refl)
    as (_ & _ & _ & Hidle & _ & _ & _ & _ & Hput & _).
  split; [exact Hput|]. apply Hidle. discriminate.
Defined.

Lemma fresh_buffer_passes_the_session_check_witness :
  @CameraDriver.dequeueBuffer Scenario.queueing_device false Scenario.streaming
  = Some (NO_ERROR, Some (Scenario.handed_out, None), Scenario.after_dequeue) ∧
  ∃ d2,
    @CameraDriver.queueBuffer Scenario.queueing_device Scenario.handed_out false
      Scenario.after_dequeue = Some (NO_ERROR, d2) ∧
    CameraDriver.numBuffersQueued (CameraDriver.mBufferPool d2) = 4.
Proof.
  split; [reflexivity|].
  destruct (@fresh_buffer_passes_the_session_check Scenario.queueing_device false
              Scenario.streaming Scenario.handed_out None Scenario.after_dequeue eq_refl
              ltac:(vm_compute; split; discriminate))
    as (st & d2 & i & Hqueue & _ & Hst & Hcount).
  assert (st = NO_ERROR) as ->.
  { vm_compute in Hqueue. by injection Hqueue as <- _. }
  exists d2. split; [exact Hqueue|]. by rewrite (Hcount eq_refl).
Defined.

Lemma frame_sizes_stay_within_the_maximum_witness :
  @CameraDriver.setPreviewFrameSize Scenario.queueing_device 4000 (-1) Scenario.constructed
  = (NO_ERROR,
     CameraDriver.set_mConfig Scenario.constructed
       (CameraDriver.mkConfig (CameraDriver.mkFrameInfo 1920 1080 1920 1920 1080)
          Scenario.vga 0)) ∧
  CameraDriver.width
    (CameraDriver.preview
       (CameraDriver.mConfig
          (@CameraDriver.setPreviewFrameSize Scenario.queueing_device 4000 (-1)
             Scenario.constructed).2)) <= 1920.
Proof.
  split; [reflexivity|].
  destruct (@frame_sizes_stay_within_the_maximum Scenario.queueing_device 4000 (-1)
              Scenario.constructed _ _ _ _
              ltac:(reflexivity) ltac:(reflexivity)
              ltac:(vm_compute; split; [reflexivity|discriminate])
              ltac:(vm_compute; split; [reflexivity|discriminate])
              eq_refl eq_refl)
    as ((_ & Hwidth & _) & _).
  apply Hwidth.
Defined.

(** *** The parameters and the control thread on concrete inputs *)

Lemma scaled_weights_add_up_witness :
  weight <$> @ControlThread.preSetCameraWindows Scenario.plain_host Scenario.two_windows
               Scenario.stopped_thread = [5; 11] ∧
  total_weight (@ControlThread.preSetCameraWindows Scenario.plain_host Scenario.two_windows
                  Scenario.stopped_thread) = 16.
Proof.
  split; [reflexivity|].
  apply (@scaled_weights_add_up Scenario.plain_host Scenario.two_windows Scenario.stopped_thread);
    [discriminate|repeat constructor|vm_compute; discriminate].
Defined.

Lemma scaled_windows_lie_in_the_frame_witness :
  Forall (in_frame 640 480)
    (@ControlThread.preSetCameraWindows Scenario.plain_host Scenario.two_windows
       Scenario.stopped_thread).
Proof.
  apply (@scaled_windows_lie_in_the_frame Scenario.plain_host Scenario.two_windows
           Scenario.stopped_thread 640 480);
    [reflexivity|lia|lia|repeat constructor].
Defined.

Lemma red_eye_flash_is_never_selected_witness :
  @ControlThread.processParamFlash Scenario.plain_host Scenario.default_parameters
    Scenario.red_eye Scenario.stopped_thread
  = (BAD_VALUE, Scenario.stopped_thread).
Proof.
  apply (@red_eye_flash_is_never_selected Scenario.plain_host Scenario.default_parameters
           Scenario.red_eye Scenario.stopped_thread "red-eye" eq_refl).
  reflexivity.
Defined.

Lemma night_portrait_selects_the_night_scene_witness :
  @ControlThread.processParamSceneMode Scenario.plain_host Scenario.default_parameters
    Scenario.night_portrait Scenario.stopped_thread
  = (NO_ERROR,
     ControlThread.ask (ControlThread.Driver_setSceneMode CameraDriver.SCENE_MODE_NIGHT)
       Scenario.stopped_thread).
Proof.
  apply (@night_portrait_selects_the_night_scene Scenario.plain_host
           Scenario.default_parameters Scenario.night_portrait Scenario.stopped_thread
           "night-portrait" eq_refl eq_refl).
Defined.

Lemma validation_answers_witness :
  @ControlThread.validateParameters Scenario.plain_host Scenario.supported_parameters
  = Some NO_ERROR
  ∨ @ControlThread.validateParameters Scenario.plain_host Scenario.supported_parameters
    = Some BAD_VALUE.
Proof.
  apply (@validation_answers Scenario.plain_host Scenario.supported_parameters);
    vm_compute; by eexists.
Defined.

Lemma validation_ignores_video_and_picture_size_witness :
  @ControlThread.validateParameters Scenario.plain_host
    (<[KEY_VIDEO_SIZE := "0x0"%string]> Scenario.supported_parameters)
  = @ControlThread.validateParameters Scenario.plain_host Scenario.supported_parameters.
Proof.
  apply (@validation_ignores_video_and_picture_size Scenario.plain_host).
  intros key Hvideo _. by rewrite lookup_insert_ne.
Defined.

Lemma window_count_is_never_checked_witness :
  @ControlThread.validateParameters Scenario.decimal_host
    (<[KEY_MAX_NUM_FOCUS_AREAS := "1"%string]> Scenario.supported_parameters)
  = @ControlThread.validateParameters Scenario.decimal_host
      (<[KEY_MAX_NUM_FOCUS_AREAS := "4"%string]> Scenario.supported_parameters).
Proof.
  apply (@window_count_is_never_checked Scenario.decimal_host Scenario.supported_parameters
           "1" "4"); reflexivity.
Defined.

Lemma released_recording_frame_is_found_by_address_witness :
  @ControlThread.handleMessageReleaseRecordingFrame Scenario.queueing_device 5
    Scenario.recording_thread
  = Some (DEAD_OBJECT, Scenario.recording_thread).
Proof.
  destruct (@released_recording_frame_is_found_by_address Scenario.queueing_device 5
              Scenario.recording_thread _ eq_refl ltac:(vm_compute; discriminate))
    as [_ Hdead].
  apply Hdead; [reflexivity|]. repeat constructor; discriminate.
Defined.

Lemma validated_parameters_are_stored_witness :
  ∃ ct1,
    @ControlThread.handleMessageSetParameters Scenario.queueing_device Scenario.plain_host
      Scenario.quiet "preview-size=0x0" Scenario.stopped_thread
    = Some (BAD_VALUE, ct1) ∧
    ControlThread.reply_slot ControlThread.MESSAGE_ID_SET_PARAMETERS ct1 = Some BAD_VALUE ∧
    ControlThread.mParameters ct1 = Scenario.default_parameters.
Proof.
  eexists. split; [vm_compute; reflexivity|].
  destruct (@validated_parameters_are_stored Scenario.queueing_device Scenario.plain_host
              Scenario.quiet "preview-size=0x0" Scenario.stopped_thread BAD_VALUE _
              ltac:(vm_compute; reflexivity))
    as (Hslot & [(Hvalid & _)|(_ & _ & Hparams & _)]).
  - vm_compute in Hvalid. discriminate Hvalid.
  - split; [exact Hslot|exact Hparams].
Defined.

Lemma coupled_buffers_exist_while_streaming_witness :
  ∃ it,
    @ControlThread.threadLoop_body Scenario.queueing_device Scenario.plain_host Scenario.quiet
      Scenario.recording_thread = Some it ∧
    coupled_buffers_ready (thread_after Scenario.recording_thread it).
Proof.
  eexists. split; [vm_compute; reflexivity|].
  apply (@coupled_buffers_exist_while_streaming Scenario.queueing_device Scenario.plain_host
           Scenario.quiet Scenario.recording_thread).
  - intros _ _. eexists. split; reflexivity.
  - vm_compute. reflexivity.
Defined.

Lemma stopped_thread_keeps_driver_idle_witness :
  ∃ ct1,
    @ControlThread.threadLoop_body Scenario.faulty_device Scenario.plain_host Scenario.quiet
      Scenario.start_requested
    = Some (ControlThread.Executes
              (ControlThread.Handled ControlThread.MsgStartPreview UNKNOWN_ERROR ct1)) ∧
    ControlThread.mState ct1 = ControlThread.STATE_STOPPED ∧
    CameraDriver.mMode (ControlThread.mDriver ct1) = MODE_NONE.
Proof.
  eexists. split; [vm_compute; reflexivity|]. split; [reflexivity|].
  apply (@stopped_thread_keeps_driver_idle Scenario.faulty_device Scenario.plain_host
           Scenario.quiet Scenario.start_requested
           (ControlThread.Executes
              (ControlThread.Handled ControlThread.MsgStartPreview UNKNOWN_ERROR _)));
    [intros _; reflexivity|vm_compute; reflexivity|reflexivity].
Defined.

Lemma forced_video_size_fits_the_preview_witness :
  @ControlThread.processStaticParameters Scenario.queueing_device Scenario.forcing_host
    Scenario.quiet Scenario.default_parameters Scenario.default_parameters
    Scenario.stopped_thread
  = Some (NO_ERROR, @setVideoSize Scenario.forcing_host Scenario.default_parameters 1280 960,
          Scenario.stopped_thread) ∧
  ∃ w h, (w, h) ∈ [(320, 240); (1280, 960)] ∧ 640 <= w ∧ 480 <= h ∧
    @setVideoSize Scenario.forcing_host Scenario.default_parameters 1280 960
    = @setVideoSize Scenario.forcing_host Scenario.default_parameters w h.
Proof.
  split; [vm_compute; reflexivity|].
  destruct (@forced_video_size_fits_the_preview Scenario.queueing_device Scenario.forcing_host
              Scenario.quiet Scenario.default_parameters Scenario.default_parameters
              Scenario.stopped_thread NO_ERROR
              (@setVideoSize Scenario.forcing_host Scenario.default_parameters 1280 960)
              Scenario.stopped_thread ltac:(vm_compute; reflexivity))
    as [Hsame|(w & h & Hforced & _ & Hin & _ & Hw & Hh)].
  - apply (f_equal (λ m : CameraParameters, m !! KEY_VIDEO_SIZE)) in Hsame.
    vm_compute in Hsame. discriminate Hsame.
  - exists w, h. split_and!; [exact Hin|exact Hw|exact Hh|exact Hforced].
Defined.

Lemma face_detection_starts_once_witness :
  ∃ ct1,
    @ControlThread.startFaceDetection Scenario.quiet Scenario.detecting_thread
    = (NO_ERROR, ct1) ∧
    @ControlThread.startFaceDetection Scenario.quiet ct1 = (INVALID_OPERATION, ct1).
Proof.
  eexists. split; [vm_compute; reflexivity|].
  apply (@face_detection_starts_once Scenario.quiet Scenario.detecting_thread _ false).
  vm_compute. reflexivity.
Defined.

Lemma take_picture_enters_capture_state_witness :
  ∃ ct1,
    @ControlThread.handleMessageTakePicture Scenario.faulty_device Scenario.plain_host
      Scenario.quiet Scenario.preview_thread = Some (UNKNOWN_ERROR, ct1) ∧
    ControlThread.mState ct1 = ControlThread.STATE_CAPTURE ∧
    CameraDriver.mMode (ControlThread.mDriver ct1) = MODE_NONE.
Proof.
  eexists. split; [vm_compute; reflexivity|].
  destruct (@take_picture_enters_capture_state Scenario.faulty_device Scenario.plain_host
              Scenario.quiet Scenario.preview_thread UNKNOWN_ERROR _ eq_refl
              ltac:(vm_compute; reflexivity))
    as (Hstate & _ & _ & [Hmode|[Hmode _]]).
  - vm_compute in Hmode. discriminate Hmode.
  - split; [exact Hstate|exact Hmode].
Defined.

(** C10.  [verifyCameraWindow] accepts a window exactly when its right edge
    is strictly right of its left edge, its bottom edge strictly below its
    top edge, the four coordinates lie in [-1000, 1000] and the weight in
    [1, 1000]; it accepts the window (0, 0, 100, 100) of weight 10 and
    rejects the window whose left edge 100 is right of its right edge 50. *)
Theorem verifyCameraWindow_accepts_exactly :
  (∀ win : CameraWindow,
     ControlThread.verifyCameraWindow win = true ↔
     x_left win < x_right win ∧ y_top win < y_bottom win ∧
     -1000 <= x_left win <= 1000 ∧ -1000 <= x_right win <= 1000 ∧
     -1000 <= y_top win <= 1000 ∧ -1000 <= y_bottom win <= 1000 ∧
     1 <= weight win <= 1000) ∧
  ControlThread.verifyCameraWindow
    {| x_left := 0; y_top := 0; x_right := 100; y_bottom := 100; weight := 10 |} = true ∧
  ControlThread.verifyCameraWindow
    {| x_left := 100; y_top := 0; x_right := 50; y_bottom := 100; weight := 10 |} = false.
Proof.
  split; [|done].
  intros win. unfold ControlThread.verifyCameraWindow.
  repeat (destruct (decide _)); split; intros; try done; lia.
Qed.
